(** * Mesh to signed-distance-field conversion: a shallow embedding

    This development embeds, function by function, the parts of the
    repository that turn a triangle mesh into a 3D signed distance field:

    - [src/mesh/types.ts]         bounding boxes ([computeBounds], ...);
    - [src/mesh/obj-loader.ts]    the OBJ text loader ([parseOBJ]);
    - [src/shaders/mesh-distance.wgsl]  the compute shader;
    - [src/sdf/distance-field.ts] the host-side driver
                                  ([computeDistanceField]).

    Numbers.  JavaScript numbers and WGSL [f32] values are idealised as
    real numbers ([R]): rounding, overflow and the NaN payloads of IEEE
    arithmetic are outside the model.  What exact arithmetic can still go
    wrong with is kept: a division by zero (and the normalisation of a
    zero vector) in the shader yields an indeterminate value, written
    [None].  Unsigned 32-bit integers are integers in [Z] with the
    wrap-around written out. *)

From Stdlib Require Import Reals Lra Lia ZArith Psatz.
From Stdlib Require Import String Ascii.
From stdpp Require Import gmap list strings.

Local Open Scope R_scope.

(** ** WGSL values and built-in functions *)

Module Wgsl.

Record vec3f : Type := Vec3f { vx : R; vy : R; vz : R }.

(** Component-wise [a + b], [a - b], [a * b]; [s * v]; [a + s]. *)
Definition vadd (a b : vec3f) : vec3f :=
  Vec3f (vx a + vx b) (vy a + vy b) (vz a + vz b).
Definition vsub (a b : vec3f) : vec3f :=
  Vec3f (vx a - vx b) (vy a - vy b) (vz a - vz b).
Definition vscale (s : R) (v : vec3f) : vec3f :=
  Vec3f (s * vx v) (s * vy v) (s * vz v).
Definition vmul (a b : vec3f) : vec3f :=
  Vec3f (vx a * vx b) (vy a * vy b) (vz a * vz b).
Definition vadds (a : vec3f) (s : R) : vec3f :=
  Vec3f (vx a + s) (vy a + s) (vz a + s).

(** [v / c] for a non-zero literal [c]. *)
Definition vdivc (v : vec3f) (c : R) : vec3f :=
  Vec3f (vx v / c) (vy v / c) (vz v / c).

(** Floating-point division: the quotient by zero is indeterminate. *)
Definition fdiv (a b : R) : option R :=
  if Req_dec_T b 0 then None else Some (a / b).

(** [v / s] for a vector [v] and a scalar [s]. *)
Definition vdivs (v : vec3f) (s : R) : option vec3f :=
  if Req_dec_T s 0 then None
  else Some (Vec3f (vx v / s) (vy v / s) (vz v / s)).

Definition dot (a b : vec3f) : R :=
  vx a * vx b + vy a * vy b + vz a * vz b.

Definition cross (a b : vec3f) : vec3f :=
  Vec3f (vy a * vz b - vz a * vy b)
        (vz a * vx b - vx a * vz b)
        (vx a * vy b - vy a * vx b).

Definition length (v : vec3f) : R := sqrt (dot v v).

(** [normalize(v) = v / length(v)]. *)
Definition normalize (v : vec3f) : option vec3f := vdivs v (length v).

Definition abs (x : R) : R := Rabs x.

(** [sign(x)]: 1, 0 or -1. *)
Definition sign (x : R) : R :=
  if Rlt_dec 0 x then 1 else if Rlt_dec x 0 then -1 else 0.

(** [u32(f)]: conversion of a float to an unsigned 32-bit integer,
    truncating and clamping to the range of the type. *)
Definition u32 (f : R) : Z :=
  Z.min (Z.max 0 (Int_part f)) 4294967295.

(** 32-bit wrap-around of unsigned arithmetic. *)
Definition wrap32 (z : Z) : Z := z mod 4294967296.

End Wgsl.

(** ** The compute shader, [src/shaders/mesh-distance.wgsl] *)

Module Shader.
Import Wgsl.

Record Uniforms : Type := mkUniforms {
  volume_min : vec3f;
  _pad0 : R;
  volume_max : vec3f;
  _pad1 : R;
  resolution : R;
  triangle_count : R;
  _pad2 : R;
  _pad3 : R;
}.

(** An invocation id ([vec3u]) and the write-only storage texture
    ([texture_storage_3d<r32float, write>]): the texels written so far,
    each holding a float or an indeterminate value. *)
Abbreviation vec3u := (Z * Z * Z)%type.
Abbreviation texture_storage_3d := (gmap (Z * Z * Z) (option R)).

Definition vec3f_of (gid : vec3u) : vec3f :=
  let '(gx, gy, gz) := gid in Vec3f (IZR gx) (IZR gy) (IZR gz).

(** [textureStore(output, gid, vec4f(v, 0, 0, 0))] on an [r32float] texture. *)
Definition textureStore (output : texture_storage_3d) (gid : vec3u)
    (v : option R) : texture_storage_3d :=
  <[gid := v]> output.

(** A read of a storage array; out of bounds the value is indeterminate. *)
Definition load {A : Type} (arr : list A) (i : Z) : option A :=
  arr !! Z.to_nat i.

Section Bindings.

(** [@group(0) @binding(0..2)]. *)
Variable uniforms : Uniforms.
Variable vertices : list R.
Variable indices : list Z.

Definition get_vertex (idx : Z) : option vec3f :=
  let base := wrap32 (idx * 3) in
  a ← load vertices base;
  b ← load vertices (wrap32 (base + 1));
  c ← load vertices (wrap32 (base + 2));
  Some (Vec3f a b c).

Definition get_triangle (tri_idx : Z) : option (vec3f * vec3f * vec3f) :=
  let base := wrap32 (tri_idx * 3) in
  i0 ← load indices base;
  i1 ← load indices (wrap32 (base + 1));
  i2 ← load indices (wrap32 (base + 2));
  t0 ← get_vertex i0;
  t1 ← get_vertex i1;
  t2 ← get_vertex i2;
  Some (t0, t1, t2).

Definition point_triangle_distance (p v0 v1 v2 : vec3f) : option R :=
  let e0 := vsub v1 v0 in
  let e1 := vsub v2 v0 in
  let v := vsub p v0 in
  let d00 := dot e0 e0 in
  let d01 := dot e0 e1 in
  let d11 := dot e1 e1 in
  let d20 := dot v e0 in
  let d21 := dot v e1 in
  let denom := d00 * d11 - d01 * d01 in
  if Rlt_dec (abs denom) 1e-10 then Some (length (vsub p v0))
  else
    s ← fdiv (d11 * d20 - d01 * d21) denom;
    t ← fdiv (d00 * d21 - d01 * d20) denom;
    let s := if Rlt_dec s 0 then 0 else s in
    let t := if Rlt_dec t 0 then 0 else t in
    st ← (if Rgt_dec (s + t) 1
          then scale ← fdiv 1 (s + t); Some (s * scale, t * scale)
          else Some (s, t));
    let closest := vadd (vadd v0 (vscale (fst st) e0)) (vscale (snd st) e1) in
    Some (length (vsub p closest)).

Definition triangle_normal (v0 v1 v2 : vec3f) : option vec3f :=
  normalize (cross (vsub v1 v0) (vsub v2 v0)).

Definition compute_sign (p v0 v1 v2 : vec3f) : option R :=
  normal ← triangle_normal v0 v1 v2;
  let center := vdivc (vadd (vadd v0 v1) v2) 3 in
  let to_point := vsub p center in
  Some (sign (dot normal to_point)).

(** The body of the [for] loop of [main]: the running minimum
    [(min_dist, closest_tri)] after triangle [i] has been looked at. *)
Definition closest_step (p : vec3f) (acc : option (R * Z)) (i : Z)
  : option (R * Z) :=
  '(min_dist, closest_tri) ← acc;
  '(t0, t1, t2) ← get_triangle i;
  d ← point_triangle_distance p t0 t1 t2;
  Some (if Rlt_dec d min_dist then (d, i) else (min_dist, closest_tri)).

(** [for (var i = 0u; i < tri_count; i++)] from [min_dist = 1e10],
    [closest_tri = 0u]. *)
Definition closest_loop (p : vec3f) (tri_count : Z) : option (R * Z) :=
  fold_left (closest_step p) (seqZ 0 tri_count) (Some (1e10, 0%Z)).

(** The world position sampled by invocation [gid]. *)
Definition voxel_center (gid : vec3u) : option vec3f :=
  voxel_size ← vdivs (vsub (volume_max uniforms) (volume_min uniforms))
                     (resolution uniforms);
  Some (vadd (volume_min uniforms)
             (vmul (vadds (vec3f_of gid) 0.5) voxel_size)).

(** The value [s * min_dist] that [main] stores for an in-range [gid]. *)
Definition signed_distance (gid : vec3u) : option R :=
  p ← voxel_center gid;
  '(min_dist, closest_tri) ← closest_loop p (u32 (triangle_count uniforms));
  '(t0, t1, t2) ← get_triangle closest_tri;
  s ← compute_sign p t0 t1 t2;
  Some (s * min_dist).

(** [@compute @workgroup_size(8, 8, 8) fn main]. *)
Definition main (gid : vec3u) (output : texture_storage_3d)
  : texture_storage_3d :=
  let '(gx, gy, gz) := gid in
  let resolution := u32 (resolution uniforms) in
  if ((resolution <=? gx) || (resolution <=? gy) || (resolution <=? gz))%Z
  then output
  else textureStore output gid (signed_distance gid).

End Bindings.

End Shader.

(** ** Core mesh data types, [src/mesh/types.ts] *)

Module Types.

Record Vec3 : Type := mkVec3 { x : R; y : R; z : R }.

Record BoundingBox : Type := mkBoundingBox { min : Vec3; max : Vec3 }.

(** [vertices] is a [Float32Array], [indices] a [Uint32Array]. *)
Record Mesh : Type := mkMesh {
  vertices : list R;
  indices : list Z;
  triangleCount : R;
  bounds : BoundingBox;
}.

(** The [for (let i = 3; i < vertices.length; i += 3)] loop of
    [computeBounds]; [rest] is [vertices] from index [i] on.  A read past
    the end of the array gives [undefined], [Math.min] and [Math.max] then
    give NaN: the box has a NaN component, written [None]. *)
Fixpoint bounds_loop (rest : list R) (min max : Vec3) : option (Vec3 * Vec3) :=
  match rest with
  | [] => Some (min, max)
  | x :: y :: z :: rest' =>
      bounds_loop rest'
        (mkVec3 (Rmin min.(Types.x) x) (Rmin min.(Types.y) y) (Rmin min.(Types.z) z))
        (mkVec3 (Rmax max.(Types.x) x) (Rmax max.(Types.y) y) (Rmax max.(Types.z) z))
  | _ => None
  end.

Definition computeBounds (vertices : list R) : option BoundingBox :=
  match vertices with
  | x0 :: y0 :: z0 :: rest =>
      let min := mkVec3 x0 y0 z0 in
      let max := min in
      '(min, max) ← bounds_loop rest min max;
      Some (mkBoundingBox min max)
  | _ => Some (mkBoundingBox (mkVec3 0 0 0) (mkVec3 0 0 0))
  end.

Definition boundsCenter (bounds : BoundingBox) : Vec3 :=
  mkVec3 ((x (min bounds) + x (max bounds)) / 2)
         ((y (min bounds) + y (max bounds)) / 2)
         ((z (min bounds) + z (max bounds)) / 2).

Definition boundsSize (bounds : BoundingBox) : Vec3 :=
  mkVec3 (x (max bounds) - x (min bounds))
         (y (max bounds) - y (min bounds))
         (z (max bounds) - z (min bounds)).

End Types.

(** ** The WebGPU device as seen by the driver *)

Module Gpu.

(** The contents of a buffer: a [Float32Array] or a [Uint32Array]. *)
Inductive BufferData : Type :=
  | F32Array (data : list R)
  | U32Array (data : list Z).

(** The calls the driver makes on the device, its queue and its encoders.
    [CreateBuffer] carries the label of the buffer.  [CreateShaderModule]
    is the call made by [createShaderModule] of [src/webgpu/context.ts];
    [CreateBindGroup] stands for [createBindGroup] and for the
    [getBindGroupLayout] and [createView] calls in its argument. *)
Inductive GpuCall : Type :=
  | CreateTexture
  | CreateBuffer (label : string)
  | CreateShaderModule
  | CreateComputePipeline
  | CreateBindGroup
  | CreateCommandEncoder
  | BeginComputePass
  | SetPipeline
  | SetBindGroup
  | DispatchWorkgroups
  | EndPass
  | Finish
  | Submit
  | OnSubmittedWorkDone.

(** The device is a collaborator of the driver: which of its calls throw,
    and in which order it runs the invocations of a dispatch, is its own
    business. *)
Record Backend : Type := mkBackend {
  throws : GpuCall -> bool;
  schedule : list (Z * Z * Z) -> list (Z * Z * Z);
}.

Record BindGroup : Type := mkBindGroup {
  binding0 : nat;   (* uniform buffer *)
  binding1 : nat;   (* vertex buffer *)
  binding2 : nat;   (* index buffer *)
  binding3 : nat;   (* output texture *)
}.

(** A recorded compute pass: the bind group and the workgroup counts. *)
Record Command : Type := mkCommand {
  cmd_bindings : BindGroup;
  cmd_workgroups : Z * Z * Z;
}.

(** The resources that are alive, with their contents, the next fresh
    handle and the submitted work that has not run yet. *)
Record GPUDevice : Type := mkDevice {
  textures : gmap nat (Z * gmap (Z * Z * Z) (option R));
  buffers : gmap nat BufferData;
  next_handle : nat;
  pending : list Command;
}.

Inductive outcome (A : Type) : Type :=
  | Return (a : A)
  | Throw (e : GpuCall).
Arguments Return {A} a.
Arguments Throw {A} e.

(** Computations on the device that return or throw. *)
Definition GPU (A : Type) : Type := GPUDevice -> GPUDevice * outcome A.

Definition ret {A : Type} (a : A) : GPU A := fun dev => (dev, Return a).

Definition bind {A B : Type} (m : GPU A) (k : A -> GPU B) : GPU B :=
  fun dev =>
    match m dev with
    | (dev', Return a) => k a dev'
    | (dev', Throw e) => (dev', Throw e)
    end.

Declare Scope gpu_scope.
Delimit Scope gpu_scope with gpu.
Notation "x <- m ;; k" := (bind m (fun x => k))
  (at level 100, m at next level, right associativity) : gpu_scope.
Notation "m ;; k" := (bind m (fun _ => k))
  (at level 100, right associativity) : gpu_scope.

Section Device.

Variable backend : Backend.

(** A call that has no effect on the resources; it may throw. *)
Definition call (c : GpuCall) : GPU unit :=
  fun dev => if throws backend c then (dev, Throw c) else (dev, Return tt).

(** [device.createTexture({size: [n, n, n], format: 'r32float', ...})]. *)
Definition createTexture (n : Z) : GPU nat :=
  fun dev =>
    if throws backend CreateTexture then (dev, Throw CreateTexture)
    else
      let h := next_handle dev in
      (mkDevice (<[h := (n, ∅)]> (textures dev)) (buffers dev) (S h) (pending dev),
       Return h).

(** [createBuffer] of [src/webgpu/context.ts]: one [device.createBuffer]
    call with [mappedAtCreation], which may throw, then the bytes of [data]
    are copied into the mapped range and the buffer is unmapped. *)
Definition createBuffer (data : BufferData) (label : string) : GPU nat :=
  fun dev =>
    if throws backend (CreateBuffer label) then (dev, Throw (CreateBuffer label))
    else
      let h := next_handle dev in
      (mkDevice (textures dev) (<[h := data]> (buffers dev)) (S h) (pending dev),
       Return h).

(** [buffer.destroy()]; it never throws. *)
Definition destroy (h : nat) : GPU unit :=
  fun dev =>
    (mkDevice (textures dev) (delete h (buffers dev)) (next_handle dev) (pending dev),
     Return tt).

(** The uniform buffer read as the [Uniforms] struct of the shader:
    [vec3f] members are aligned to 16 bytes. *)
Definition read_uniforms (data : list R) : option Shader.Uniforms :=
  match data with
  | [a0; a1; a2; a3; b0; b1; b2; b3; c0; c1; c2; c3] =>
      Some (Shader.mkUniforms (Wgsl.Vec3f a0 a1 a2) a3 (Wgsl.Vec3f b0 b1 b2) b3
                              c0 c1 c2 c3)
  | _ => None
  end.

(** The invocation ids of [dispatchWorkgroups(nx, ny, nz)] with
    [@workgroup_size(8, 8, 8)]. *)
Definition invocations (groups : Z * Z * Z) : list (Z * Z * Z) :=
  let '(nx, ny, nz) := groups in
  gz ← seqZ 0 (8 * nz); gy ← seqZ 0 (8 * ny); gx ← seqZ 0 (8 * nx);
  [(gx, gy, gz)].

(** One dispatch: every invocation runs [main] once, in the order the
    device chooses.  A binding that is not alive makes the pass invalid:
    nothing runs. *)
Definition run_command (cmd : Command) (dev : GPUDevice) : GPUDevice :=
  let bg := cmd_bindings cmd in
  match buffers dev !! binding0 bg, buffers dev !! binding1 bg,
        buffers dev !! binding2 bg, textures dev !! binding3 bg with
  | Some (F32Array udata), Some (F32Array vdata), Some (U32Array idata),
    Some (size, texels) =>
      match read_uniforms udata with
      | Some u =>
          let texels' :=
            fold_left (fun out gid => Shader.main u vdata idata gid out)
                      (schedule backend (invocations (cmd_workgroups cmd)))
                      texels in
          mkDevice (<[binding3 bg := (size, texels')]> (textures dev))
                   (buffers dev) (next_handle dev) (pending dev)
      | None => dev
      end
  | _, _, _, _ => dev
  end.

(** [queue.submit([commandEncoder.finish()])]. *)
Definition submit (cmd : Command) : GPU unit :=
  fun dev =>
    if throws backend Submit then (dev, Throw Submit)
    else (mkDevice (textures dev) (buffers dev) (next_handle dev)
                   (pending dev ++ [cmd]),
          Return tt).

(** The device after the submitted work has run, in submission order. *)
Definition run_pending (dev : GPUDevice) : GPUDevice :=
  fold_left (fun d cmd => run_command cmd d) (pending dev) dev.

(** [await queue.onSubmittedWorkDone()]: the submitted work has run. *)
Definition onSubmittedWorkDone : GPU unit :=
  fun dev =>
    if throws backend OnSubmittedWorkDone then (dev, Throw OnSubmittedWorkDone)
    else
      let dev' := run_pending dev in
      (mkDevice (textures dev') (buffers dev') (next_handle dev') [],
       Return tt).

End Device.

End Gpu.

(** ** The driver, [src/sdf/distance-field.ts] *)

Module Sdf.
Import Types Gpu.

Record DistanceFieldConfig : Type := mkConfig {
  resolution : Z;
  padding : R;
}.

(** [Partial<DistanceFieldConfig>]: every member is optional. *)
Record PartialConfig : Type := mkPartialConfig {
  resolution_opt : option Z;
  padding_opt : option R;
}.

Record DistanceField : Type := mkDistanceField {
  texture : nat;
  df_resolution : Z;
  df_bounds : BoundingBox;
  voxelSize : R;
}.

Definition DEFAULT_CONFIG : DistanceFieldConfig := mkConfig 64 0.1.

(** [{ ...DEFAULT_CONFIG, ...config }]. *)
Definition merge_config (config : PartialConfig) : DistanceFieldConfig :=
  mkConfig (default (resolution DEFAULT_CONFIG) (resolution_opt config))
           (default (padding DEFAULT_CONFIG) (padding_opt config)).

(** [Math.max(a, b, c)]. *)
Definition max3 (a b c : R) : R := Rmax (Rmax a b) c.

(** [Math.ceil(resolution / workgroupSize)] on integers. *)
Definition ceil_div (a b : Z) : Z := (- ((- a) / b))%Z.

Definition halfExtent_of (mesh : Mesh) (cfg : DistanceFieldConfig) : R :=
  let meshSize := boundsSize (bounds mesh) in
  let maxExtent := max3 (x meshSize) (y meshSize) (z meshSize) in
  (maxExtent * (1 + padding cfg)) / 2.

Definition volumeBounds_of (mesh : Mesh) (cfg : DistanceFieldConfig) : BoundingBox :=
  let meshCenter := boundsCenter (bounds mesh) in
  let halfExtent := halfExtent_of mesh cfg in
  mkBoundingBox
    (mkVec3 (x meshCenter - halfExtent) (y meshCenter - halfExtent)
            (z meshCenter - halfExtent))
    (mkVec3 (x meshCenter + halfExtent) (y meshCenter + halfExtent)
            (z meshCenter + halfExtent)).

Definition uniformData_of (mesh : Mesh) (cfg : DistanceFieldConfig) : list R :=
  let volumeBounds := volumeBounds_of mesh cfg in
  [ x (min volumeBounds); y (min volumeBounds); z (min volumeBounds); 0;
    x (max volumeBounds); y (max volumeBounds); z (max volumeBounds); 0;
    IZR (resolution cfg); triangleCount mesh; 0; 0 ].

Section Driver.

Variable backend : Backend.

Local Open Scope gpu_scope.

Definition computeDistanceField (mesh : Mesh) (config : PartialConfig)
  : GPU DistanceField :=
  let cfg := merge_config config in
  (* Calculate volume bounds with padding *)
  let halfExtent := halfExtent_of mesh cfg in
  let volumeBounds := volumeBounds_of mesh cfg in
  let voxelSize := (halfExtent * 2) / IZR (resolution cfg) in
  (* Create output 3D texture *)
  texture <- createTexture backend (resolution cfg) ;;
  (* Upload mesh data *)
  vertexBuffer <- createBuffer backend (F32Array (vertices mesh)) "Mesh Vertices" ;;
  indexBuffer <- createBuffer backend (U32Array (indices mesh)) "Mesh Indices" ;;
  (* Create uniform buffer with volume info *)
  let uniformData := uniformData_of mesh cfg in
  uniformBuffer <-
    createBuffer backend (F32Array uniformData) "Distance Field Uniforms" ;;
  (* Create compute pipeline *)
  call backend CreateShaderModule ;;
  call backend CreateComputePipeline ;;
  (* Create bind group *)
  call backend CreateBindGroup ;;
  let bindGroup := mkBindGroup uniformBuffer vertexBuffer indexBuffer texture in
  (* Dispatch compute shader *)
  call backend CreateCommandEncoder ;;
  call backend BeginComputePass ;;
  call backend SetPipeline ;;
  call backend SetBindGroup ;;
  let workgroupSize := 8%Z in
  let workgroupCount := ceil_div (resolution cfg) workgroupSize in
  call backend DispatchWorkgroups ;;
  call backend EndPass ;;
  call backend Finish ;;
  submit backend
    (mkCommand bindGroup (workgroupCount, workgroupCount, workgroupCount)) ;;
  (* Wait for GPU to finish *)
  onSubmittedWorkDone backend ;;
  (* Clean up temporary buffers *)
  destroy vertexBuffer ;;
  destroy indexBuffer ;;
  destroy uniformBuffer ;;
  ret (mkDistanceField texture (resolution cfg) volumeBounds voxelSize).

End Driver.

End Sdf.

(** ** The OBJ loader, [src/mesh/obj-loader.ts] *)

Module ObjLoader.
Import Types.

(** *** The string operations of the JavaScript library the loader uses.
    Strings are sequences of characters below 256. *)

(** The white space of [trim], of [\s] and of the number parsers. *)
Definition is_space (c : ascii) : bool :=
  let n := nat_of_ascii c in
  ((9 <=? n) && (n <=? 13) || (n =? 32) || (n =? 160))%nat.

(** [s.split(sep)] for a one-character separator. *)
Fixpoint split (sep : ascii) (s : string) : list string :=
  match s with
  | EmptyString => [EmptyString]
  | String c s' =>
      if Ascii.eqb c sep then EmptyString :: split sep s'
      else match split sep s' with
           | w :: ws => String c w :: ws
           | [] => [String c EmptyString]
           end
  end.

Fixpoint trimStart (s : string) : string :=
  match s with
  | EmptyString => EmptyString
  | String c s' => if is_space c then trimStart s' else s
  end.

Fixpoint trimEnd (s : string) : string :=
  match s with
  | EmptyString => EmptyString
  | String c s' =>
      match trimEnd s' with
      | EmptyString => if is_space c then EmptyString else String c EmptyString
      | t => String c t
      end
  end.

Definition trim (s : string) : string := trimEnd (trimStart s).

(** [s.split(/\s+/)]; [in_ws] tells that the previous character was
    white space. *)
Fixpoint split_ws_from (in_ws : bool) (s : string) : list string :=
  match s with
  | EmptyString => [EmptyString]
  | String c s' =>
      if is_space c then
        if in_ws then split_ws_from true s'
        else EmptyString :: split_ws_from true s'
      else match split_ws_from false s' with
           | w :: ws => String c w :: ws
           | [] => [String c EmptyString]
           end
  end.

Definition split_ws (s : string) : list string := split_ws_from false s.

Definition startsWith (s p : string) : bool := String.prefix p s.

Definition digit_of (c : ascii) : option Z :=
  let n := nat_of_ascii c in
  if ((48 <=? n) && (n <=? 57))%nat then Some (Z.of_nat (n - 48)) else None.

(** The longest prefix of decimal digits, as a number; [None] when there
    is no digit. *)
Fixpoint parse_digits (acc : option Z) (s : string) : option Z :=
  match s with
  | EmptyString => acc
  | String c s' =>
      match digit_of c with
      | Some d => parse_digits (Some (10 * default 0 acc + d)%Z) s'
      | None => acc
      end
  end.

(** [parseInt(s, 10)]; [None] is NaN. *)
Definition parseInt (s : string) : option Z :=
  match trimStart s with
  | String "-" s' => Z.opp <$> parse_digits None s'
  | String "+" s' => parse_digits None s'
  | s' => parse_digits None s'
  end.

(** *** The loader *)

(** [OBJParseError]: the message, with the values it quotes, and the line. *)
Inductive OBJParseError : Type :=
  | NoVerticesFound
  | NoFacesFound
  | VertexCoordinatesMissing (line : nat)
  | InvalidVertexCoordinates (line : nat)
  | FaceVerticesMissing (line : nat)
  | InvalidFaceVertexIndex (part : string) (line : nat)
  | FaceVertexIndexZero (line : nat)
  | FaceVertexIndexOutOfRange (index vertexCount : Z) (line : nat).

Inductive result (A : Type) : Type :=
  | Ok (a : A)
  | Err (e : OBJParseError).
Arguments Ok {A} a.
Arguments Err {A} e.

Definition rbind {A B : Type} (m : result A) (k : A -> result B) : result B :=
  match m with
  | Ok a => k a
  | Err e => Err e
  end.

Declare Scope obj_scope.
Delimit Scope obj_scope with obj.
Notation "x <- m ;; k" := (rbind m (fun x => k))
  (at level 100, m at next level, right associativity) : obj_scope.

Record ParsedOBJ : Type := mkParsedOBJ {
  parsed_vertices : list R;
  parsed_indices : list Z;
}.

Section Loader.

(** [parseFloat] of the JavaScript library; [None] is NaN. *)
Variable parseFloat : string -> option R.

Local Open Scope obj_scope.
Local Open Scope Z_scope.

Definition parseVertex (parts : list string) (vertices : list R) (lineNum : nat)
  : result (list R) :=
  if (length parts <? 4)%nat then Err (VertexCoordinatesMissing lineNum)
  else
    match parseFloat (nth 1 parts EmptyString),
          parseFloat (nth 2 parts EmptyString),
          parseFloat (nth 3 parts EmptyString) with
    | Some x, Some y, Some z => Ok (vertices ++ [x; y; z])
    | _, _, _ => Err (InvalidVertexCoordinates lineNum)
    end.

(** The first loop of [parseFace], over [parts[1..]]. *)
Fixpoint parseFaceIndices (parts : list string) (vertexCount : Z) (lineNum : nat)
    (faceIndices : list Z) : result (list Z) :=
  match parts with
  | [] => Ok faceIndices
  | part :: parts' =>
      let indexPart := nth 0 (split "/" part) EmptyString in
      match parseInt indexPart with
      | None => Err (InvalidFaceVertexIndex part lineNum)
      | Some index =>
          zeroBasedIndex <-
            (if 0 <? index then Ok (index - 1)
             else if index <? 0 then Ok (vertexCount + index)
             else Err (FaceVertexIndexZero lineNum)) ;;
          if (zeroBasedIndex <? 0) || (vertexCount <=? zeroBasedIndex)
          then Err (FaceVertexIndexOutOfRange index vertexCount lineNum)
          else parseFaceIndices parts' vertexCount lineNum
                                (faceIndices ++ [zeroBasedIndex])
      end
  end.

(** The second loop of [parseFace]: fan triangulation,
    [for (let i = 1; i < faceIndices.length - 1; i++)]. *)
Definition triangulate (faceIndices indices : list Z) : list Z :=
  fold_left
    (fun indices i =>
       indices ++ [nth 0 faceIndices 0; nth i faceIndices 0;
                   nth (i + 1) faceIndices 0])
    (seq 1 (length faceIndices - 2)) indices.

Definition parseFace (parts : list string) (indices : list Z) (vertexCount : Z)
    (lineNum : nat) : result (list Z) :=
  if (length parts <? 4)%nat then Err (FaceVerticesMissing lineNum)
  else
    faceIndices <- parseFaceIndices (tail parts) vertexCount lineNum [] ;;
    Ok (triangulate faceIndices indices).

(** One turn of the loop of [parseOBJContent].  [vertices.length / 3] is
    exact: [vertices] grows by three numbers at a time. *)
Definition parseLine (st : ParsedOBJ) (lineNum : nat) (text : string)
  : result ParsedOBJ :=
  let line := trim text in
  if (String.length line =? 0)%nat || startsWith line "#" then Ok st
  else
    let parts := split_ws line in
    let command := nth 0 parts EmptyString in
    if String.eqb command "v" then
      vertices <- parseVertex parts (parsed_vertices st) (lineNum + 1) ;;
      Ok (mkParsedOBJ vertices (parsed_indices st))
    else if String.eqb command "f" then
      indices <- parseFace parts (parsed_indices st)
                   (Z.of_nat (length (parsed_vertices st)) / 3) (lineNum + 1) ;;
      Ok (mkParsedOBJ (parsed_vertices st) indices)
    else Ok st.

Fixpoint parseLines (lines : list string) (lineNum : nat) (st : ParsedOBJ)
  : result ParsedOBJ :=
  match lines with
  | [] => Ok st
  | text :: lines' =>
      st' <- parseLine st lineNum text ;;
      parseLines lines' (S lineNum) st'
  end.

Definition parseOBJContent (content : string) : result ParsedOBJ :=
  parseLines (split "010" content) 0 (mkParsedOBJ [] []).

(** [new Uint32Array(a)]: every element modulo 2^32. *)
Definition Uint32Array (a : list Z) : list Z := (λ i, i mod 4294967296) <$> a.

(** [parseOBJ].  The vertex array it passes to [computeBounds] holds whole
    triples, so the bounds have no NaN component and the last branch is
    not taken. *)
Definition parseOBJ (objContent : string) : result Mesh :=
  parsed <- parseOBJContent objContent ;;
  if (length (parsed_vertices parsed) =? 0)%nat then Err NoVerticesFound
  else if (length (parsed_indices parsed) =? 0)%nat then Err NoFacesFound
  else
    (* new Float32Array(parsed.vertices): the same numbers *)
    let vertices := parsed_vertices parsed in
    let indices := Uint32Array (parsed_indices parsed) in
    match computeBounds vertices with
    | Some bounds =>
        Ok (mkMesh vertices indices (INR (length indices) / 3)%R bounds)
    | None => Err NoVerticesFound
    end.

End Loader.

(** A stand-in for [parseFloat] that reads decimal integer literals
    (on which it agrees with the library function), to run the loader. *)
Definition parseFloat_integers (s : string) : option R := IZR <$> parseInt s.

End ObjLoader.

(** ** Notions of the specification *)

Module Spec.
Import Wgsl.

(** The determinant of the 2x2 normal equations of a triangle. *)
Definition normal_equations_det (v0 v1 v2 : vec3f) : R :=
  let e0 := vsub v1 v0 in
  let e1 := vsub v2 v0 in
  dot e0 e0 * dot e1 e1 - dot e0 e1 * dot e0 e1.

(** The Euclidean distance of two points. *)
Definition euclid (p q : vec3f) : R :=
  sqrt ((vx p - vx q) * (vx p - vx q) + (vy p - vy q) * (vy p - vy q)
        + (vz p - vz q) * (vz p - vz q)).

(** The points of the filled triangle, and of a segment. *)
Definition in_triangle (v0 v1 v2 q : vec3f) : Prop :=
  exists a b : R, 0 <= a /\ 0 <= b /\ a + b <= 1 /\
    q = vadd (vadd v0 (vscale a (vsub v1 v0))) (vscale b (vsub v2 v0)).

Definition on_segment (a b q : vec3f) : Prop :=
  exists t : R, 0 <= t <= 1 /\ q = vadd a (vscale t (vsub b a)).

(** [d] is the least distance from [p] to a point of the set [S]. *)
Definition min_distance (S : vec3f -> Prop) (p : vec3f) (d : R) : Prop :=
  (exists q, S q /\ euclid p q = d) /\ (forall q, S q -> d <= euclid p q).

(** The centroid of a triangle. *)
Definition centroid (v0 v1 v2 : vec3f) : vec3f :=
  Vec3f ((vx v0 + vx v1 + vx v2) / 3) ((vy v0 + vy v1 + vy v2) / 3)
        ((vz v0 + vz v1 + vz v2) / 3).

(** [n] is the unit normal of the triangle: of length one, along
    [cross(v1 - v0, v2 - v0)]. *)
Definition unit_normal (v0 v1 v2 n : vec3f) : Prop :=
  dot n n = 1 /\
  exists k : R, 0 < k /\ cross (vsub v1 v0) (vsub v2 v0) = vscale k n.

End Spec.

Module GridSpec.
Import Wgsl Shader.

(** The unsigned distance from [p] to triangle [i] of the mesh. *)
Definition triangle_distance (vertices : list R) (indices : list Z)
    (p : vec3f) (i : Z) : option R :=
  '(t0, t1, t2) ← get_triangle vertices indices i;
  point_triangle_distance p t0 t1 t2.

(** The sign of [p] against triangle [i] of the mesh. *)
Definition triangle_sign (vertices : list R) (indices : list Z)
    (p : vec3f) (i : Z) : option R :=
  '(t0, t1, t2) ← get_triangle vertices indices i;
  compute_sign p t0 t1 t2.

(** Among the triangles [0 .. n-1], triangle [k] is at the least distance
    [d], and is the first one at that distance. *)
Definition first_closest (dist : Z -> option R) (n k : Z) (d : R) : Prop :=
  (0 <= k < n)%Z /\ dist k = Some d /\
  (forall j d', (0 <= j < n)%Z -> dist j = Some d' -> d <= d') /\
  (forall j d', (0 <= j < k)%Z -> dist j = Some d' -> d < d').

(** What the loop of [main] holds after the triangles [0 .. i-1]: the
    initial bound and triangle 0 while no triangle is below the bound,
    the first closest triangle and its distance afterwards. *)
Definition loop_invariant (dist : Z -> option R) (i : Z) (min_dist : R)
    (closest_tri : Z) : Prop :=
  (min_dist = 1e10 /\ closest_tri = 0%Z /\
   forall j d', (0 <= j < i)%Z -> dist j = Some d' -> 1e10 <= d')
  \/ (min_dist < 1e10 /\ first_closest dist i closest_tri min_dist).

(** The centre of voxel [(gx, gy, gz)] of the sampling volume. *)
Definition center_of_voxel (u : Uniforms) (gid : Z * Z * Z) : vec3f :=
  let '(gx, gy, gz) := gid in
  let lo := volume_min u in
  let hi := volume_max u in
  Vec3f (vx lo + (IZR gx + 0.5) * ((vx hi - vx lo) / resolution u))
        (vy lo + (IZR gy + 0.5) * ((vy hi - vy lo) / resolution u))
        (vz lo + (IZR gz + 0.5) * ((vz hi - vz lo) / resolution u)).

End GridSpec.

(** ** Sample data *)

Module Samples.
Import Wgsl Shader.

(** The triangle (0,0,0), (1,0,0), (0,1,0), sampled on a 2x2x2 grid over
    the cube from (0,0,-1/2) to (1,1,1/2). *)
Definition unit_uniforms : Uniforms :=
  mkUniforms (Vec3f 0 0 (-0.5)) 0 (Vec3f 1 1 0.5) 0 2 1 0 0.
Definition unit_vertices : list R := [0; 0; 0; 1; 0; 0; 0; 1; 0].
Definition unit_indices : list Z := [0; 1; 2]%Z.

(** Two small triangles far apart: the unit triangle in the plane z = 0
    and a smaller one in the plane z = 4e10, both facing up; a single
    voxel over their bounding cube padded by a tenth.  The centre of the
    voxel is (1/2, 1/2, 2e10).  The index array lists the near triangle
    first, or the far one first. *)
Definition distant_uniforms : Uniforms :=
  mkUniforms (Vec3f (0.5 - 2.2e10) (0.5 - 2.2e10) (-0.2e10)) 0
             (Vec3f (0.5 + 2.2e10) (0.5 + 2.2e10) 4.2e10) 0 1 2 0 0.
Definition distant_vertices : list R :=
  [0; 0; 0; 1; 0; 0; 0; 1; 0;
   0; 0; 4e10; 0.4; 0; 4e10; 0; 0.4; 4e10].
Definition near_first_indices : list Z := [0; 1; 2; 3; 4; 5]%Z.
Definition far_first_indices : list Z := [3; 4; 5; 0; 1; 2]%Z.

(** A triangle without area: three vertices on a line, sampled on a
    2x2x2 grid over their bounding cube padded by a tenth.  The centre of
    voxel (0,0,0) is (0.45, -0.55, -0.55). *)
Definition flat_uniforms : Uniforms :=
  mkUniforms (Vec3f (-0.1) (-1.1) (-1.1)) 0 (Vec3f 2.1 1.1 1.1) 0 2 1 0 0.
Definition flat_vertices : list R := [0; 0; 0; 1; 0; 0; 2; 0; 0].
Definition flat_indices : list Z := [0; 1; 2]%Z.

(** A small triangle in the plane z = 11/8 above a large one in the
    plane z = 0, both facing up, sampled on a 4x4x4 grid over their
    bounding cube without padding.  The centre of voxel (1,1,2) is
    (21/16, 21/16, 9/8): between the two planes, straight above the
    large triangle and beyond the first edge of the small one.  Every
    coordinate is a multiple of 1/16. *)
Definition edge_uniforms : Uniforms :=
  mkUniforms (Vec3f 0 0 (-17/16)) 0 (Vec3f (7/2) (7/2) (39/16)) 0 4 2 0 0.
Definition edge_vertices : list R :=
  [13/16; 37/16; 11/8;  29/16; 37/16; 11/8;  29/16; 53/16; 11/8;
   0; 0; 0;  7/2; 0; 0;  0; 7/2; 0].
Definition edge_indices : list Z := [0; 1; 2; 3; 4; 5]%Z.

(** Host-side samples: the unit triangle as a mesh, a mesh without
    vertices, a device with nothing alive, a device none of whose calls
    throws and one that fails to create the compute pipeline. *)
Definition unit_mesh : Types.Mesh :=
  Types.mkMesh unit_vertices unit_indices 1
    (Types.mkBoundingBox (Types.mkVec3 0 0 0) (Types.mkVec3 1 1 0)).

Definition empty_mesh : Types.Mesh :=
  Types.mkMesh [] [] 0
    (Types.mkBoundingBox (Types.mkVec3 0 0 0) (Types.mkVec3 0 0 0)).

Definition distant_mesh : Types.Mesh :=
  Types.mkMesh distant_vertices near_first_indices 2
    (Types.mkBoundingBox (Types.mkVec3 0 0 0) (Types.mkVec3 1 1 4e10)).

Definition flat_mesh : Types.Mesh :=
  Types.mkMesh flat_vertices flat_indices 1
    (Types.mkBoundingBox (Types.mkVec3 0 0 0) (Types.mkVec3 2 0 0)).

Definition edge_mesh : Types.Mesh :=
  Types.mkMesh edge_vertices edge_indices 2
    (Types.mkBoundingBox (Types.mkVec3 0 0 0) (Types.mkVec3 (7/2) (7/2) (11/8))).

Definition idle_device : Gpu.GPUDevice := Gpu.mkDevice ∅ ∅ 0 [].

Definition quiet_backend : Gpu.Backend := Gpu.mkBackend (fun _ => false) (fun l => l).

Definition reversing_backend : Gpu.Backend :=
  Gpu.mkBackend (fun _ => false) (@rev (Z * Z * Z)).

Definition no_pipeline_backend : Gpu.Backend :=
  Gpu.mkBackend
    (fun c => match c with Gpu.CreateComputePipeline => true | _ => false end)
    (fun l => l).

End Samples.

Module BoundsSpec.
Import Types.

(** Coordinate [a] (0, 1 or 2) of vertex [k] of a flat vertex array. *)
Definition coordinate (vertices : list R) (a k : nat) : option R :=
  vertices !! (3 * k + a)%nat.

(** [m] is the least, or the greatest, of the numbers [f 0 .. f (n-1)]. *)
Definition least_of (f : nat -> option R) (n : nat) (m : R) : Prop :=
  (exists k, (k < n)%nat /\ f k = Some m) /\
  (forall k v, (k < n)%nat -> f k = Some v -> m <= v).

Definition greatest_of (f : nat -> option R) (n : nat) (m : R) : Prop :=
  (exists k, (k < n)%nat /\ f k = Some m) /\
  (forall k v, (k < n)%nat -> f k = Some v -> v <= m).

Definition box_ordered (b : BoundingBox) : Prop :=
  x (min b) <= x (max b) /\ y (min b) <= y (max b) /\ z (min b) <= z (max b).

Definition zero_box : BoundingBox :=
  mkBoundingBox (mkVec3 0 0 0) (mkVec3 0 0 0).

(** Component [a] of a vector, and column [a] of a flat vertex array. *)
Definition component (a : nat) (v : Vec3) : R := nth a [x v; y v; z v] 0.

Fixpoint column (a : nat) (l : list R) : list R :=
  match l with
  | x :: y :: z :: l' => nth a [x; y; z] 0 :: column a l'
  | _ => []
  end.

End BoundsSpec.

Module DriverSpec.
Import Types Gpu Sdf.

(** [m] is the largest of [a], [b] and [c]. *)
Definition largest_of (m a b c : R) : Prop :=
  (m = a \/ m = b \/ m = c) /\ a <= m /\ b <= m /\ c <= m.

(** The midpoint of a box, and the cube of half-extent [h] around [c]. *)
Definition midpoint (b : BoundingBox) : Vec3 :=
  mkVec3 ((x (min b) + x (max b)) / 2) ((y (min b) + y (max b)) / 2)
         ((z (min b) + z (max b)) / 2).

Definition cube (c : Vec3) (h : R) : BoundingBox :=
  mkBoundingBox (mkVec3 (x c - h) (y c - h) (z c - h))
                (mkVec3 (x c + h) (y c + h) (z c + h)).

(** Box [inner] lies within box [outer]. *)
Definition box_within (inner outer : BoundingBox) : Prop :=
  x (min outer) <= x (min inner) /\ x (max inner) <= x (max outer) /\
  y (min outer) <= y (min inner) /\ y (max inner) <= y (max outer) /\
  z (min outer) <= z (min inner) /\ z (max inner) <= z (max outer).

(** The uniforms the shader reads for a mesh and a configuration. *)
Definition uniforms_of (mesh : Mesh) (cfg : DistanceFieldConfig)
  : Shader.Uniforms :=
  let volumeBounds := volumeBounds_of mesh cfg in
  Shader.mkUniforms
    (Wgsl.Vec3f (x (min volumeBounds)) (y (min volumeBounds))
                (z (min volumeBounds))) 0
    (Wgsl.Vec3f (x (max volumeBounds)) (y (max volumeBounds))
                (z (max volumeBounds))) 0
    (IZR (resolution cfg)) (triangleCount mesh) 0 0.

(** No resource is alive under a handle the device has not given out. *)
Definition handles_fresh (dev : GPUDevice) : Prop :=
  forall h, (next_handle dev <= h)%nat ->
    buffers dev !! h = None /\ textures dev !! h = None.

(** The texel [gid] of the texture under handle [h]. *)
Definition texel (dev : GPUDevice) (h : nat) (gid : Z * Z * Z)
  : option (option R) :=
  '(size, texels) ← textures dev !! h; texels !! gid.

(** The command the driver submits. *)
Definition command_of (cfg : DistanceFieldConfig) (dev : GPUDevice) : Command :=
  let h := next_handle dev in
  let n := ceil_div (resolution cfg) 8 in
  mkCommand (mkBindGroup (S (S (S h))) (S h) (S (S h)) h) (n, n, n).

(** The device once the driver has submitted its work: the texture and
    the three buffers are alive, the pass is queued. *)
Definition staged_device (mesh : Mesh) (cfg : DistanceFieldConfig)
    (dev : GPUDevice) : GPUDevice :=
  let h := next_handle dev in
  mkDevice
    (<[h := (resolution cfg, ∅)]> (textures dev))
    (<[S (S (S h)) := F32Array (uniformData_of mesh cfg)]>
       (<[S (S h) := U32Array (indices mesh)]>
          (<[S h := F32Array (vertices mesh)]> (buffers dev))))
    (S (S (S (S h))))
    (pending dev ++ [command_of cfg dev]).

(** The device when the driver returns. *)
Definition final_device (backend : Backend) (mesh : Mesh)
    (cfg : DistanceFieldConfig) (dev : GPUDevice) : GPUDevice :=
  let h := next_handle dev in
  let ran := run_pending backend (staged_device mesh cfg dev) in
  mkDevice (textures ran)
           (delete (S (S (S h))) (delete (S (S h)) (delete (S h) (buffers ran))))
           (next_handle ran) [].

(** The descriptor the driver returns. *)
Definition field_of (mesh : Mesh) (cfg : DistanceFieldConfig) (dev : GPUDevice)
  : DistanceField :=
  mkDistanceField (next_handle dev) (resolution cfg) (volumeBounds_of mesh cfg)
                  (halfExtent_of mesh cfg * 2 / IZR (resolution cfg)).

End DriverSpec.

Module ScheduleSpec.
Import Wgsl Shader.

(** The guard of [main] lets invocation [gid] through. *)
Definition in_grid (u : Uniforms) (gid : Z * Z * Z) : bool :=
  let '(gx, gy, gz) := gid in
  negb ((u32 (resolution u) <=? gx) || (u32 (resolution u) <=? gy)
        || (u32 (resolution u) <=? gz))%Z.

(** The texture after the invocations [sched] have run, in that order. *)
Definition run_schedule (u : Uniforms) (vertices : list R) (indices : list Z)
    (sched : list (Z * Z * Z)) (output : texture_storage_3d)
  : texture_storage_3d :=
  fold_left (fun out gid => main u vertices indices gid out) sched output.

(** A device runs every invocation of a dispatch, once each, in an order
    of its choice. *)
Definition fair_schedule (b : Gpu.Backend) : Prop :=
  forall l : list (Z * Z * Z), Gpu.schedule b l ≡ₚ l.

End ScheduleSpec.

Module MeshSpec.
Import Types ObjLoader.

(** The invariant of a mesh: whole vertices, whole triangles, the triangle
    count that goes with the index array, and every index below the
    number of vertices. *)
Definition mesh_invariant (mesh : Mesh) : Prop :=
  exists vertexCount count : nat,
    length (vertices mesh) = (3 * vertexCount)%nat /\
    length (indices mesh) = (3 * count)%nat /\
    triangleCount mesh = INR (length (indices mesh)) / 3 /\
    triangleCount mesh = INR count /\
    Forall (fun i => (0 <= i < Z.of_nat vertexCount)%Z) (indices mesh).

(** The same, of the arrays the loader is filling. *)
Definition parsed_invariant (st : ParsedOBJ) : Prop :=
  exists vertexCount count : nat,
    length (parsed_vertices st) = (3 * vertexCount)%nat /\
    length (parsed_indices st) = (3 * count)%nat /\
    Forall (fun i => (0 <= i < Z.of_nat vertexCount)%Z) (parsed_indices st).

(** A line feed, and the text of the repository's test of a quad. *)
Definition line_feed : string := String "010" EmptyString.

Definition quad_obj : string :=
  ("v 0 0 0" ++ line_feed ++ "v 1 0 0" ++ line_feed ++ "v 1 1 0" ++ line_feed
   ++ "v 0 1 0" ++ line_feed ++ "f 1 2 3 4" ++ line_feed)%string.

End MeshSpec.

(** ** Triangle access on the host, [src/mesh/types.ts] *)

Module Triangles.
Import Types.

Record Triangle : Type := mkTriangle { v0 : Vec3; v1 : Vec3; v2 : Vec3 }.

(** [a[i]] on a typed array: [undefined] out of range, written [None]. *)
Definition element {A : Type} (a : list A) (i : Z) : option A :=
  if (i <? 0)%Z then None else a !! Z.to_nat i.

(** [getTriangle].  A read out of range gives [undefined], and an
    undefined index gives undefined coordinates: the triangle has an
    undefined component, written [None]. *)
Definition getTriangle (mesh : Mesh) (triangleIndex : Z) : option Triangle :=
  i0 ← (λ i, i * 3)%Z <$> element (indices mesh) (triangleIndex * 3);
  i1 ← (λ i, i * 3)%Z <$> element (indices mesh) (triangleIndex * 3 + 1);
  i2 ← (λ i, i * 3)%Z <$> element (indices mesh) (triangleIndex * 3 + 2);
  x0 ← element (vertices mesh) i0;
  y0 ← element (vertices mesh) (i0 + 1);
  z0 ← element (vertices mesh) (i0 + 2);
  x1 ← element (vertices mesh) i1;
  y1 ← element (vertices mesh) (i1 + 1);
  z1 ← element (vertices mesh) (i1 + 2);
  x2 ← element (vertices mesh) i2;
  y2 ← element (vertices mesh) (i2 + 1);
  z2 ← element (vertices mesh) (i2 + 2);
  Some (mkTriangle (mkVec3 x0 y0 z0) (mkVec3 x1 y1 z1) (mkVec3 x2 y2 z2)).

(** A shader vector as a host vector. *)
Definition of_vec3f (v : Wgsl.vec3f) : Vec3 :=
  mkVec3 (Wgsl.vx v) (Wgsl.vy v) (Wgsl.vz v).

End Triangles.

(** ** Boxes put together *)

Module BoxSpec.
Import Types.

Definition lower (a b : Vec3) : Vec3 :=
  mkVec3 (Rmin (x a) (x b)) (Rmin (y a) (y b)) (Rmin (z a) (z b)).

Definition upper (a b : Vec3) : Vec3 :=
  mkVec3 (Rmax (x a) (x b)) (Rmax (y a) (y b)) (Rmax (z a) (z b)).

(** The least box that holds two boxes. *)
Definition join (a b : BoundingBox) : BoundingBox :=
  mkBoundingBox (lower (min a) (min b)) (upper (max a) (max b)).

(** The point [p] lies in the box [b]. *)
Definition inside (p : Vec3) (b : BoundingBox) : Prop :=
  x (min b) <= x p <= x (max b) /\ y (min b) <= y p <= y (max b)
  /\ z (min b) <= z p <= z (max b).

End BoxSpec.

(** ** Faces and lines of an OBJ text *)

Module FaceSpec.
Import Types ObjLoader.

(** The vertex a face entry such as [3], [3/1/2] or [-1] refers to, when
    there are [vertexCount] vertices so far: entries count from 1, and
    from the last vertex back when negative. *)
Definition resolve (vertexCount : Z) (part : string) : option Z :=
  index ← parseInt (nth 0 (split "/" part) EmptyString);
  if ((0 <? index) && (index <=? vertexCount))%Z then Some (index - 1)%Z
  else if ((index <? 0) && (- vertexCount <=? index))%Z
       then Some (vertexCount + index)%Z
       else None.

(** The fan of triangles of a polygon: (f0, f1, f2), (f0, f2, f3), ... *)
Definition fan (face : list Z) : list Z :=
  flat_map (fun i => [nth 0 face 0%Z; nth i face 0%Z; nth (i + 1) face 0%Z])
           (seq 1 (length face - 2)).



End FaceSpec.

(** * Properties *)

(** Decide the comparisons of a closed computation on reals. *)
Ltac absurd_R :=
  exfalso; unfold Wgsl.abs, Rabs in *; repeat destruct (Rcase_abs _); lra.

Ltac decide_R :=
  repeat match goal with
    | |- context [Rlt_dec ?a ?b] =>
        destruct (Rlt_dec a b); [ try absurd_R | try absurd_R ]
    | |- context [Rgt_dec ?a ?b] =>
        destruct (Rgt_dec a b); [ try absurd_R | try absurd_R ]
    | |- context [Req_dec_T ?a ?b] =>
        destruct (Req_dec_T a b); [ try absurd_R | try absurd_R ]
    end.

(** Unfold the vector operations of the kernel down to the coordinates. *)
Ltac unfold_kernel :=
  unfold Shader.point_triangle_distance, Wgsl.fdiv, Wgsl.length, Wgsl.sign,
    Wgsl.cross, Wgsl.dot, Wgsl.vadd, Wgsl.vsub, Wgsl.vscale, Wgsl.vdivc,
    Spec.centroid;
  cbn [Wgsl.vx Wgsl.vy Wgsl.vz].


(** ** The distance kernel *)

Section Kernel.
Import Wgsl Shader Spec.


Lemma length_nonneg (v : vec3f) : 0 <= length v.
Proof. apply sqrt_pos. Qed.

(** A square root is known from its square. *)
Lemma sqrt_of_square (a b : R) : 0 <= b -> b * b = a -> sqrt a = b.
Proof. intros Hb <-. now apply sqrt_square. Qed.

(** Lower bounds on a square root, from its argument. *)
Lemma le_sqrt (b a : R) : 0 <= b -> b * b <= a -> b <= sqrt a.
Proof.
  intros Hb Hab. rewrite <- (sqrt_square b Hb). apply sqrt_le_1; nra.
Qed.

Lemma lt_sqrt (b a : R) : 0 <= b -> b * b < a -> b < sqrt a.
Proof.
  intros Hb Hab. rewrite <- (sqrt_square b Hb). apply sqrt_lt_1; nra.
Qed.

Lemma fdiv_defined (a b : R) : b <> 0 -> fdiv a b = Some (a / b).
Proof. intros Hb. unfold fdiv. destruct (Req_dec_T b 0); [contradiction | reflexivity]. Qed.

(** The barycentric clamp of the shader, on its own. *)
Lemma clamp_defined (s t : R) :
  exists s' t' : R,
    (if Rgt_dec (s + t) 1
     then scale ← fdiv 1 (s + t); Some (s * scale, t * scale)
     else Some (s, t)) = Some (s', t').
Proof.
  destruct (Rgt_dec (s + t) 1) as [Hgt | _]; [| eauto].
  rewrite fdiv_defined by lra. simpl. eauto.
Qed.

(** The kernel divides by nothing that is zero: it has a value on every
    input. *)
Lemma point_triangle_distance_defined (p v0 v1 v2 : vec3f) :
  exists d : R, point_triangle_distance p v0 v1 v2 = Some d /\ 0 <= d.
Proof.
  unfold point_triangle_distance. cbv zeta.
  set (denom := _ - _ : R).
  destruct (Rlt_dec (abs denom) 1e-10) as [_ | Hbig].
  - eexists; split; [reflexivity | apply length_nonneg].
  - assert (Hd : denom <> 0).
    { intros E. apply Hbig. unfold abs. rewrite E, Rabs_R0. lra. }
    rewrite !fdiv_defined by exact Hd. cbn [mbind option_bind].
    match goal with
    | |- context [Rgt_dec (?s + ?t) 1] => destruct (clamp_defined s t) as (s' & t' & ->)
    end.
    cbn [mbind option_bind]. eexists; split; [reflexivity | apply length_nonneg].
Qed.

(** The fallback of the kernel: a triangle whose normal-equations
    determinant is below 1e-10 in magnitude is taken for its first
    vertex. *)
Lemma degenerate_triangle_distance_to_first_vertex (p v0 v1 v2 : vec3f) :
  Rabs (normal_equations_det v0 v1 v2) < 1e-10 ->
  point_triangle_distance p v0 v1 v2 = Some (euclid p v0).
Proof.
  intros Hdet. unfold point_triangle_distance. cbv zeta.
  fold (normal_equations_det v0 v1 v2). unfold abs.
  destruct (Rlt_dec _ _) as [_ | Hn]; [reflexivity | contradiction].
Qed.

(** An upper bound on a square root, from its argument. *)
Lemma sqrt_lt (a b : R) : 0 <= a -> 0 <= b -> a < b * b -> sqrt a < b.
Proof.
  intros Ha Hb Hab. rewrite <- (sqrt_square b Hb). apply sqrt_lt_1_alt. lra.
Qed.

End Kernel.

Section ClosestPoint.
Import Wgsl Shader Spec.

(** C2, at a point beyond an edge: for the triangle (0,0,0), (1,0,0),
    (1,1,0) and the sample point (1/2,-1,0), which lies straight below the
    edge from (0,0,0) to (1,0,0), the least distance to the filled triangle
    and to that edge is 1, and the kernel returns sqrt(5/4): the clamp has
    moved the closest point to the vertex (1,0,0). *)
Theorem clamp_misses_closest_point_beyond_edge :
  let p := Vec3f (1/2) (-1) 0 in
  let v0 := Vec3f 0 0 0 in
  let v1 := Vec3f 1 0 0 in
  let v2 := Vec3f 1 1 0 in
  1e-10 <= Rabs (normal_equations_det v0 v1 v2) /\
  point_triangle_distance p v0 v1 v2 = Some (sqrt (5/4)) /\
  min_distance (in_triangle v0 v1 v2) p 1 /\
  min_distance (on_segment v0 v1) p 1 /\
  1 < sqrt (5/4) /\
  ~ min_distance (in_triangle v0 v1 v2) p (sqrt (5/4)).
Proof.
  intros p v0 v1 v2.
  assert (Hlt : 1 < sqrt (5/4)).
  { apply lt_sqrt; lra. }
  assert (Hq : euclid p (Vec3f (1/2) 0 0) = 1).
  { unfold euclid, p. cbn [vx vy vz]. apply sqrt_of_square; lra. }
  assert (Htri : min_distance (in_triangle v0 v1 v2) p 1).
  { split.
    - exists (Vec3f (1/2) 0 0). split; [| exact Hq].
      exists (1/2), 0. repeat split; try lra.
      unfold v0, v1, v2, vadd, vscale, vsub. cbn [vx vy vz]. f_equal; lra.
    - intros q (a & b & Ha & Hb & Hab & ->).
      unfold euclid, p, v0, v1, v2, vadd, vscale, vsub. cbn [vx vy vz].
      apply le_sqrt; [lra |].
      pose proof (Rle_0_sqr (1 / 2 - (0 + a * (1 - 0) + b * (1 - 0)))) as Hsq.
      unfold Rsqr in Hsq. nra. }
  repeat split.
  - unfold normal_equations_det, v0, v1, v2, dot, vsub. cbn [vx vy vz].
    unfold Rabs. destruct (Rcase_abs _); lra.
  - unfold p, v0, v1, v2. unfold_kernel. decide_R.
    cbn [mbind option_bind]. decide_R.
    cbn [mbind option_bind fst snd]. do 2 f_equal. field.
  - exact (proj1 Htri).
  - exact (proj2 Htri).
  - exists (Vec3f (1/2) 0 0). split; [| exact Hq].
    exists (1/2). split; [lra |].
    unfold v0, v1, vadd, vscale, vsub. cbn [vx vy vz]. f_equal; lra.
  - intros q (t & Ht & ->).
    unfold euclid, p, v0, v1, vadd, vscale, vsub. cbn [vx vy vz].
    apply le_sqrt; [lra |].
    pose proof (Rle_0_sqr (1 / 2 - (0 + t * (1 - 0)))) as Hsq.
    unfold Rsqr in Hsq. nra.
  - exact Hlt.
  - intros [_ Hmin].
    specialize (Hmin (Vec3f (1/2) 0 0)).
    rewrite Hq in Hmin. 
    assert (in_triangle v0 v1 v2 (Vec3f (1/2) 0 0)).
    { exists (1/2), 0. repeat split; try lra.
      unfold v0, v1, v2, vadd, vscale, vsub. cbn [vx vy vz]. f_equal; lra. }
    specialize (Hmin H). lra.
Qed.

End ClosestPoint.

(** What does hold of the clamp: its point lies in the filled triangle, so
    the kernel never returns less than the true distance, and it returns
    the true distance when the plane projection of the sample point falls
    inside the triangle. *)
Section Projection.
Import Wgsl Shader Spec.

(** The point of barycentric coordinates [(s, t)]. *)
Local Abbreviation at_coordinates v0 v1 v2 s t :=
  (vadd (vadd v0 (vscale s (vsub v1 v0))) (vscale t (vsub v2 v0))).






End Projection.

(** ** The grid evaluator *)

Section Grid.
Import Wgsl Shader Spec GridSpec.

(** A float that converts to a positive integer is at least 1. *)
Lemma u32_pos (f : R) : (0 < u32 f)%Z -> 1 <= f.
Proof.
  unfold u32. intros H.
  assert (Hi : (1 <= Int_part f)%Z) by lia.
  destruct (base_Int_part f) as [Hle _].
  apply IZR_le in Hi. lra.
Qed.

Lemma u32_IZR (n : Z) : (0 <= n <= 4294967295)%Z -> u32 (IZR n) = n.
Proof.
  intros Hn. unfold u32.
  replace (Int_part (IZR n)) with n; [lia |].
  apply Int_part_spec. lra.
Qed.

Lemma voxel_center_defined (u : Uniforms) (gid : Z * Z * Z) :
  resolution u <> 0 -> voxel_center u gid = Some (center_of_voxel u gid).
Proof.
  intros Hres. unfold voxel_center, vdivs.
  destruct (Req_dec_T (resolution u) 0) as [E | _]; [contradiction |].
  destruct gid as [[gx gy] gz]. reflexivity.
Qed.

Section Loop.

Variable vertices : list R.
Variable indices : list Z.
Variable p : vec3f.

Local Abbreviation dist := (triangle_distance vertices indices p).
Local Abbreviation loop_invariant := (loop_invariant dist).

Lemma closest_step_distance (min_dist : R) (closest_tri i : Z) (d : R) :
  dist i = Some d ->
  closest_step vertices indices p (Some (min_dist, closest_tri)) i
  = Some (if Rlt_dec d min_dist then (d, i) else (min_dist, closest_tri)).
Proof.
  unfold triangle_distance, closest_step. cbn [mbind option_bind].
  destruct (get_triangle vertices indices i) as [[[t0 t1] t2] |]; [| discriminate].
  cbn [mbind option_bind]. intros ->. reflexivity.
Qed.

Lemma loop_invariant_step (i : Z) (min_dist : R) (closest_tri : Z) (d : R) :
  (0 <= i)%Z -> dist i = Some d ->
  loop_invariant i min_dist closest_tri ->
  let acc := if Rlt_dec d min_dist then (d, i) else (min_dist, closest_tri) in
  loop_invariant (i + 1) (fst acc) (snd acc).
Proof.
  intros Hi Hd Hinv. cbv zeta.
  destruct (Rlt_dec d min_dist) as [Hlt | Hge]; cbn [fst snd].
  - right. destruct Hinv as [(-> & -> & Hall) | (Hm & Hk & Hdk & Hmin & Hfirst)].
    + split; [exact Hlt |]. repeat split; try lia; try exact Hd.
      * intros j d' Hj Hdj. destruct (decide (j = i)) as [-> | Hne].
        -- rewrite Hd in Hdj. injection Hdj as <-. lra.
        -- assert (1e10 <= d') by (apply (Hall j); [lia | exact Hdj]). lra.
      * intros j d' Hj Hdj.
        assert (1e10 <= d') by (apply (Hall j); [lia | exact Hdj]). lra.
    + split; [lra |]. repeat split; try lia; try exact Hd.
      * intros j d' Hj Hdj. destruct (decide (j = i)) as [-> | Hne].
        -- rewrite Hd in Hdj. injection Hdj as <-. lra.
        -- assert (min_dist <= d') by (apply (Hmin j); [lia | exact Hdj]). lra.
      * intros j d' Hj Hdj.
        assert (min_dist <= d') by (apply (Hmin j); [lia | exact Hdj]). lra.
  - destruct Hinv as [(-> & -> & Hall) | (Hm & Hk & Hdk & Hmin & Hfirst)].
    + left. repeat split. intros j d' Hj Hdj.
      destruct (decide (j = i)) as [-> | Hne].
      * rewrite Hd in Hdj. injection Hdj as <-. lra.
      * apply (Hall j); [lia | exact Hdj].
    + right. split; [exact Hm |]. repeat split; try lia; try exact Hdk.
      * intros j d' Hj Hdj. destruct (decide (j = i)) as [-> | Hne].
        -- rewrite Hd in Hdj. injection Hdj as <-. lra.
        -- apply (Hmin j); [lia | exact Hdj].
      * exact Hfirst.
Qed.

(** The loop runs to its end when every triangle can be read, and the
    invariant holds of its result. *)
Lemma closest_loop_invariant (n : nat) :
  (forall j, (0 <= j < Z.of_nat n)%Z -> is_Some (get_triangle vertices indices j)) ->
  exists min_dist closest_tri,
    closest_loop vertices indices p (Z.of_nat n) = Some (min_dist, closest_tri)
    /\ loop_invariant (Z.of_nat n) min_dist closest_tri.
Proof.
  unfold closest_loop. induction n as [| n IH]; intros Hread.
  - exists 1e10, 0%Z. split; [reflexivity |].
    left. repeat split. intros j d' Hj. lia.
  - destruct IH as (m & k & Hloop & Hinv).
    { intros j Hj. apply Hread. lia. }
    rewrite seqZ_S, fold_left_app, Hloop. cbn [fold_left]. rewrite Z.add_0_l.
    assert (Hd : exists d, dist (Z.of_nat n) = Some d).
    { unfold triangle_distance.
      destruct (Hread (Z.of_nat n)) as [[[t0 t1] t2] ->]; [lia |].
      cbn [mbind option_bind].
      destruct (point_triangle_distance_defined p t0 t1 t2) as (d & -> & _).
      eauto. }
    destruct Hd as [d Hd].
    rewrite (closest_step_distance _ _ _ _ Hd).
    pose proof (loop_invariant_step _ _ _ _ (Nat2Z.is_nonneg n) Hd Hinv) as Hstep.
    cbv zeta in Hstep.
    destruct (Rlt_dec d m); cbn [fst snd] in Hstep;
      eexists _, _; (split; [reflexivity |]);
      replace (Z.of_nat (S n)) with (Z.of_nat n + 1)%Z by lia; exact Hstep.
Qed.

Lemma first_closest_unique (n k k' : Z) (d d' : R) :
  first_closest dist n k d -> first_closest dist n k' d' -> k = k' /\ d = d'.
Proof.
  intros (Hk & Hdk & Hmin & Hfirst) (Hk' & Hdk' & Hmin' & Hfirst').
  assert (Hle : d <= d') by (apply (Hmin k'); assumption).
  assert (Hle' : d' <= d) by (apply (Hmin' k); assumption).
  assert (E : d = d') by lra. split; [| exact E].
  destruct (Z.lt_trichotomy k k') as [Hlt | [Heq | Hgt]]; [| exact Heq |].
  - assert (d' < d) by (apply (Hfirst' k); [lia | exact Hdk]). lra.
  - assert (d < d') by (apply (Hfirst k'); [lia | exact Hdk']). lra.
Qed.

(** The result of the loop when some triangle is below the initial bound. *)
Lemma closest_loop_first_closest (n k : Z) (d : R) :
  (forall j, (0 <= j < n)%Z -> is_Some (get_triangle vertices indices j)) ->
  first_closest dist n k d -> d < 1e10 ->
  closest_loop vertices indices p n = Some (d, k).
Proof.
  intros Hread Hfc Hd.
  assert (Hn : (0 <= n)%Z) by (destruct Hfc as [? _]; lia).
  rewrite <- (Z2Nat.id n Hn) in Hread, Hfc |- *.
  destruct (closest_loop_invariant _ Hread) as (m & c & -> & Hinv).
  destruct Hinv as [(-> & -> & Hall) | (Hm & Hfc')].
  - destruct Hfc as (Hk & Hdk & _).
    assert (1e10 <= d) by (apply (Hall k); assumption). lra.
  - destruct (first_closest_unique _ _ _ _ _ Hfc' Hfc) as [-> ->]. reflexivity.
Qed.

(** The result of the loop when no triangle is below the initial bound. *)
Lemma closest_loop_bound (n : Z) :
  (forall j, (0 <= j < n)%Z -> is_Some (get_triangle vertices indices j)) ->
  (forall j d', (0 <= j < n)%Z -> dist j = Some d' -> 1e10 <= d') ->
  closest_loop vertices indices p n = Some (1e10, 0%Z).
Proof.
  intros Hread Hfar.
  destruct (Z.le_gt_cases 0 n) as [Hn | Hn].
  2:{ unfold closest_loop. rewrite seqZ_nil by lia. reflexivity. }
  rewrite <- (Z2Nat.id n Hn) in Hread, Hfar |- *.
  destruct (closest_loop_invariant _ Hread) as (m & c & -> & Hinv).
  destruct Hinv as [(-> & -> & _) | (Hm & Hk & Hdk & _)]; [reflexivity |].
  assert (1e10 <= m) by (apply (Hfar c); assumption). lra.
Qed.

End Loop.

End Grid.

Section Sign.
Import Wgsl Shader Spec GridSpec.

Lemma normalize_scaled (k : R) (n : vec3f) :
  0 < k -> dot n n = 1 -> normalize (vscale k n) = Some n.
Proof.
  intros Hk Hn. unfold normalize.
  assert (Hlen : length (vscale k n) = k).
  { unfold length. apply sqrt_of_square; [lra |].
    unfold dot, vscale in *. cbn [vx vy vz] in *. nra. }
  rewrite Hlen. unfold vdivs.
  destruct (Req_dec_T k 0) as [E | _]; [lra |].
  destruct n as [nx ny nz]. unfold vscale. cbn [vx vy vz].
  f_equal. f_equal; field; lra.
Qed.

(** The sign computed against a triangle that has a unit normal. *)
Lemma compute_sign_unit_normal (p v0 v1 v2 n : vec3f) :
  unit_normal v0 v1 v2 n ->
  compute_sign p v0 v1 v2 = Some (sign (dot n (vsub p (centroid v0 v1 v2)))).
Proof.
  intros (Hn & k & Hk & Hcross).
  unfold compute_sign, triangle_normal.
  rewrite Hcross, (normalize_scaled k n Hk Hn). reflexivity.
Qed.

(** A zero vector has no direction: the normal of a triangle without area
    is indeterminate, and so is the sign. *)
Lemma compute_sign_zero_area (p v0 v1 v2 : vec3f) :
  cross (vsub v1 v0) (vsub v2 v0) = Vec3f 0 0 0 ->
  compute_sign p v0 v1 v2 = None.
Proof.
  intros Hcross. unfold compute_sign, triangle_normal, normalize.
  rewrite Hcross. unfold vdivs, length, dot. cbn [vx vy vz].
  replace (0 * 0 + 0 * 0 + 0 * 0) with 0 by ring. rewrite sqrt_0.
  destruct (Req_dec_T 0 0) as [_ | Hne]; [reflexivity | contradiction].
Qed.

(** What [main] stores, from the result of its loop. *)
Lemma main_in_range (u : Uniforms) (vertices : list R) (indices : list Z)
    (gx gy gz : Z) (output : texture_storage_3d) :
  (0 <= gx < u32 (resolution u))%Z ->
  (0 <= gy < u32 (resolution u))%Z ->
  (0 <= gz < u32 (resolution u))%Z ->
  main u vertices indices (gx, gy, gz) output
  = <[(gx, gy, gz) :=
        '(min_dist, closest_tri) ←
           closest_loop vertices indices (center_of_voxel u (gx, gy, gz))
                        (u32 (triangle_count u));
        s ← triangle_sign vertices indices (center_of_voxel u (gx, gy, gz))
                          closest_tri;
        Some (s * min_dist)]> output.
Proof.
  intros Hx Hy Hz. unfold main.
  destruct (u32 (resolution u) <=? gx)%Z eqn:Ex; [lia |].
  destruct (u32 (resolution u) <=? gy)%Z eqn:Ey; [lia |].
  destruct (u32 (resolution u) <=? gz)%Z eqn:Ez; [lia |].
  cbn [orb]. unfold textureStore. f_equal.
  unfold signed_distance.
  rewrite voxel_center_defined.
  2:{ assert (1 <= resolution u) by (apply u32_pos; lia). lra. }
  cbn [mbind option_bind].
  destruct (closest_loop _ _ _ _) as [[m k] |]; [| reflexivity].
  cbn [mbind option_bind]. unfold triangle_sign.
  destruct (get_triangle vertices indices k) as [[[t0 t1] t2] |]; reflexivity.
Qed.

Lemma main_out_of_range (u : Uniforms) (vertices : list R) (indices : list Z)
    (gx gy gz : Z) (output : texture_storage_3d) :
  (u32 (resolution u) <= gx \/ u32 (resolution u) <= gy
   \/ u32 (resolution u) <= gz)%Z ->
  main u vertices indices (gx, gy, gz) output = output.
Proof.
  intros H. unfold main.
  destruct (u32 (resolution u) <=? gx)%Z eqn:Ex; [reflexivity |].
  destruct (u32 (resolution u) <=? gy)%Z eqn:Ey; [reflexivity |].
  destruct (u32 (resolution u) <=? gz)%Z eqn:Ez; [reflexivity |].
  lia.
Qed.

End Sign.

Section Voxels.
Import Wgsl Shader Spec GridSpec Samples.

(** Evaluate the distance and the sign at a sample point whose projection
    on the plane of the triangle falls inside the triangle. *)
Ltac eval_distance Hcenter Hread :=
  unfold triangle_distance; rewrite Hcenter, Hread; cbn [mbind option_bind];
  unfold_kernel; decide_R; cbn [mbind option_bind]; decide_R;
  cbn [mbind option_bind fst snd];
  f_equal; apply sqrt_of_square; lra.

(** The same, at a sample point whose projection falls beyond the
    triangle: the clamp and the rescaling are at work, and the square of
    the distance is left under its root. *)
Ltac eval_clamped_distance Hcenter Hread :=
  unfold triangle_distance; rewrite Hcenter, Hread; cbn [mbind option_bind];
  unfold_kernel; decide_R; cbn [mbind option_bind]; decide_R;
  cbn [mbind option_bind fst snd]; decide_R;
  cbn [mbind option_bind fst snd];
  do 2 f_equal; lra.

Ltac eval_sign Hcenter Hread Hnormal :=
  unfold triangle_sign; rewrite Hcenter, Hread; cbn [mbind option_bind];
  rewrite (compute_sign_unit_normal _ _ _ _ _ Hnormal);
  unfold_kernel; decide_R; reflexivity.

Ltac prove_unit_normal k :=
  split; [unfold dot; cbn [vx vy vz]; lra |];
  exists k; split; [lra |];
  unfold cross, vsub, vscale; cbn [vx vy vz]; f_equal; lra.

Ltac eval_center :=
  unfold center_of_voxel, unit_uniforms, distant_uniforms, flat_uniforms,
    edge_uniforms;
  cbn [volume_min volume_max resolution vx vy vz];
  f_equal; lra.

Lemma unit_center :
  center_of_voxel unit_uniforms (0, 0, 0)%Z = Vec3f (1/4) (1/4) (-1/4).
Proof. eval_center. Qed.

Lemma unit_triangle_read :
  get_triangle unit_vertices unit_indices 0
  = Some (Vec3f 0 0 0, Vec3f 1 0 0, Vec3f 0 1 0).
Proof. reflexivity. Qed.

Lemma unit_triangle_distance :
  triangle_distance unit_vertices unit_indices
    (center_of_voxel unit_uniforms (0, 0, 0)%Z) 0 = Some (1/4).
Proof. eval_distance unit_center unit_triangle_read. Qed.

Lemma unit_triangle_normal :
  unit_normal (Vec3f 0 0 0) (Vec3f 1 0 0) (Vec3f 0 1 0) (Vec3f 0 0 1).
Proof. prove_unit_normal 1. Qed.

Lemma unit_triangle_sign :
  triangle_sign unit_vertices unit_indices
    (center_of_voxel unit_uniforms (0, 0, 0)%Z) 0 = Some (-1).
Proof. eval_sign unit_center unit_triangle_read unit_triangle_normal. Qed.

Lemma distant_center :
  center_of_voxel distant_uniforms (0, 0, 0)%Z = Vec3f 0.5 0.5 2e10.
Proof. eval_center. Qed.

Lemma near_first_triangle0_read :
  get_triangle distant_vertices near_first_indices 0
  = Some (Vec3f 0 0 0, Vec3f 1 0 0, Vec3f 0 1 0).
Proof. reflexivity. Qed.

Lemma near_first_triangle1_read :
  get_triangle distant_vertices near_first_indices 1
  = Some (Vec3f 0 0 4e10, Vec3f 0.4 0 4e10, Vec3f 0 0.4 4e10).
Proof. reflexivity. Qed.

Lemma far_first_triangle0_read :
  get_triangle distant_vertices far_first_indices 0
  = Some (Vec3f 0 0 4e10, Vec3f 0.4 0 4e10, Vec3f 0 0.4 4e10).
Proof. reflexivity. Qed.

Lemma far_first_triangle1_read :
  get_triangle distant_vertices far_first_indices 1
  = Some (Vec3f 0 0 0, Vec3f 1 0 0, Vec3f 0 1 0).
Proof. reflexivity. Qed.

(** The near triangle is at 2e10 from the centre of the voxel, the far one
    a little farther. *)
Lemma near_triangle_distance (indices : list Z) (i : Z) :
  get_triangle distant_vertices indices i
  = Some (Vec3f 0 0 0, Vec3f 1 0 0, Vec3f 0 1 0) ->
  triangle_distance distant_vertices indices
    (center_of_voxel distant_uniforms (0, 0, 0)%Z) i = Some 2e10.
Proof. intros Hread. eval_distance distant_center Hread. Qed.

Lemma far_triangle_distance (indices : list Z) (i : Z) :
  get_triangle distant_vertices indices i
  = Some (Vec3f 0 0 4e10, Vec3f 0.4 0 4e10, Vec3f 0 0.4 4e10) ->
  triangle_distance distant_vertices indices
    (center_of_voxel distant_uniforms (0, 0, 0)%Z) i
  = Some (sqrt (0.3 * 0.3 + 0.3 * 0.3 + 2e10 * 2e10)).
Proof. intros Hread. eval_clamped_distance distant_center Hread. Qed.

Lemma far_triangle_farther : 2e10 < sqrt (0.3 * 0.3 + 0.3 * 0.3 + 2e10 * 2e10).
Proof. apply lt_sqrt; lra. Qed.

Lemma near_triangle_normal :
  unit_normal (Vec3f 0 0 0) (Vec3f 1 0 0) (Vec3f 0 1 0) (Vec3f 0 0 1).
Proof. prove_unit_normal 1. Qed.

Lemma far_triangle_normal :
  unit_normal (Vec3f 0 0 4e10) (Vec3f 0.4 0 4e10) (Vec3f 0 0.4 4e10)
              (Vec3f 0 0 1).
Proof. prove_unit_normal 0.16. Qed.

(** The centre of the voxel is above the near triangle, below the far one. *)
Lemma near_triangle_sign (indices : list Z) (i : Z) :
  get_triangle distant_vertices indices i
  = Some (Vec3f 0 0 0, Vec3f 1 0 0, Vec3f 0 1 0) ->
  triangle_sign distant_vertices indices
    (center_of_voxel distant_uniforms (0, 0, 0)%Z) i = Some 1.
Proof. intros Hread. eval_sign distant_center Hread near_triangle_normal. Qed.

Lemma far_triangle_sign (indices : list Z) (i : Z) :
  get_triangle distant_vertices indices i
  = Some (Vec3f 0 0 4e10, Vec3f 0.4 0 4e10, Vec3f 0 0.4 4e10) ->
  triangle_sign distant_vertices indices
    (center_of_voxel distant_uniforms (0, 0, 0)%Z) i = Some (-1).
Proof. intros Hread. eval_sign distant_center Hread far_triangle_normal. Qed.

(** Every triangle of the samples can be read. *)
Lemma unit_readable (j : Z) :
  (0 <= j < 1)%Z -> is_Some (get_triangle unit_vertices unit_indices j).
Proof. intros Hj. replace j with 0%Z by lia. rewrite unit_triangle_read. eauto. Qed.

Lemma near_first_readable (j : Z) :
  (0 <= j < 2)%Z -> is_Some (get_triangle distant_vertices near_first_indices j).
Proof.
  intros Hj. assert (j = 0 \/ j = 1)%Z as [-> | ->] by lia.
  - rewrite near_first_triangle0_read. eauto.
  - rewrite near_first_triangle1_read. eauto.
Qed.

Lemma far_first_readable (j : Z) :
  (0 <= j < 2)%Z -> is_Some (get_triangle distant_vertices far_first_indices j).
Proof.
  intros Hj. assert (j = 0 \/ j = 1)%Z as [-> | ->] by lia.
  - rewrite far_first_triangle0_read. eauto.
  - rewrite far_first_triangle1_read. eauto.
Qed.

Lemma first_closest_single (dist : Z -> option R) (d : R) :
  dist 0%Z = Some d -> first_closest dist 1 0 d.
Proof.
  intros Hd. split; [lia |]. split; [exact Hd |]. split.
  - intros j d' Hj. replace j with 0%Z by lia. rewrite Hd. intros [= <-]. lra.
  - intros j d' Hj. lia.
Qed.

Lemma u32_1 : u32 1 = 1%Z.
Proof. apply (u32_IZR 1). lia. Qed.

Lemma u32_2 : u32 2 = 2%Z.
Proof. apply (u32_IZR 2). lia. Qed.

Lemma unit_first_closest :
  first_closest
    (triangle_distance unit_vertices unit_indices
       (center_of_voxel unit_uniforms (0, 0, 0)%Z))
    (u32 (triangle_count unit_uniforms)) 0 (1/4).
Proof.
  cbn [triangle_count unit_uniforms]. rewrite u32_1.
  apply first_closest_single, unit_triangle_distance.
Qed.

Lemma u32_4 : u32 4 = 4%Z.
Proof. apply (u32_IZR 4). lia. Qed.

(** *** The two triangles one above the other *)

Lemma edge_center :
  center_of_voxel edge_uniforms (1, 1, 2)%Z = Vec3f (21/16) (21/16) (9/8).
Proof. eval_center. Qed.

Lemma edge_triangle0_read :
  get_triangle edge_vertices edge_indices 0
  = Some (Vec3f (13/16) (37/16) (11/8), Vec3f (29/16) (37/16) (11/8),
          Vec3f (29/16) (53/16) (11/8)).
Proof. reflexivity. Qed.

Lemma edge_triangle1_read :
  get_triangle edge_vertices edge_indices 1
  = Some (Vec3f 0 0 0, Vec3f (7/2) 0 0, Vec3f 0 (7/2) 0).
Proof. reflexivity. Qed.

(** For the small triangle the clamp ends on the vertex
    (29/16, 37/16, 11/8); the large one is straight below. *)
Lemma edge_triangle0_distance :
  triangle_distance edge_vertices edge_indices
    (center_of_voxel edge_uniforms (1, 1, 2)%Z) 0 = Some (sqrt (21/16)).
Proof. eval_clamped_distance edge_center edge_triangle0_read. Qed.

Lemma edge_triangle1_distance :
  triangle_distance edge_vertices edge_indices
    (center_of_voxel edge_uniforms (1, 1, 2)%Z) 1 = Some (9/8).
Proof. eval_distance edge_center edge_triangle1_read. Qed.

Lemma edge_triangle0_normal :
  unit_normal (Vec3f (13/16) (37/16) (11/8)) (Vec3f (29/16) (37/16) (11/8))
              (Vec3f (29/16) (53/16) (11/8)) (Vec3f 0 0 1).
Proof. prove_unit_normal 1. Qed.

Lemma edge_triangle1_normal :
  unit_normal (Vec3f 0 0 0) (Vec3f (7/2) 0 0) (Vec3f 0 (7/2) 0) (Vec3f 0 0 1).
Proof. prove_unit_normal (49/4). Qed.

Lemma edge_triangle0_sign :
  triangle_sign edge_vertices edge_indices
    (center_of_voxel edge_uniforms (1, 1, 2)%Z) 0 = Some (-1).
Proof. eval_sign edge_center edge_triangle0_read edge_triangle0_normal. Qed.

Lemma edge_triangle1_sign :
  triangle_sign edge_vertices edge_indices
    (center_of_voxel edge_uniforms (1, 1, 2)%Z) 1 = Some 1.
Proof. eval_sign edge_center edge_triangle1_read edge_triangle1_normal. Qed.

Lemma edge_readable (j : Z) :
  (0 <= j < 2)%Z -> is_Some (get_triangle edge_vertices edge_indices j).
Proof.
  intros Hj. assert (j = 0 \/ j = 1)%Z as [-> | ->] by lia.
  - rewrite edge_triangle0_read. eauto.
  - rewrite edge_triangle1_read. eauto.
Qed.

Lemma edge_kernel_order : 9/8 < sqrt (21/16).
Proof. apply lt_sqrt; lra. Qed.

(** By the values of the kernel the large triangle, listed second, is the
    closest. *)
Lemma edge_first_closest :
  first_closest
    (triangle_distance edge_vertices edge_indices
       (center_of_voxel edge_uniforms (1, 1, 2)%Z))
    (u32 (triangle_count edge_uniforms)) 1 (9/8).
Proof.
  cbn [triangle_count edge_uniforms]. rewrite u32_2.
  pose proof edge_kernel_order as Horder.
  split; [lia |]. split; [exact edge_triangle1_distance |]. split.
  - intros j d' Hj. assert (j = 0 \/ j = 1)%Z as [-> | ->] by lia.
    + rewrite edge_triangle0_distance. intros [= <-]. lra.
    + rewrite edge_triangle1_distance. intros [= <-]. lra.
  - intros j d' Hj. replace j with 0%Z by lia.
    rewrite edge_triangle0_distance. intros [= <-]. lra.
Qed.

(** The least distances from the centre of the voxel to the two filled
    triangles: the small one is the nearer. *)
Lemma edge_triangle0_least_distance :
  min_distance
    (in_triangle (Vec3f (13/16) (37/16) (11/8)) (Vec3f (29/16) (37/16) (11/8))
                 (Vec3f (29/16) (53/16) (11/8)))
    (Vec3f (21/16) (21/16) (9/8)) (sqrt (17/16)).
Proof.
  split.
  - exists (Vec3f (21/16) (37/16) (11/8)). split.
    + exists 0.5, 0. split; [lra |]. split; [lra |]. split; [lra |].
      unfold vadd, vscale, vsub. cbn [vx vy vz]. f_equal; lra.
    + unfold euclid. cbn [vx vy vz]. f_equal. lra.
  - intros q (a & b & Ha & Hb & Hab & ->).
    unfold euclid, vadd, vscale, vsub. cbn [vx vy vz].
    apply sqrt_le_1_alt.
    pose proof (Rle_0_sqr ((21/16) - ((13/16) + a * ((29/16) - (13/16))
                                     + b * ((29/16) - (13/16))))) as Hsq.
    unfold Rsqr in Hsq. nra.
Qed.

Lemma edge_triangle1_least_distance :
  min_distance (in_triangle (Vec3f 0 0 0) (Vec3f (7/2) 0 0) (Vec3f 0 (7/2) 0))
               (Vec3f (21/16) (21/16) (9/8)) (9/8).
Proof.
  split.
  - exists (Vec3f (21/16) (21/16) 0). split.
    + exists (3/8), (3/8). split; [lra |]. split; [lra |]. split; [lra |].
      unfold vadd, vscale, vsub. cbn [vx vy vz]. f_equal; lra.
    + unfold euclid. cbn [vx vy vz]. apply sqrt_of_square; lra.
  - intros q (a & b & Ha & Hb & Hab & ->).
    unfold euclid, vadd, vscale, vsub. cbn [vx vy vz].
    apply le_sqrt; [lra |].
    pose proof (Rle_0_sqr ((21/16) - (0 + a * ((7/2) - 0) + b * (0 - 0)))) as Hx.
    pose proof (Rle_0_sqr ((21/16) - (0 + a * (0 - 0) + b * ((7/2) - 0)))) as Hy.
    unfold Rsqr in Hx, Hy. nra.
Qed.

Lemma edge_true_order : sqrt (17/16) < 9/8.
Proof. apply sqrt_lt; lra. Qed.

(** *** The two triangles far apart *)

(** The least distance from the centre of the voxel to the near triangle
    is 2e10; every point of the far triangle is farther. *)
Lemma near_triangle_least_distance :
  min_distance (in_triangle (Vec3f 0 0 0) (Vec3f 1 0 0) (Vec3f 0 1 0))
               (Vec3f 0.5 0.5 2e10) 2e10.
Proof.
  split.
  - exists (Vec3f 0.5 0.5 0). split.
    + exists 0.5, 0.5. split; [lra |]. split; [lra |]. split; [lra |].
      unfold vadd, vscale, vsub. cbn [vx vy vz]. f_equal; lra.
    + unfold euclid. cbn [vx vy vz]. apply sqrt_of_square; lra.
  - intros q (a & b & Ha & Hb & Hab & ->).
    unfold euclid, vadd, vscale, vsub. cbn [vx vy vz].
    apply le_sqrt; [lra |].
    pose proof (Rle_0_sqr (0.5 - (0 + a * (1 - 0) + b * (0 - 0)))) as Hx.
    pose proof (Rle_0_sqr (0.5 - (0 + a * (0 - 0) + b * (1 - 0)))) as Hy.
    unfold Rsqr in Hx, Hy. nra.
Qed.

Lemma far_triangle_strictly_farther (q : vec3f) :
  in_triangle (Vec3f 0 0 4e10) (Vec3f 0.4 0 4e10) (Vec3f 0 0.4 4e10) q ->
  2e10 < euclid (Vec3f 0.5 0.5 2e10) q.
Proof.
  intros (a & b & Ha & Hb & Hab & ->).
  unfold euclid, vadd, vscale, vsub. cbn [vx vy vz].
  apply lt_sqrt; [lra |].
  set (dx := 0.5 - (0 + a * (0.4 - 0) + b * (0 - 0))).
  set (dy := 0.5 - (0 + a * (0 - 0) + b * (0.4 - 0))).
  assert (Hdx : 0.1 <= dx) by (unfold dx; lra).
  assert (Hx : 0.01 <= dx * dx) by nra.
  pose proof (Rle_0_sqr dy) as Hy. unfold Rsqr in Hy. nra.
Qed.

(** *** The triangle without area *)

Lemma flat_center :
  center_of_voxel flat_uniforms (0, 0, 0)%Z = Vec3f 0.45 (-0.55) (-0.55).
Proof. eval_center. Qed.

Lemma flat_triangle_read :
  get_triangle flat_vertices flat_indices 0
  = Some (Vec3f 0 0 0, Vec3f 1 0 0, Vec3f 2 0 0).
Proof. reflexivity. Qed.

Lemma flat_triangle_det :
  Rabs (normal_equations_det (Vec3f 0 0 0) (Vec3f 1 0 0) (Vec3f 2 0 0)) < 1e-10.
Proof.
  unfold normal_equations_det, dot, vsub. cbn [vx vy vz].
  unfold Rabs. destruct (Rcase_abs _); lra.
Qed.

Lemma flat_triangle_distance :
  triangle_distance flat_vertices flat_indices
    (center_of_voxel flat_uniforms (0, 0, 0)%Z) 0
  = Some (euclid (center_of_voxel flat_uniforms (0, 0, 0)%Z) (Vec3f 0 0 0)).
Proof.
  unfold triangle_distance. rewrite flat_triangle_read.
  cbn [mbind option_bind].
  apply degenerate_triangle_distance_to_first_vertex, flat_triangle_det.
Qed.

Lemma flat_distance_small :
  euclid (center_of_voxel flat_uniforms (0, 0, 0)%Z) (Vec3f 0 0 0) < 1e10.
Proof.
  rewrite flat_center. unfold euclid. cbn [vx vy vz].
  apply sqrt_lt; nra.
Qed.

Lemma flat_readable (j : Z) :
  (0 <= j < 1)%Z -> is_Some (get_triangle flat_vertices flat_indices j).
Proof. intros Hj. replace j with 0%Z by lia. rewrite flat_triangle_read. eauto. Qed.

(** X21: for a voxel (gx, gy, gz) of the grid, [main] samples the centre
    of the voxel, volume_min + (g + 0.5) * voxel_size, and, when k is the
    first of the triangles for which [point_triangle_distance] is least at
    that centre and that least value d is below the initial bound 1e10
    of the search, stores sign(triangle k) * d in the texel of the
    voxel. *)
Theorem voxel_stores_signed_distance_to_first_closest
    (u : Uniforms) (vertices : list R) (indices : list Z) (gx gy gz : Z)
    (output : texture_storage_3d) (k : Z) (d : R) :
  (0 <= gx < u32 (resolution u))%Z ->
  (0 <= gy < u32 (resolution u))%Z ->
  (0 <= gz < u32 (resolution u))%Z ->
  (forall j, (0 <= j < u32 (triangle_count u))%Z ->
             is_Some (get_triangle vertices indices j)) ->
  first_closest
    (triangle_distance vertices indices (center_of_voxel u (gx, gy, gz)))
    (u32 (triangle_count u)) k d ->
  d < 1e10 ->
  voxel_center u (gx, gy, gz) = Some (center_of_voxel u (gx, gy, gz)) /\
  main u vertices indices (gx, gy, gz) output
  = <[(gx, gy, gz) :=
        s ← triangle_sign vertices indices (center_of_voxel u (gx, gy, gz)) k;
        Some (s * d)]> output.
Proof.
  intros Hx Hy Hz Hread Hfc Hd. split.
  - apply voxel_center_defined.
    assert (1 <= resolution u) by (apply u32_pos; lia). lra.
  - rewrite main_in_range by assumption.
    rewrite (closest_loop_first_closest _ _ _ _ _ _ Hread Hfc Hd).
    reflexivity.
Qed.

(** Two triangles, the second of which has the least value of the
    kernel. *)
Lemma voxel_stores_signed_distance_to_first_closest_witness :
  (0 <= 1 < u32 (resolution edge_uniforms))%Z /\
  (0 <= 2 < u32 (resolution edge_uniforms))%Z /\
  (forall j, (0 <= j < u32 (triangle_count edge_uniforms))%Z ->
             is_Some (get_triangle edge_vertices edge_indices j)) /\
  first_closest
    (triangle_distance edge_vertices edge_indices
       (center_of_voxel edge_uniforms (1, 1, 2)%Z))
    (u32 (triangle_count edge_uniforms)) 1 (9/8) /\
  9/8 < 1e10 /\
  voxel_center edge_uniforms (1, 1, 2)%Z
  = Some (center_of_voxel edge_uniforms (1, 1, 2)%Z) /\
  main edge_uniforms edge_vertices edge_indices (1, 1, 2)%Z ∅
  = <[(1, 1, 2)%Z :=
        s ← triangle_sign edge_vertices edge_indices
               (center_of_voxel edge_uniforms (1, 1, 2)%Z) 1;
        Some (s * (9/8))]> ∅.
Proof.
  assert (Hres : u32 (resolution edge_uniforms) = 4%Z) by exact u32_4.
  assert (Hcount : u32 (triangle_count edge_uniforms) = 2%Z) by exact u32_2.
  assert (H1 : (0 <= 1 < u32 (resolution edge_uniforms))%Z)
    by (rewrite Hres; lia).
  assert (H2 : (0 <= 2 < u32 (resolution edge_uniforms))%Z)
    by (rewrite Hres; lia).
  assert (Hread : forall j, (0 <= j < u32 (triangle_count edge_uniforms))%Z ->
            is_Some (get_triangle edge_vertices edge_indices j))
    by (rewrite Hcount; exact edge_readable).
  assert (Hd : 9/8 < 1e10) by lra.
  split; [exact H1 |]. split; [exact H2 |]. split; [exact Hread |].
  split; [exact edge_first_closest |]. split; [exact Hd |].
  exact (voxel_stores_signed_distance_to_first_closest edge_uniforms
           edge_vertices edge_indices 1 1 2 ∅ 1 (9/8) H1 H1 H2 Hread
           edge_first_closest Hd).
Defined.

(** C3: on two small triangles 4e10 apart, the near one listed first, the
    centre of the only voxel is (1/2, 1/2, 2e10).  The least distance
    from it to the near triangle is 2e10, every point of the far triangle
    is farther, the kernel gives 2e10 for the near triangle, which the
    centre faces on its positive side: the minimum distance is 2e10 and
    the winning triangle is triangle 0.  The texel receives 1e10, the
    initial value of [min_dist], not 2e10. *)
Theorem voxel_value_capped_by_initial_bound :
  let p := center_of_voxel distant_uniforms (0, 0, 0)%Z in
  p = Vec3f 0.5 0.5 2e10 /\
  min_distance (in_triangle (Vec3f 0 0 0) (Vec3f 1 0 0) (Vec3f 0 1 0)) p 2e10 /\
  (forall q, in_triangle (Vec3f 0 0 4e10) (Vec3f 0.4 0 4e10)
                         (Vec3f 0 0.4 4e10) q -> 2e10 < euclid p q) /\
  first_closest (triangle_distance distant_vertices near_first_indices p)
                (u32 (triangle_count distant_uniforms)) 0 2e10 /\
  triangle_sign distant_vertices near_first_indices p 0 = Some 1 /\
  main distant_uniforms distant_vertices near_first_indices (0, 0, 0)%Z ∅
  = {[ (0, 0, 0)%Z := Some (1 * 1e10) ]} /\
  main distant_uniforms distant_vertices near_first_indices (0, 0, 0)%Z ∅
  <> {[ (0, 0, 0)%Z := Some (1 * 2e10) ]}.
Proof.
  intros p.
  assert (Hres : u32 (resolution distant_uniforms) = 1%Z) by exact u32_1.
  assert (Hcount : u32 (triangle_count distant_uniforms) = 2%Z) by exact u32_2.
  assert (Hcases : forall j, (0 <= j < 2)%Z -> j = 0%Z \/ j = 1%Z) by lia.
  pose proof (near_triangle_distance _ _ near_first_triangle0_read) as Hd0.
  pose proof (far_triangle_distance _ _ near_first_triangle1_read) as Hd1.
  pose proof (near_triangle_sign _ _ near_first_triangle0_read) as Hs0.
  pose proof far_triangle_farther as Hfar.
  assert (Hmain : main distant_uniforms distant_vertices near_first_indices
                    (0, 0, 0)%Z ∅
                  = {[ (0, 0, 0)%Z := Some (1 * 1e10) ]}).
  { rewrite main_in_range by (rewrite Hres; lia).
    rewrite Hcount, closest_loop_bound.
    - cbn [mbind option_bind]. rewrite Hs0. reflexivity.
    - exact near_first_readable.
    - intros j d' Hj. destruct (Hcases j Hj) as [-> | ->].
      + rewrite Hd0. intros [= <-]. lra.
      + rewrite Hd1. intros [= <-]. lra. }
  split; [exact distant_center |].
  split; [unfold p; rewrite distant_center; exact near_triangle_least_distance |].
  split; [unfold p; rewrite distant_center; exact far_triangle_strictly_farther |].
  split; [| split; [| split]].
  - rewrite Hcount. split; [lia |]. split; [exact Hd0 |]. split.
    + intros j d' Hj. unfold p. destruct (Hcases j Hj) as [-> | ->].
      * rewrite Hd0. intros [= <-]. lra.
      * rewrite Hd1. intros [= <-]. lra.
    + intros j d' Hj. lia.
  - exact Hs0.
  - exact Hmain.
  - rewrite Hmain. intros E.
    apply (f_equal (fun m : texture_storage_3d => m !! (0, 0, 0)%Z)) in E.
    rewrite !lookup_singleton_eq in E. injection E as E. lra.
Qed.

(** C6: on the same two triangles, the far one listed first, the near
    triangle, triangle 1, is the closest to the centre (1/2, 1/2, 2e10)
    of the only voxel: its least distance is 2e10 and every point of the
    far triangle is farther.  The centre is on the positive side of the
    near triangle and on the negative side of the far one.  The texel
    receives the sign of triangle 0, the far one: its value is negative. *)
Theorem sign_of_triangle_zero_beyond_initial_bound :
  let p := center_of_voxel distant_uniforms (0, 0, 0)%Z in
  p = Vec3f 0.5 0.5 2e10 /\
  get_triangle distant_vertices far_first_indices 1
  = Some (Vec3f 0 0 0, Vec3f 1 0 0, Vec3f 0 1 0) /\
  get_triangle distant_vertices far_first_indices 0
  = Some (Vec3f 0 0 4e10, Vec3f 0.4 0 4e10, Vec3f 0 0.4 4e10) /\
  min_distance (in_triangle (Vec3f 0 0 0) (Vec3f 1 0 0) (Vec3f 0 1 0)) p 2e10 /\
  (forall q, in_triangle (Vec3f 0 0 4e10) (Vec3f 0.4 0 4e10)
                         (Vec3f 0 0.4 4e10) q -> 2e10 < euclid p q) /\
  first_closest (triangle_distance distant_vertices far_first_indices p)
                (u32 (triangle_count distant_uniforms)) 1 2e10 /\
  triangle_sign distant_vertices far_first_indices p 1 = Some 1 /\
  triangle_sign distant_vertices far_first_indices p 0 = Some (-1) /\
  main distant_uniforms distant_vertices far_first_indices (0, 0, 0)%Z ∅
  = {[ (0, 0, 0)%Z := Some (-1 * 1e10) ]} /\
  forall d : R, 0 <= d ->
    main distant_uniforms distant_vertices far_first_indices (0, 0, 0)%Z ∅
    <> {[ (0, 0, 0)%Z := Some (1 * d) ]}.
Proof.
  intros p.
  assert (Hres : u32 (resolution distant_uniforms) = 1%Z) by exact u32_1.
  assert (Hcount : u32 (triangle_count distant_uniforms) = 2%Z) by exact u32_2.
  assert (Hcases : forall j, (0 <= j < 2)%Z -> j = 0%Z \/ j = 1%Z) by lia.
  pose proof (far_triangle_distance _ _ far_first_triangle0_read) as Hd0.
  pose proof (near_triangle_distance _ _ far_first_triangle1_read) as Hd1.
  pose proof (far_triangle_sign _ _ far_first_triangle0_read) as Hs0.
  pose proof (near_triangle_sign _ _ far_first_triangle1_read) as Hs1.
  pose proof far_triangle_farther as Hfar.
  assert (Hmain : main distant_uniforms distant_vertices far_first_indices
                    (0, 0, 0)%Z ∅
                  = {[ (0, 0, 0)%Z := Some (-1 * 1e10) ]}).
  { rewrite main_in_range by (rewrite Hres; lia).
    rewrite Hcount, closest_loop_bound.
    - cbn [mbind option_bind]. rewrite Hs0. reflexivity.
    - exact far_first_readable.
    - intros j d' Hj. destruct (Hcases j Hj) as [-> | ->].
      + rewrite Hd0. intros [= <-]. lra.
      + rewrite Hd1. intros [= <-]. lra. }
  split; [exact distant_center |].
  split; [exact far_first_triangle1_read |].
  split; [exact far_first_triangle0_read |].
  split; [unfold p; rewrite distant_center; exact near_triangle_least_distance |].
  split; [unfold p; rewrite distant_center; exact far_triangle_strictly_farther |].
  split; [| split; [| split; [| split]]].
  - rewrite Hcount. split; [lia |]. split; [exact Hd1 |]. split.
    + intros j d' Hj. unfold p. destruct (Hcases j Hj) as [-> | ->].
      * rewrite Hd0. intros [= <-]. lra.
      * rewrite Hd1. intros [= <-]. lra.
    + intros j d' Hj. replace j with 0%Z by lia. unfold p.
      rewrite Hd0. intros [= <-]. lra.
  - exact Hs1.
  - exact Hs0.
  - exact Hmain.
  - intros d Hd. rewrite Hmain. intros E.
    apply (f_equal (fun m : texture_storage_3d => m !! (0, 0, 0)%Z)) in E.
    rewrite !lookup_singleton_eq in E. injection E as E. lra.
Qed.

(** Below the initial bound too the triangle that wins need not be the
    closest one, the kernel being what it is beyond an edge: the centre
    (21/16, 21/16, 9/8) of voxel (1,1,2) is at sqrt(17/16) from the
    small triangle, on its negative side, and at 9/8 from the large
    one, on its positive side; the kernel gives sqrt(21/16) for the small
    triangle, and the texel receives +9/8. *)
Lemma texel_of_farther_triangle_beyond_edge :
  let p := center_of_voxel edge_uniforms (1, 1, 2)%Z in
  let a0 := Vec3f (13/16) (37/16) (11/8) in
  let a1 := Vec3f (29/16) (37/16) (11/8) in
  let a2 := Vec3f (29/16) (53/16) (11/8) in
  let b0 := Vec3f 0 0 0 in
  let b1 := Vec3f (7/2) 0 0 in
  let b2 := Vec3f 0 (7/2) 0 in
  p = Vec3f (21/16) (21/16) (9/8) /\
  get_triangle edge_vertices edge_indices 0 = Some (a0, a1, a2) /\
  get_triangle edge_vertices edge_indices 1 = Some (b0, b1, b2) /\
  min_distance (in_triangle a0 a1 a2) p (sqrt (17/16)) /\
  min_distance (in_triangle b0 b1 b2) p (9/8) /\
  sqrt (17/16) < 9/8 /\
  point_triangle_distance p a0 a1 a2 = Some (sqrt (21/16)) /\
  point_triangle_distance p b0 b1 b2 = Some (9/8) /\
  compute_sign p a0 a1 a2 = Some (-1) /\
  compute_sign p b0 b1 b2 = Some 1 /\
  main edge_uniforms edge_vertices edge_indices (1, 1, 2)%Z ∅
  = {[ (1, 1, 2)%Z := Some (1 * (9/8)) ]}.
Proof.
  intros p a0 a1 a2 b0 b1 b2.
  assert (Hres : u32 (resolution edge_uniforms) = 4%Z) by exact u32_4.
  assert (Hcount : u32 (triangle_count edge_uniforms) = 2%Z) by exact u32_2.
  pose proof edge_triangle0_distance as Hd0.
  pose proof edge_triangle1_distance as Hd1.
  pose proof edge_triangle0_sign as Hs0.
  pose proof edge_triangle1_sign as Hs1.
  unfold triangle_distance in Hd0, Hd1. unfold triangle_sign in Hs0, Hs1.
  rewrite edge_triangle0_read in Hd0, Hs0.
  rewrite edge_triangle1_read in Hd1, Hs1.
  cbn [mbind option_bind] in Hd0, Hd1, Hs0, Hs1.
  split; [exact edge_center |].
  split; [exact edge_triangle0_read |]. split; [exact edge_triangle1_read |].
  split; [unfold p; rewrite edge_center; exact edge_triangle0_least_distance |].
  split; [unfold p; rewrite edge_center; exact edge_triangle1_least_distance |].
  split; [exact edge_true_order |].
  split; [exact Hd0 |]. split; [exact Hd1 |].
  split; [exact Hs0 |]. split; [exact Hs1 |].
  rewrite main_in_range by (rewrite Hres; lia).
  assert (Hread : forall j, (0 <= j < u32 (triangle_count edge_uniforms))%Z ->
            is_Some (get_triangle edge_vertices edge_indices j))
    by (rewrite Hcount; exact edge_readable).
  assert (Hd : 9/8 < 1e10) by lra.
  rewrite (closest_loop_first_closest _ _ _ _ _ _ Hread edge_first_closest Hd).
  cbn [mbind option_bind]. rewrite edge_triangle1_sign. reflexivity.
Qed.

(** C5: on the mesh of one triangle whose vertices (0,0,0), (1,0,0),
    (2,0,0) are on a line, the determinant is 0: the distance takes the
    fallback and is the distance from the centre of the voxel to the first
    vertex, a number; but the cross product of the edges is zero, its
    normalisation divides by zero, the sign is not a number and neither
    is the value the texel receives. *)
Theorem zero_area_triangle_gives_indeterminate_texel :
  let p := center_of_voxel flat_uniforms (0, 0, 0)%Z in
  let v0 := Vec3f 0 0 0 in
  let v1 := Vec3f 1 0 0 in
  let v2 := Vec3f 2 0 0 in
  p = Vec3f 0.45 (-0.55) (-0.55) /\
  get_triangle flat_vertices flat_indices 0 = Some (v0, v1, v2) /\
  Rabs (normal_equations_det v0 v1 v2) < 1e-10 /\
  point_triangle_distance p v0 v1 v2 = Some (euclid p v0) /\
  cross (vsub v1 v0) (vsub v2 v0) = Vec3f 0 0 0 /\
  triangle_normal v0 v1 v2 = None /\
  compute_sign p v0 v1 v2 = None /\
  main flat_uniforms flat_vertices flat_indices (0, 0, 0)%Z ∅
  = {[ (0, 0, 0)%Z := None ]}.
Proof.
  intros p v0 v1 v2.
  assert (Hres : u32 (resolution flat_uniforms) = 2%Z) by exact u32_2.
  assert (Hcount : u32 (triangle_count flat_uniforms) = 1%Z) by exact u32_1.
  assert (Hcross : cross (vsub v1 v0) (vsub v2 v0) = Vec3f 0 0 0).
  { unfold cross, vsub, v0, v1, v2. cbn [vx vy vz]. f_equal; lra. }
  assert (Hsign : forall q, compute_sign q v0 v1 v2 = None).
  { intros q. apply compute_sign_zero_area. exact Hcross. }
  assert (Hnormal : triangle_normal v0 v1 v2 = None).
  { unfold triangle_normal, normalize. rewrite Hcross.
    unfold vdivs, length, dot. cbn [vx vy vz].
    replace (0 * 0 + 0 * 0 + 0 * 0) with 0 by ring. rewrite sqrt_0.
    destruct (Req_dec_T 0 0) as [_ | Hne]; [reflexivity | contradiction]. }
  split; [exact flat_center |]. split; [exact flat_triangle_read |].
  split; [exact flat_triangle_det |].
  split; [apply degenerate_triangle_distance_to_first_vertex, flat_triangle_det |].
  split; [exact Hcross |]. split; [exact Hnormal |]. split; [apply Hsign |].
  rewrite main_in_range by (rewrite Hres; lia).
  assert (Hread : forall j, (0 <= j < u32 (triangle_count flat_uniforms))%Z ->
            is_Some (get_triangle flat_vertices flat_indices j))
    by (rewrite Hcount; exact flat_readable).
  assert (Hfc : first_closest
                  (triangle_distance flat_vertices flat_indices
                     (center_of_voxel flat_uniforms (0, 0, 0)%Z))
                  (u32 (triangle_count flat_uniforms)) 0
                  (euclid (center_of_voxel flat_uniforms (0, 0, 0)%Z)
                          (Vec3f 0 0 0))).
  { rewrite Hcount. apply first_closest_single. exact flat_triangle_distance. }
  rewrite (closest_loop_first_closest _ _ _ _ _ _ Hread Hfc flat_distance_small).
  cbn [mbind option_bind]. unfold triangle_sign.
  rewrite flat_triangle_read. cbn [mbind option_bind].
  fold v0 v1 v2. rewrite Hsign. reflexivity.
Qed.

End Voxels.

(** ** Bounding boxes *)

Section Bounds.
Import Types BoundsSpec.

Lemma fold_Rmin_least (t : list R) (h : R) :
  (exists k, (h :: t) !! k = Some (fold_left Rmin t h)) /\
  (forall k v, (h :: t) !! k = Some v -> fold_left Rmin t h <= v).
Proof.
  revert h. induction t as [| y t IH]; intros h.
  - split; [exists 0%nat; reflexivity |].
    intros [| k] v; cbn; [intros [= <-]; lra | discriminate].
  - cbn [fold_left]. destruct (IH (Rmin h y)) as [[k Hk] Hlow]. split.
    + destruct k as [| k].
      * cbn in Hk. injection Hk as Hk. rewrite <- Hk. unfold Rmin.
        destruct (Rle_dec h y); [exists 0%nat | exists 1%nat]; reflexivity.
      * exists (S (S k)). exact Hk.
    + intros [| [| j]] v Hv.
      * cbn in Hv. injection Hv as <-.
        pose proof (Hlow 0%nat _ eq_refl). pose proof (Rmin_l h y). lra.
      * cbn in Hv. injection Hv as <-.
        pose proof (Hlow 0%nat _ eq_refl). pose proof (Rmin_r h y). lra.
      * apply (Hlow (S j)). exact Hv.
Qed.

Lemma fold_Rmax_greatest (t : list R) (h : R) :
  (exists k, (h :: t) !! k = Some (fold_left Rmax t h)) /\
  (forall k v, (h :: t) !! k = Some v -> v <= fold_left Rmax t h).
Proof.
  revert h. induction t as [| y t IH]; intros h.
  - split; [exists 0%nat; reflexivity |].
    intros [| k] v; cbn; [intros [= <-]; lra | discriminate].
  - cbn [fold_left]. destruct (IH (Rmax h y)) as [[k Hk] Hup]. split.
    + destruct k as [| k].
      * cbn in Hk. injection Hk as Hk. rewrite <- Hk. unfold Rmax.
        destruct (Rle_dec h y); [exists 1%nat | exists 0%nat]; reflexivity.
      * exists (S (S k)). exact Hk.
    + intros [| [| j]] v Hv.
      * cbn in Hv. injection Hv as <-.
        pose proof (Hup 0%nat _ eq_refl). pose proof (Rmax_l h y). lra.
      * cbn in Hv. injection Hv as <-.
        pose proof (Hup 0%nat _ eq_refl). pose proof (Rmax_r h y). lra.
      * apply (Hup (S j)). exact Hv.
Qed.

(** Column [a] of an array of whole triples, by index. *)
Lemma column_lookup (a : nat) (l : list R) (n k : nat) :
  length l = (3 * n)%nat -> (a < 3)%nat -> (k < n)%nat ->
  column a l !! k = l !! (3 * k + a)%nat.
Proof.
  revert l k. induction n as [| n IH]; intros l k Hlen Ha Hk; [lia |].
  destruct l as [| x0 [| y0 [| z0 l]]]; cbn [length] in Hlen; try lia.
  cbn [column]. destruct k as [| k].
  - destruct a as [| [| [| a]]]; try lia; reflexivity.
  - replace (3 * S k + a)%nat with (S (S (S (3 * k + a)))) by lia.
    cbn [lookup list_lookup]. apply (IH l k); lia.
Qed.

Lemma column_length (a : nat) (l : list R) (n : nat) :
  length l = (3 * n)%nat -> length (column a l) = n.
Proof.
  revert l. induction n as [| n IH]; intros l Hlen.
  - destruct l; [reflexivity | cbn in Hlen; lia].
  - destruct l as [| x0 [| y0 [| z0 l]]]; cbn [length] in Hlen; try lia.
    cbn [column length]. f_equal. apply IH. lia.
Qed.

(** The loop of [computeBounds] folds [Math.min] and [Math.max] down the
    three columns of an array of whole triples. *)
Lemma bounds_loop_columns (n : nat) (rest : list R) (lo hi : Vec3) :
  length rest = (3 * n)%nat ->
  exists lo' hi',
    bounds_loop rest lo hi = Some (lo', hi') /\
    forall a, (a < 3)%nat ->
      component a lo' = fold_left Rmin (column a rest) (component a lo) /\
      component a hi' = fold_left Rmax (column a rest) (component a hi).
Proof.
  revert rest lo hi. induction n as [| n IH]; intros rest lo hi Hlen.
  - destruct rest; [| cbn in Hlen; lia].
    exists lo, hi. split; [reflexivity |]. intros a Ha. split; reflexivity.
  - destruct rest as [| x0 [| y0 [| z0 rest]]]; cbn [length] in Hlen; try lia.
    cbn [bounds_loop column].
    edestruct (IH rest) as (lo' & hi' & -> & Hcols); [lia |].
    exists lo', hi'. split; [reflexivity |].
    intros a Ha. destruct (Hcols a Ha) as [Hlo Hhi].
    rewrite Hlo, Hhi. cbn [fold_left].
    destruct a as [| [| [| a]]]; try lia; split; reflexivity.
Qed.

Lemma least_of_column (a : nat) (vertices : list R) (n : nat) (m : R) :
  length vertices = (3 * n)%nat -> (a < 3)%nat ->
  (exists k, column a vertices !! k = Some m) ->
  (forall k v, column a vertices !! k = Some v -> m <= v) ->
  least_of (coordinate vertices a) n m.
Proof.
  intros Hlen Ha [k Hk] Hlow. unfold least_of, coordinate.
  pose proof (column_length a _ _ Hlen) as Hcl. split.
  - exists k. assert (k < n)%nat.
    { apply lookup_lt_Some in Hk. lia. }
    split; [assumption |]. rewrite <- (column_lookup a _ n) by assumption.
    exact Hk.
  - intros j v Hj Hv. apply (Hlow j).
    rewrite (column_lookup a _ n) by assumption. exact Hv.
Qed.

Lemma greatest_of_column (a : nat) (vertices : list R) (n : nat) (m : R) :
  length vertices = (3 * n)%nat -> (a < 3)%nat ->
  (exists k, column a vertices !! k = Some m) ->
  (forall k v, column a vertices !! k = Some v -> v <= m) ->
  greatest_of (coordinate vertices a) n m.
Proof.
  intros Hlen Ha [k Hk] Hup. unfold greatest_of, coordinate.
  pose proof (column_length a _ _ Hlen) as Hcl. split.
  - exists k. assert (k < n)%nat.
    { apply lookup_lt_Some in Hk. lia. }
    split; [assumption |]. rewrite <- (column_lookup a _ n) by assumption.
    exact Hk.
  - intros j v Hj Hv. apply (Hup j).
    rewrite (column_lookup a _ n) by assumption. exact Hv.
Qed.

(** The bounds of an array of [n >= 1] whole triples. *)
Lemma computeBounds_triples (vertices : list R) (n : nat) :
  length vertices = (3 * n)%nat -> (1 <= n)%nat ->
  exists b, computeBounds vertices = Some b /\
    forall a, (a < 3)%nat ->
      least_of (coordinate vertices a) n (component a (min b)) /\
      greatest_of (coordinate vertices a) n (component a (max b)).
Proof.
  intros Hlen Hn.
  destruct vertices as [| x0 [| y0 [| z0 rest]]]; cbn [length] in Hlen; try lia.
  unfold computeBounds.
  destruct (bounds_loop_columns (n - 1) rest (mkVec3 x0 y0 z0) (mkVec3 x0 y0 z0))
    as (lo & hi & -> & Hcols); [lia |].
  cbn [mbind option_bind]. eexists. split; [reflexivity |].
  intros a Ha. destruct (Hcols a Ha) as [Hlo Hhi]. cbn [min max].
  assert (Hcol : column a (x0 :: y0 :: z0 :: rest)
                 = component a (mkVec3 x0 y0 z0) :: column a rest) by reflexivity.
  assert (Hlen' : length (x0 :: y0 :: z0 :: rest) = (3 * n)%nat)
    by (cbn [length]; lia).
  split.
  - destruct (fold_Rmin_least (column a rest) (component a (mkVec3 x0 y0 z0)))
      as [Hat Hlow].
    apply least_of_column; try assumption; rewrite Hcol, Hlo; assumption.
  - destruct (fold_Rmax_greatest (column a rest) (component a (mkVec3 x0 y0 z0)))
      as [Hat Hup].
    apply greatest_of_column; try assumption; rewrite Hcol, Hhi; assumption.
Qed.

(** C10: on an array of fewer than three floats [computeBounds] returns
    the box from (0,0,0) to (0,0,0); on a non-empty array of whole
    vertices it returns, on each axis, the least and the greatest
    coordinate of the vertices; in both cases min <= max on every axis. *)
Theorem computeBounds_componentwise_min_max (vertices : list R) (n : nat) :
  (length vertices < 3)%nat
  \/ (length vertices = (3 * n)%nat /\ (1 <= n)%nat) ->
  exists b : BoundingBox,
    computeBounds vertices = Some b /\
    ((length vertices < 3)%nat -> b = zero_box) /\
    (length vertices = (3 * n)%nat /\ (1 <= n)%nat ->
       least_of (coordinate vertices 0) n (x (min b)) /\
       least_of (coordinate vertices 1) n (y (min b)) /\
       least_of (coordinate vertices 2) n (z (min b)) /\
       greatest_of (coordinate vertices 0) n (x (max b)) /\
       greatest_of (coordinate vertices 1) n (y (max b)) /\
       greatest_of (coordinate vertices 2) n (z (max b))) /\
    box_ordered b.
Proof.
  intros [Hshort | [Hlen Hn]].
  - exists zero_box. split; [| split; [| split]].
    + destruct vertices as [| x0 [| y0 [| z0 rest]]]; try reflexivity.
      cbn [length] in Hshort. lia.
    + reflexivity.
    + intros [Hlen Hn]. lia.
    + unfold box_ordered, zero_box. cbn. lra.
  - destruct (computeBounds_triples vertices n Hlen Hn) as (b & Hb & Hax).
    exists b. split; [exact Hb |]. split; [intros Hshort; lia |].
    pose proof (Hax 0%nat ltac:(lia)) as [H0 G0].
    pose proof (Hax 1%nat ltac:(lia)) as [H1 G1].
    pose proof (Hax 2%nat ltac:(lia)) as [H2 G2].
    cbn [component nth] in *.
    split; [intros _; tauto |].
    assert (Hord : forall f lo hi, least_of f n lo -> greatest_of f n hi -> lo <= hi).
    { intros f lo hi [[k [Hk Hfk]] Hlow] [_ Hup].
      pose proof (Hlow k _ Hk Hfk). pose proof (Hup k _ Hk Hfk). lra. }
    unfold box_ordered.
    split; [exact (Hord _ _ _ H0 G0) |].
    split; [exact (Hord _ _ _ H1 G1) | exact (Hord _ _ _ H2 G2)].
Qed.

Lemma computeBounds_componentwise_min_max_witness :
  let vertices := [-1; -2; -3; 4; 5; 6; 0; 0; 0] in
  ((length vertices < 3)%nat
   \/ (length vertices = (3 * 3)%nat /\ (1 <= 3)%nat)) /\
  exists b : BoundingBox,
    computeBounds vertices = Some b /\
    ((length vertices < 3)%nat -> b = zero_box) /\
    (length vertices = (3 * 3)%nat /\ (1 <= 3)%nat ->
       least_of (coordinate vertices 0) 3 (x (min b)) /\
       least_of (coordinate vertices 1) 3 (y (min b)) /\
       least_of (coordinate vertices 2) 3 (z (min b)) /\
       greatest_of (coordinate vertices 0) 3 (x (max b)) /\
       greatest_of (coordinate vertices 1) 3 (y (max b)) /\
       greatest_of (coordinate vertices 2) 3 (z (max b))) /\
    box_ordered b.
Proof.
  intros vertices.
  assert (H : (length vertices < 3)%nat
              \/ (length vertices = (3 * 3)%nat /\ (1 <= 3)%nat)).
  { right. cbn. lia. }
  split; [exact H |].
  exact (computeBounds_componentwise_min_max vertices 3 H).
Defined.

(** The test of the repository: the bounds of (-1,-2,-3), (4,5,6), (0,0,0). *)
Example computeBounds_of_three_vertices :
  computeBounds [-1; -2; -3; 4; 5; 6; 0; 0; 0]
  = Some (mkBoundingBox (mkVec3 (-1) (-2) (-3)) (mkVec3 4 5 6)).
Proof.
  cbn [computeBounds bounds_loop mbind option_bind x y z].
  do 3 f_equal; f_equal; unfold Rmin, Rmax;
    repeat destruct (Rle_dec _ _); lra.
Qed.

(** An array that ends in the middle of a vertex gives a box with a NaN. *)
Example computeBounds_of_partial_vertex :
  computeBounds [1; 2; 3; 4] = None.
Proof. reflexivity. Qed.

End Bounds.

(** ** The driver *)

Section DriverFacts.
Import Types Gpu Sdf BoundsSpec DriverSpec Samples.

Lemma bind_Return {A B : Type} (m : GPU A) (k : A -> GPU B)
    (dev dev' : GPUDevice) (a : A) :
  m dev = (dev', Return a) -> bind m k dev = k a dev'.
Proof. intros H. unfold bind. rewrite H. reflexivity. Qed.

Lemma bind_Throw {A B : Type} (m : GPU A) (k : A -> GPU B)
    (dev dev' : GPUDevice) (e : GpuCall) :
  m dev = (dev', Throw e) -> bind m k dev = (dev', Throw e).
Proof. intros H. unfold bind. rewrite H. reflexivity. Qed.

Lemma call_ok (b : Backend) (c : GpuCall) (dev : GPUDevice) :
  throws b c = false -> call b c dev = (dev, Return tt).
Proof. intros H. unfold call. rewrite H. reflexivity. Qed.

Lemma call_throw (b : Backend) (c : GpuCall) (dev : GPUDevice) :
  throws b c = true -> call b c dev = (dev, Throw c).
Proof. intros H. unfold call. rewrite H. reflexivity. Qed.

Lemma createTexture_ok (b : Backend) (n : Z) (dev : GPUDevice) :
  throws b CreateTexture = false ->
  createTexture b n dev
  = (mkDevice (<[next_handle dev := (n, ∅)]> (textures dev)) (buffers dev)
              (S (next_handle dev)) (pending dev),
     Return (next_handle dev)).
Proof. intros H. unfold createTexture. rewrite H. reflexivity. Qed.

Lemma createTexture_throw (b : Backend) (n : Z) (dev : GPUDevice) :
  throws b CreateTexture = true ->
  createTexture b n dev = (dev, Throw CreateTexture).
Proof. intros H. unfold createTexture. rewrite H. reflexivity. Qed.

Lemma createBuffer_ok (b : Backend) (data : BufferData) (label : string)
    (dev : GPUDevice) :
  throws b (CreateBuffer label) = false ->
  createBuffer b data label dev
  = (mkDevice (textures dev) (<[next_handle dev := data]> (buffers dev))
              (S (next_handle dev)) (pending dev),
     Return (next_handle dev)).
Proof. intros H. unfold createBuffer. rewrite H. reflexivity. Qed.

Lemma createBuffer_throw (b : Backend) (data : BufferData) (label : string)
    (dev : GPUDevice) :
  throws b (CreateBuffer label) = true ->
  createBuffer b data label dev = (dev, Throw (CreateBuffer label)).
Proof. intros H. unfold createBuffer. rewrite H. reflexivity. Qed.

Lemma submit_ok (b : Backend) (cmd : Command) (dev : GPUDevice) :
  throws b Submit = false ->
  submit b cmd dev
  = (mkDevice (textures dev) (buffers dev) (next_handle dev)
              (pending dev ++ [cmd]),
     Return tt).
Proof. intros H. unfold submit. rewrite H. reflexivity. Qed.

Lemma submit_throw (b : Backend) (cmd : Command) (dev : GPUDevice) :
  throws b Submit = true -> submit b cmd dev = (dev, Throw Submit).
Proof. intros H. unfold submit. rewrite H. reflexivity. Qed.

Lemma onSubmittedWorkDone_ok (b : Backend) (dev : GPUDevice) :
  throws b OnSubmittedWorkDone = false ->
  onSubmittedWorkDone b dev
  = (mkDevice (textures (run_pending b dev)) (buffers (run_pending b dev))
              (next_handle (run_pending b dev)) [],
     Return tt).
Proof. intros H. unfold onSubmittedWorkDone. rewrite H. reflexivity. Qed.

Lemma onSubmittedWorkDone_throw (b : Backend) (dev : GPUDevice) :
  throws b OnSubmittedWorkDone = true ->
  onSubmittedWorkDone b dev = (dev, Throw OnSubmittedWorkDone).
Proof. intros H. unfold onSubmittedWorkDone. rewrite H. reflexivity. Qed.

Lemma destroy_ok (h : nat) (dev : GPUDevice) :
  destroy h dev
  = (mkDevice (textures dev) (delete h (buffers dev)) (next_handle dev)
              (pending dev),
     Return tt).
Proof. reflexivity. Qed.

(** Run the next call of a computation, given that it does not throw
    ([ok]) or that it does ([throw]). *)
Ltac ok_step tac :=
  erewrite bind_Return;
  [ | first [ apply createTexture_ok | apply createBuffer_ok | apply call_ok
            | apply submit_ok | apply onSubmittedWorkDone_ok
            | apply destroy_ok ]; tac ];
  cbn [textures buffers next_handle pending].

Ltac throw_step tac :=
  erewrite bind_Throw;
  [ | first [ apply createTexture_throw | apply createBuffer_throw
            | apply call_throw | apply submit_throw
            | apply onSubmittedWorkDone_throw ]; tac ].

(** The next call throws or not: two cases. *)
Ltac case_step :=
  match goal with
  | |- context [bind (createTexture ?b _) _ _] =>
      destruct (throws b CreateTexture) eqn:?
  | |- context [bind (createBuffer ?b _ ?l) _ _] =>
      destruct (throws b (CreateBuffer l)) eqn:?
  | |- context [bind (call ?b ?c) _ _] =>
      destruct (throws b c) eqn:?
  | |- context [bind (submit ?b _) _ _] =>
      destruct (throws b Submit) eqn:?
  | |- context [bind (onSubmittedWorkDone ?b) _ _] =>
      destruct (throws b OnSubmittedWorkDone) eqn:?
  end;
  [ right; throw_step assumption; eauto | ok_step assumption ].

(** A pass writes to its output texture and to nothing else. *)
Lemma run_command_buffers (b : Backend) (cmd : Command) (dev : GPUDevice) :
  buffers (run_command b cmd dev) = buffers dev
  /\ next_handle (run_command b cmd dev) = next_handle dev
  /\ pending (run_command b cmd dev) = pending dev
  /\ dom (textures (run_command b cmd dev)) = dom (textures dev).
Proof.
  unfold run_command.
  destruct (buffers dev !! binding0 (cmd_bindings cmd)) as [[u | ?] |]; try tauto.
  destruct (buffers dev !! binding1 (cmd_bindings cmd)) as [[v | ?] |]; try tauto.
  destruct (buffers dev !! binding2 (cmd_bindings cmd)) as [[? | i] |]; try tauto.
  destruct (textures dev !! binding3 (cmd_bindings cmd)) as [[size texels] |] eqn:Et;
    try tauto.
  destruct (read_uniforms u); try tauto.
  cbn [buffers next_handle pending textures]. repeat split.
  apply dom_insert_lookup_L. rewrite Et. eauto.
Qed.

Lemma run_commands_buffers (b : Backend) (cmds : list Command) (dev : GPUDevice) :
  let dev' := fold_left (fun d cmd => run_command b cmd d) cmds dev in
  buffers dev' = buffers dev /\ next_handle dev' = next_handle dev
  /\ dom (textures dev') = dom (textures dev).
Proof.
  revert dev. induction cmds as [| cmd cmds IH]; intros dev; cbn [fold_left].
  - tauto.
  - destruct (IH (run_command b cmd dev)) as (-> & -> & ->).
    destruct (run_command_buffers b cmd dev) as (-> & -> & _ & ->). tauto.
Qed.

Lemma run_pending_buffers (b : Backend) (dev : GPUDevice) :
  buffers (run_pending b dev) = buffers dev
  /\ next_handle (run_pending b dev) = next_handle dev
  /\ dom (textures (run_pending b dev)) = dom (textures dev).
Proof. apply run_commands_buffers. Qed.

(** The driver either runs to its end or stops at the first call that
    throws, with the exception of that call. *)
Lemma computeDistanceField_outcome (b : Backend) (mesh : Mesh)
    (config : PartialConfig) (dev : GPUDevice) :
  computeDistanceField b mesh config dev
  = (final_device b mesh (merge_config config) dev,
     Return (field_of mesh (merge_config config) dev))
  \/ exists dev' c, computeDistanceField b mesh config dev = (dev', Throw c)
                    /\ throws b c = true.
Proof.
  unfold computeDistanceField. cbv zeta.
  do 16 case_step.
  do 3 (ok_step idtac). left. reflexivity.
Qed.

Lemma computeDistanceField_returns (b : Backend) (mesh : Mesh)
    (config : PartialConfig) (dev dev' : GPUDevice) (df : DistanceField) :
  computeDistanceField b mesh config dev = (dev', Return df) ->
  dev' = final_device b mesh (merge_config config) dev
  /\ df = field_of mesh (merge_config config) dev.
Proof.
  intros Hrun.
  destruct (computeDistanceField_outcome b mesh config dev)
    as [Hok | (d & c & Hthrow & _)]; rewrite Hrun in *.
  - injection Hok as Hdev Hdf. subst. tauto.
  - discriminate.
Qed.

Lemma computeDistanceField_quiet (b : Backend) (mesh : Mesh)
    (config : PartialConfig) (dev : GPUDevice) :
  (forall c, throws b c = false) ->
  computeDistanceField b mesh config dev
  = (final_device b mesh (merge_config config) dev,
     Return (field_of mesh (merge_config config) dev)).
Proof.
  intros Hquiet.
  destruct (computeDistanceField_outcome b mesh config dev)
    as [Hok | (d & c & _ & Hc)]; [exact Hok |].
  rewrite Hquiet in Hc. discriminate.
Qed.

Lemma max3_largest (a b c : R) : largest_of (max3 a b c) a b c.
Proof.
  unfold largest_of, max3, Rmax.
  repeat destruct (Rle_dec _ _); repeat split; try lra; tauto.
Qed.

(** C4: the padding and the resolution the conversion works with are
    those of the configuration it is given, 0.1 and 64 where the
    configuration leaves them out.  The volume it returns is the cube
    around the midpoint of the mesh bounds whose half-extent is
    maxExtent * (1 + padding) / 2, maxExtent being the largest of the
    three extents of the mesh bounds; the voxel size it returns is
    2 * halfExtent / resolution.  With a padding that is not negative,
    the cube holds the mesh bounds. *)
Theorem sampling_volume_is_padded_cube (backend : Backend) (mesh : Mesh)
    (config : PartialConfig) (dev dev' : GPUDevice) (df : DistanceField) :
  computeDistanceField backend mesh config dev = (dev', Return df) ->
  let padding :=
    match padding_opt config with Some given => given | None => 0.1 end in
  let resolution :=
    match resolution_opt config with Some given => given | None => 64%Z end in
  let b := bounds mesh in
  exists maxExtent halfExtent : R,
    largest_of maxExtent (x (max b) - x (min b)) (y (max b) - y (min b))
               (z (max b) - z (min b)) /\
    halfExtent = maxExtent * (1 + padding) / 2 /\
    df_bounds df = cube (midpoint b) halfExtent /\
    voxelSize df = 2 * halfExtent / IZR resolution /\
    df_resolution df = resolution /\
    (0 <= padding -> box_ordered b ->
       0 <= halfExtent /\ box_within b (df_bounds df)).
Proof.
  intros Hrun padding resolution b.
  destruct (computeDistanceField_returns _ _ _ _ _ _ Hrun) as [_ ->].
  set (cfg := merge_config config).
  assert (Hpadding : Sdf.padding cfg = padding).
  { unfold cfg, padding, merge_config. destruct (padding_opt config); reflexivity. }
  assert (Hresolution : Sdf.resolution cfg = resolution).
  { unfold cfg, resolution, merge_config.
    destruct (resolution_opt config); reflexivity. }
  exists (max3 (x (max b) - x (min b)) (y (max b) - y (min b))
               (z (max b) - z (min b))), (halfExtent_of mesh cfg).
  pose proof (max3_largest (x (max b) - x (min b)) (y (max b) - y (min b))
                           (z (max b) - z (min b))) as Hmax.
  assert (Hh : halfExtent_of mesh cfg
               = max3 (x (max b) - x (min b)) (y (max b) - y (min b))
                      (z (max b) - z (min b)) * (1 + padding) / 2)
    by (rewrite <- Hpadding; reflexivity).
  split; [exact Hmax |]. split; [exact Hh |]. split; [reflexivity |].
  split; [cbn [voxelSize field_of]; fold cfg; rewrite Hresolution;
          unfold Rdiv; ring |].
  split; [exact Hresolution |].
  intros Hpad (Hx & Hy & Hz).
  destruct Hmax as (_ & Hmx & Hmy & Hmz).
  set (m := max3 _ _ _) in *. set (h := halfExtent_of mesh cfg) in *.
  assert (Hm : 0 <= m) by lra.
  assert (Hhm : m / 2 <= h) by (rewrite Hh; nra).
  split; [lra |].
  unfold box_within. cbn [df_bounds field_of volumeBounds_of boundsCenter
                          x y z min max].
  fold b. fold cfg. fold h. repeat split; lra.
Qed.

(** The unit triangle, whose bounds run from (0,0,0) to (1,1,0), with
    resolution 2 and padding 1: the half-extent is 1 * (1 + 1) / 2 = 1,
    the volume the cube from (-1/2,-1/2,-1) to (3/2,3/2,1), the voxel
    size 1. *)
Lemma sampling_volume_is_padded_cube_witness :
  let config := mkPartialConfig (Some 2%Z) (Some 1) in
  let dev' := final_device quiet_backend unit_mesh (merge_config config)
                           idle_device in
  let df := field_of unit_mesh (merge_config config) idle_device in
  computeDistanceField quiet_backend unit_mesh config idle_device
  = (dev', Return df) /\
  df_bounds df
  = mkBoundingBox (mkVec3 (-1/2) (-1/2) (-1)) (mkVec3 (3/2) (3/2) 1) /\
  voxelSize df = 1 /\ df_resolution df = 2%Z /\
  box_within (bounds unit_mesh) (df_bounds df).
Proof.
  intros config dev' df.
  assert (Hrun : computeDistanceField quiet_backend unit_mesh config idle_device
                 = (dev', Return df)).
  { apply computeDistanceField_quiet. intros c. reflexivity. }
  split; [exact Hrun |].
  destruct (sampling_volume_is_padded_cube _ _ _ _ _ _ Hrun)
    as (maxExtent & halfExtent & Hmax & Hhalf & Hbounds & Hsize & Hres & Hin).
  cbn [padding_opt resolution_opt config bounds unit_mesh x y z min max]
    in Hmax, Hhalf, Hbounds, Hsize, Hres, Hin.
  assert (HmaxExtent : maxExtent = 1).
  { destruct Hmax as (Hcase & Ha & Hb & Hc).
    destruct Hcase as [-> | [-> | ->]]; lra. }
  assert (HhalfExtent : halfExtent = 1) by (rewrite Hhalf, HmaxExtent; lra).
  assert (Hordered : box_ordered (bounds unit_mesh))
    by (unfold box_ordered; cbn; lra).
  split.
  { rewrite Hbounds, HhalfExtent. unfold cube, midpoint.
    cbn [x y z min max]. f_equal; f_equal; lra. }
  split; [rewrite Hsize, HhalfExtent; lra |].
  split; [exact Hres |].
  exact (proj2 (Hin ltac:(lra) Hordered)).
Defined.

(** The three buffers of the driver are gone once it has destroyed them. *)
Lemma transient_buffers_deleted (m : gmap nat BufferData) (h : nat)
    (d1 d2 d3 : BufferData) :
  m !! S h = None -> m !! S (S h) = None -> m !! S (S (S h)) = None ->
  delete (S (S (S h))) (delete (S (S h)) (delete (S h)
    (<[S (S (S h)) := d3]> (<[S (S h) := d2]> (<[S h := d1]> m))))) = m.
Proof.
  intros H1 H2 H3. apply map_eq. intros k.
  rewrite !lookup_delete, !lookup_insert.
  repeat case_decide; subst; try congruence; try lia.
Qed.

(** C7, as amended: when the conversion returns, the vertex, index and
    uniform buffers it created have been released: the buffers alive
    are those that were alive before the call, and the output texture
    is alive. *)
Theorem transient_buffers_released_on_return (backend : Backend) (mesh : Mesh)
    (config : PartialConfig) (dev dev' : GPUDevice) (df : DistanceField) :
  handles_fresh dev ->
  computeDistanceField backend mesh config dev = (dev', Return df) ->
  buffers dev' = buffers dev /\ is_Some (textures dev' !! texture df).
Proof.
  intros Hfresh Hrun.
  destruct (computeDistanceField_returns _ _ _ _ _ _ Hrun) as [-> ->].
  unfold final_device. cbn [buffers textures texture field_of].
  destruct (run_pending_buffers backend
              (staged_device mesh (merge_config config) dev)) as (-> & _ & Hdom).
  split.
  - cbn [staged_device buffers].
    apply transient_buffers_deleted; apply Hfresh; lia.
  - apply elem_of_dom. rewrite Hdom. cbn [staged_device textures].
    rewrite dom_insert_L. apply elem_of_union_l, elem_of_singleton. reflexivity.
Qed.

Lemma idle_device_fresh : handles_fresh idle_device.
Proof. intros h _. split; apply lookup_empty. Qed.

Lemma transient_buffers_released_on_return_witness :
  let config := mkPartialConfig (Some 2%Z) (Some 0) in
  let cfg := merge_config config in
  let dev' := final_device quiet_backend unit_mesh cfg idle_device in
  let df := field_of unit_mesh cfg idle_device in
  handles_fresh idle_device /\
  computeDistanceField quiet_backend unit_mesh config idle_device
  = (dev', Return df) /\
  buffers dev' = buffers idle_device /\ is_Some (textures dev' !! texture df).
Proof.
  intros config cfg dev' df.
  assert (Hrun : computeDistanceField quiet_backend unit_mesh config idle_device
                 = (dev', Return df)).
  { apply computeDistanceField_quiet. intros c. reflexivity. }
  split; [exact idle_device_fresh |]. split; [exact Hrun |].
  exact (transient_buffers_released_on_return _ _ _ _ _ _
           idle_device_fresh Hrun).
Defined.

(** C7, where it fails: on a device that cannot create the compute
    pipeline the conversion throws, and the three buffers it has created
    by then stay alive, with the output texture. *)
Lemma buffers_leak_when_pipeline_creation_throws :
  exists dev' : GPUDevice,
    computeDistanceField no_pipeline_backend unit_mesh
      (mkPartialConfig None None) idle_device
    = (dev', Throw CreateComputePipeline) /\
    dom (buffers dev') = {[ 1%nat; 2%nat; 3%nat ]} /\
    dom (textures dev') = {[ 0%nat ]} /\
    buffers dev' <> buffers idle_device.
Proof.
  eexists. split; [| split; [| split]].
  - unfold computeDistanceField. cbv zeta.
    do 5 (ok_step ltac:(reflexivity)). throw_step ltac:(reflexivity). reflexivity.
  - cbn [buffers idle_device next_handle]. rewrite !dom_insert_L. set_solver.
  - cbn [textures idle_device next_handle]. rewrite !dom_insert_L. set_solver.
  - cbn [buffers idle_device next_handle]. intros E.
    apply (f_equal (fun m : gmap nat BufferData => m !! 3%nat)) in E.
    rewrite lookup_insert_eq, lookup_empty in E. discriminate.
Qed.

End DriverFacts.

(** ** Determinism *)

Section Determinism.
Import Wgsl Shader Types Gpu Sdf GridSpec ScheduleSpec DriverSpec Samples.

Lemma main_guard (u : Uniforms) (vertices : list R) (indices : list Z)
    (gid : Z * Z * Z) (output : texture_storage_3d) :
  main u vertices indices gid output
  = if in_grid u gid
    then <[gid := signed_distance u vertices indices gid]> output
    else output.
Proof.
  destruct gid as [[gx gy] gz]. unfold main, in_grid, textureStore.
  destruct (_ || _ || _)%bool; reflexivity.
Qed.

(** Every invocation writes its own texel, with a value that depends on
    nothing but its id: after any sequence of invocations a texel holds
    the value of its voxel if its invocation has run, and is untouched
    otherwise. *)
Lemma run_schedule_lookup (u : Uniforms) (vertices : list R) (indices : list Z)
    (sched : list (Z * Z * Z)) (output : texture_storage_3d) (g : Z * Z * Z) :
  run_schedule u vertices indices sched output !! g
  = if bool_decide (g ∈ sched) && in_grid u g
    then Some (signed_distance u vertices indices g)
    else output !! g.
Proof.
  unfold run_schedule. induction sched as [| gid sched IH] using rev_ind.
  - reflexivity.
  - rewrite fold_left_app. cbn [fold_left]. rewrite main_guard.
    destruct (decide (g = gid)) as [-> | Hne].
    + rewrite (bool_decide_eq_true_2 (gid ∈ sched ++ [gid]))
        by (apply elem_of_app; right; apply list_elem_of_singleton; reflexivity).
      cbn [andb]. destruct (in_grid u gid) eqn:Hin.
      * apply lookup_insert_eq.
      * rewrite IH, andb_false_r. reflexivity.
    + assert (Hmem : bool_decide (g ∈ sched ++ [gid]) = bool_decide (g ∈ sched)).
      { apply bool_decide_ext. rewrite elem_of_app, list_elem_of_singleton. tauto. }
      rewrite Hmem. destruct (in_grid u gid).
      * rewrite lookup_insert_ne by congruence. exact IH.
      * exact IH.
Qed.

Lemma run_schedule_same_invocations (u : Uniforms) (vertices : list R)
    (indices : list Z) (sched sched' : list (Z * Z * Z))
    (output : texture_storage_3d) :
  (forall g, g ∈ sched <-> g ∈ sched') ->
  run_schedule u vertices indices sched output
  = run_schedule u vertices indices sched' output.
Proof.
  intros Hsame. apply map_eq. intros g. rewrite !run_schedule_lookup.
  rewrite (bool_decide_ext _ _ (Hsame g)). reflexivity.
Qed.

Lemma fair_schedules_agree (b1 b2 : Backend) (l : list (Z * Z * Z)) (g : Z * Z * Z) :
  fair_schedule b1 -> fair_schedule b2 ->
  g ∈ schedule b1 l <-> g ∈ schedule b2 l.
Proof. intros H1 H2. rewrite (H1 l), (H2 l). reflexivity. Qed.

Lemma run_command_fair (b1 b2 : Backend) (cmd : Command) (dev : GPUDevice) :
  fair_schedule b1 -> fair_schedule b2 ->
  run_command b1 cmd dev = run_command b2 cmd dev.
Proof.
  intros H1 H2. unfold run_command.
  destruct (buffers dev !! _) as [[u | ?] |]; try reflexivity.
  destruct (buffers dev !! _) as [[v | ?] |]; try reflexivity.
  destruct (buffers dev !! _) as [[? | i] |]; try reflexivity.
  destruct (textures dev !! _) as [[size texels] |]; try reflexivity.
  destruct (read_uniforms u) as [us |]; try reflexivity.
  fold (run_schedule us v i (schedule b1 (invocations (cmd_workgroups cmd))) texels).
  fold (run_schedule us v i (schedule b2 (invocations (cmd_workgroups cmd))) texels).
  rewrite (run_schedule_same_invocations us v i _
             (schedule b2 (invocations (cmd_workgroups cmd)))).
  - reflexivity.
  - intros g. apply fair_schedules_agree; assumption.
Qed.

Lemma run_pending_fair (b1 b2 : Backend) (dev : GPUDevice) :
  fair_schedule b1 -> fair_schedule b2 ->
  run_pending b1 dev = run_pending b2 dev.
Proof.
  intros H1 H2. unfold run_pending. generalize (pending dev). intros cmds.
  revert dev. induction cmds as [| cmd cmds IH]; intros dev; cbn [fold_left].
  - reflexivity.
  - rewrite (run_command_fair b1 b2 cmd dev H1 H2). apply IH.
Qed.

Lemma bind_ext {A B : Type} (m1 m2 : GPU A) (k1 k2 : A -> GPU B)
    (dev : GPUDevice) :
  m1 dev = m2 dev -> (forall a d, k1 a d = k2 a d) ->
  bind m1 k1 dev = bind m2 k2 dev.
Proof.
  intros Hm Hk. unfold bind. rewrite Hm.
  destruct (m2 dev) as [d [a | e]]; [apply Hk | reflexivity].
Qed.

(** Two devices that throw at the same calls and are fair run the driver
    alike. *)
Lemma computeDistanceField_fair (b1 b2 : Backend) (mesh : Mesh)
    (config : PartialConfig) (dev : GPUDevice) :
  (forall c, throws b1 c = throws b2 c) ->
  fair_schedule b1 -> fair_schedule b2 ->
  computeDistanceField b1 mesh config dev
  = computeDistanceField b2 mesh config dev.
Proof.
  intros Hthrows H1 H2. unfold computeDistanceField. cbv zeta.
  repeat (apply bind_ext;
          [ unfold createTexture, createBuffer, call, submit,
              onSubmittedWorkDone, destroy;
            rewrite ?Hthrows, ?(run_pending_fair b1 b2 _ H1 H2); reflexivity
          | intros ? ?; cbv beta ]).
  reflexivity.
Qed.

Lemma ceil_div_covers (n : Z) : (n <= 8 * ceil_div n 8)%Z.
Proof.
  unfold ceil_div. pose proof (Z.mul_div_le (- n) 8 ltac:(lia)). lia.
Qed.

Lemma elem_of_invocations (nx ny nz gx gy gz : Z) :
  (gx, gy, gz) ∈ invocations (nx, ny, nz)
  <-> (0 <= gx < 8 * nx /\ 0 <= gy < 8 * ny /\ 0 <= gz < 8 * nz)%Z.
Proof.
  unfold invocations. rewrite list_elem_of_bind. split.
  - intros (z & Hz & Hzin). apply list_elem_of_bind in Hz as (y & Hy & Hyin).
    apply list_elem_of_bind in Hy as (x & Hx & Hxin).
    apply list_elem_of_singleton in Hx. injection Hx as -> -> ->.
    apply elem_of_seqZ in Hxin, Hyin, Hzin. lia.
  - intros (Hx & Hy & Hz). exists gz. split; [| apply elem_of_seqZ; lia].
    apply list_elem_of_bind. exists gy. split; [| apply elem_of_seqZ; lia].
    apply list_elem_of_bind. exists gx. split; [| apply elem_of_seqZ; lia].
    apply list_elem_of_singleton. reflexivity.
Qed.

(** What the output texture holds when the driver returns, on a device
    whose queue was empty at the call. *)
Lemma output_texels (b : Backend) (mesh : Mesh) (cfg : DistanceFieldConfig)
    (dev : GPUDevice) :
  pending dev = [] ->
  textures (final_device b mesh cfg dev) !! next_handle dev
  = Some (resolution cfg,
          run_schedule (uniforms_of mesh cfg) (vertices mesh) (indices mesh)
            (schedule b (invocations (command_of cfg dev).(cmd_workgroups))) ∅).
Proof.
  intros Hidle.
  set (staged := staged_device mesh cfg dev).
  assert (Hu : buffers staged !! S (S (S (next_handle dev)))
               = Some (F32Array (uniformData_of mesh cfg))).
  { unfold staged, staged_device. cbn [buffers]. apply lookup_insert_eq. }
  assert (Hv : buffers staged !! S (next_handle dev)
               = Some (F32Array (vertices mesh))).
  { unfold staged, staged_device. cbn [buffers].
    rewrite !lookup_insert_ne by lia. apply lookup_insert_eq. }
  assert (Hi : buffers staged !! S (S (next_handle dev))
               = Some (U32Array (indices mesh))).
  { unfold staged, staged_device. cbn [buffers].
    rewrite lookup_insert_ne by lia. apply lookup_insert_eq. }
  assert (Ht : textures staged !! next_handle dev = Some (resolution cfg, ∅)).
  { unfold staged, staged_device. cbn [textures]. apply lookup_insert_eq. }
  assert (Hp : pending staged = [command_of cfg dev]).
  { unfold staged, staged_device. cbn [pending]. rewrite Hidle. reflexivity. }
  unfold final_device. cbn [textures]. fold staged.
  unfold run_pending. rewrite Hp. cbn [fold_left]. unfold run_command.
  cbn [command_of cmd_bindings binding0 binding1 binding2 binding3].
  rewrite Hu, Hv, Hi, Ht.
  change (read_uniforms (uniformData_of mesh cfg)) with (Some (uniforms_of mesh cfg)).
  cbn [textures]. rewrite lookup_insert_eq. reflexivity.
Qed.

(** C8: two runs of the conversion on the same mesh and configuration,
    on devices that run the invocations of the dispatch in different
    orders, end in the same state and return the same field: the grids
    are equal.  The texel of every voxel is the value [signed_distance]
    computes from the mesh arrays and the uniforms, which are made from
    the mesh and the configuration. *)
Theorem conversion_independent_of_schedule (b1 b2 : Backend) (mesh : Mesh)
    (config : PartialConfig) (dev : GPUDevice) :
  (forall c, throws b1 c = throws b2 c) ->
  fair_schedule b1 -> fair_schedule b2 ->
  computeDistanceField b1 mesh config dev
  = computeDistanceField b2 mesh config dev
  /\ forall (dev' : GPUDevice) (df : DistanceField) (gx gy gz : Z),
       computeDistanceField b1 mesh config dev = (dev', Return df) ->
       pending dev = [] ->
       let cfg := merge_config config in
       (resolution cfg <= 4294967295)%Z ->
       (0 <= gx < resolution cfg)%Z ->
       (0 <= gy < resolution cfg)%Z ->
       (0 <= gz < resolution cfg)%Z ->
       texel dev' (texture df) (gx, gy, gz)
       = Some (signed_distance (uniforms_of mesh cfg) (vertices mesh)
                               (indices mesh) (gx, gy, gz)).
Proof.
  intros Hthrows H1 H2. split.
  - apply computeDistanceField_fair; assumption.
  - intros dev' df gx gy gz Hrun Hidle cfg Hres Hx Hy Hz.
    destruct (computeDistanceField_returns _ _ _ _ _ _ Hrun) as [-> ->].
    unfold texel. cbn [texture field_of]. fold cfg.
    rewrite (output_texels b1 mesh cfg dev Hidle). cbn [mbind option_bind].
    rewrite run_schedule_lookup.
    assert (Hu : u32 (Shader.resolution (uniforms_of mesh cfg)) = Sdf.resolution cfg).
    { cbn [uniforms_of Shader.resolution]. apply u32_IZR. lia. }
    rewrite bool_decide_eq_true_2.
    + unfold in_grid. rewrite Hu.
      destruct (Sdf.resolution cfg <=? gx)%Z eqn:Ex; [lia |].
      destruct (Sdf.resolution cfg <=? gy)%Z eqn:Ey; [lia |].
      destruct (Sdf.resolution cfg <=? gz)%Z eqn:Ez; [lia |].
      reflexivity.
    + rewrite (H1 _). cbn [command_of cmd_workgroups].
      apply elem_of_invocations.
      pose proof (ceil_div_covers (Sdf.resolution cfg)). lia.
Qed.

Lemma quiet_backend_fair : fair_schedule quiet_backend.
Proof. intros l. reflexivity. Qed.

Lemma reversing_backend_fair : fair_schedule reversing_backend.
Proof.
  intros l. cbn [schedule reversing_backend]. symmetry. apply Permutation_rev.
Qed.

Lemma conversion_independent_of_schedule_witness :
  let config := mkPartialConfig (Some 2%Z) (Some 0) in
  let cfg := merge_config config in
  (forall c, throws quiet_backend c = throws reversing_backend c) /\
  fair_schedule quiet_backend /\ fair_schedule reversing_backend /\
  computeDistanceField quiet_backend unit_mesh config idle_device
  = computeDistanceField reversing_backend unit_mesh config idle_device /\
  computeDistanceField quiet_backend unit_mesh config idle_device
  = (final_device quiet_backend unit_mesh cfg idle_device,
     Return (field_of unit_mesh cfg idle_device)) /\
  texel (final_device quiet_backend unit_mesh cfg idle_device)
        (texture (field_of unit_mesh cfg idle_device)) (0, 0, 0)%Z
  = Some (signed_distance (uniforms_of unit_mesh cfg) (vertices unit_mesh)
                          (indices unit_mesh) (0, 0, 0)%Z).
Proof.
  intros config cfg.
  assert (Hthrows : forall c, throws quiet_backend c = throws reversing_backend c)
    by (intros c; reflexivity).
  assert (Hrun : computeDistanceField quiet_backend unit_mesh config idle_device
                 = (final_device quiet_backend unit_mesh cfg idle_device,
                    Return (field_of unit_mesh cfg idle_device))).
  { apply computeDistanceField_quiet. intros c. reflexivity. }
  destruct (conversion_independent_of_schedule quiet_backend reversing_backend
              unit_mesh config idle_device Hthrows quiet_backend_fair
              reversing_backend_fair) as [Hsame Htexel].
  split; [exact Hthrows |]. split; [exact quiet_backend_fair |].
  split; [exact reversing_backend_fair |]. split; [exact Hsame |].
  split; [exact Hrun |].
  apply (Htexel _ _ 0%Z 0%Z 0%Z Hrun eq_refl); cbn; lia.
Defined.

End Determinism.

(** ** The OBJ loader *)

Section LoaderFacts.
Import Types ObjLoader MeshSpec.

Variable parseFloat : string -> option R.

Lemma parseVertex_length (parts : list string) (vertices vertices' : list R)
    (lineNum : nat) :
  parseVertex parseFloat parts vertices lineNum = Ok vertices' ->
  length vertices' = (length vertices + 3)%nat.
Proof.
  unfold parseVertex. destruct (length parts <? 4)%nat; [discriminate |].
  destruct (parseFloat _) as [vx |]; [| discriminate].
  destruct (parseFloat _) as [vy |]; [| discriminate].
  destruct (parseFloat _) as [vz |]; [| discriminate].
  intros [= <-]. rewrite length_app. reflexivity.
Qed.

(** Every index that the first loop of [parseFace] keeps is in range. *)
Lemma parseFaceIndices_in_range (parts : list string) (vertexCount : Z)
    (lineNum : nat) (faceIndices result : list Z) :
  Forall (fun i => (0 <= i < vertexCount)%Z) faceIndices ->
  parseFaceIndices parts vertexCount lineNum faceIndices = Ok result ->
  Forall (fun i => (0 <= i < vertexCount)%Z) result.
Proof.
  revert faceIndices. induction parts as [| part parts IH]; intros faceIndices Hin.
  - cbn. intros [= <-]. exact Hin.
  - cbn [parseFaceIndices].
    destruct (parseInt _) as [index |]; [| discriminate].
    destruct (0 <? index)%Z eqn:Epos; cbn [rbind].
    + destruct ((index - 1 <? 0) || (vertexCount <=? index - 1))%Z eqn:Erange;
        [discriminate |].
      apply IH. apply Forall_app. split; [exact Hin |].
      apply Forall_singleton. lia.
    + destruct (index <? 0)%Z eqn:Eneg; cbn [rbind]; [| discriminate].
      destruct ((vertexCount + index <? 0)
                || (vertexCount <=? vertexCount + index))%Z eqn:Erange;
        [discriminate |].
      apply IH. apply Forall_app. split; [exact Hin |].
      apply Forall_singleton. lia.
Qed.

(** An index of zero, and an index out of range, stop the loader. *)
Lemma parseFaceIndices_rejects (part : string) (parts : list string)
    (vertexCount : Z) (lineNum : nat) (faceIndices : list Z) (index : Z) :
  parseInt (nth 0 (split "/" part) EmptyString) = Some index ->
  (index = 0 \/ vertexCount < index \/ index < - vertexCount)%Z ->
  exists e, parseFaceIndices (part :: parts) vertexCount lineNum faceIndices
            = Err e.
Proof.
  intros Hparse Hbad. cbn [parseFaceIndices]. rewrite Hparse.
  destruct (0 <? index)%Z eqn:Epos; cbn [rbind].
  - destruct ((index - 1 <? 0) || (vertexCount <=? index - 1))%Z eqn:Erange;
      [eauto | lia].
  - destruct (index <? 0)%Z eqn:Eneg; cbn [rbind]; [| eauto].
    destruct ((vertexCount + index <? 0)
              || (vertexCount <=? vertexCount + index))%Z eqn:Erange;
      [eauto | lia].
Qed.

Lemma nth_in_range (P : Z -> Prop) (l : list Z) (i : nat) :
  Forall P l -> (i < length l)%nat -> P (nth i l 0%Z).
Proof.
  intros Hall Hi. rewrite Forall_forall in Hall. apply Hall.
  apply list_elem_of_In. apply nth_In. exact Hi.
Qed.

(** The fan triangulation appends whole triangles of indices it was given. *)
Lemma triangulate_spec (P : Z -> Prop) (faceIndices indices : list Z) :
  Forall P faceIndices -> Forall P indices ->
  Forall P (triangulate faceIndices indices)
  /\ length (triangulate faceIndices indices)
     = (length indices + 3 * (length faceIndices - 2))%nat.
Proof.
  intros Hface. unfold triangulate.
  assert (Hsteps : forall (steps : list nat) (acc : list Z),
            Forall (fun i => (i + 1 < length faceIndices)%nat) steps ->
            Forall P acc ->
            let r := fold_left
                       (fun indices i =>
                          indices ++ [nth 0 faceIndices 0%Z; nth i faceIndices 0%Z;
                                      nth (i + 1) faceIndices 0%Z])
                       steps acc in
            Forall P r /\ length r = (length acc + 3 * length steps)%nat).
  { induction steps as [| i steps IH]; intros acc Hsteps Hacc; cbn [fold_left].
    - split; [exact Hacc | cbn; lia].
    - apply Forall_cons in Hsteps as [Hi Hsteps].
      destruct (IH (acc ++ [nth 0 faceIndices 0%Z; nth i faceIndices 0%Z;
                            nth (i + 1) faceIndices 0%Z]) Hsteps) as [Hall Hlen].
      + apply Forall_app. split; [exact Hacc |].
        repeat apply Forall_cons_2; try apply Forall_nil_2;
          apply nth_in_range; try assumption; lia.
      + split; [exact Hall |]. rewrite Hlen, length_app. cbn [length]. lia. }
  intros Hind.
  destruct (Hsteps (seq 1 (length faceIndices - 2)) indices) as [Hall Hlen].
  - apply Forall_forall. intros i Hi. apply list_elem_of_In, in_seq in Hi. lia.
  - exact Hind.
  - split; [exact Hall |]. rewrite Hlen, length_seq. reflexivity.
Qed.

Lemma parseFace_spec (parts : list string) (indices indices' : list Z)
    (vertexCount : Z) (lineNum : nat) :
  Forall (fun i => (0 <= i < vertexCount)%Z) indices ->
  parseFace parts indices vertexCount lineNum = Ok indices' ->
  Forall (fun i => (0 <= i < vertexCount)%Z) indices'
  /\ exists added : nat, length indices' = (length indices + 3 * added)%nat.
Proof.
  intros Hind. unfold parseFace.
  destruct (length parts <? 4)%nat; [discriminate |].
  destruct (parseFaceIndices _ _ _ _) as [faceIndices |] eqn:Eface;
    cbn [rbind]; [| discriminate].
  intros [= <-].
  pose proof (parseFaceIndices_in_range _ _ _ _ _ (Forall_nil_2 _) Eface) as Hface.
  destruct (triangulate_spec _ faceIndices indices Hface Hind) as [Hall Hlen].
  split; [exact Hall | eauto].
Qed.

Lemma whole_vertex_count (vertices : list R) (vertexCount : nat) :
  length vertices = (3 * vertexCount)%nat ->
  (Z.of_nat (length vertices) / 3 = Z.of_nat vertexCount)%Z.
Proof.
  intros ->. rewrite Nat2Z.inj_mul, Z.mul_comm. apply Z.div_mul. lia.
Qed.

Lemma parseLine_invariant (st st' : ParsedOBJ) (lineNum : nat) (text : string) :
  parsed_invariant st ->
  parseLine parseFloat st lineNum text = Ok st' ->
  parsed_invariant st'.
Proof.
  intros (nv & nt & Hv & Hi & Hrange). unfold parseLine.
  destruct (_ || _)%bool; [intros [= <-]; exists nv, nt; tauto |].
  destruct (String.eqb _ "v").
  - destruct (parseVertex _ _ _ _) as [vertices |] eqn:Evertex;
      cbn [rbind]; [| discriminate].
    intros [= <-]. apply parseVertex_length in Evertex.
    exists (S nv), nt. cbn [parsed_vertices parsed_indices].
    split; [lia |]. split; [exact Hi |].
    eapply Forall_impl; [exact Hrange |]. cbn. intros i Hin. lia.
  - destruct (String.eqb _ "f"); [| intros [= <-]; exists nv, nt; tauto].
    destruct (parseFace _ _ _ _) as [indices |] eqn:Eface;
      cbn [rbind]; [| discriminate].
    intros [= <-]. rewrite (whole_vertex_count _ _ Hv) in Eface.
    destruct (parseFace_spec _ _ _ _ _ Hrange Eface) as [Hall [added Hlen]].
    exists nv, (nt + added)%nat. cbn [parsed_vertices parsed_indices].
    split; [exact Hv |]. split; [lia | exact Hall].
Qed.

Lemma parseLines_invariant (lines : list string) (lineNum : nat)
    (st st' : ParsedOBJ) :
  parsed_invariant st ->
  parseLines parseFloat lines lineNum st = Ok st' ->
  parsed_invariant st'.
Proof.
  revert lineNum st. induction lines as [| text lines IH]; intros lineNum st Hst.
  - cbn. intros [= <-]. exact Hst.
  - cbn [parseLines].
    destruct (parseLine parseFloat st lineNum text) as [st1 |] eqn:Eline;
      cbn [rbind]; [| discriminate].
    apply IH. exact (parseLine_invariant _ _ _ _ Hst Eline).
Qed.

Lemma parseOBJContent_invariant (content : string) (parsed : ParsedOBJ) :
  parseOBJContent parseFloat content = Ok parsed -> parsed_invariant parsed.
Proof.
  apply parseLines_invariant. exists 0%nat, 0%nat. cbn. auto.
Qed.

Lemma Uint32Array_in_range (n : Z) (a : list Z) :
  Forall (fun i => (0 <= i < n)%Z) a ->
  Forall (fun i => (0 <= i < n)%Z) (Uint32Array a).
Proof.
  intros Hall. unfold Uint32Array. apply Forall_fmap.
  eapply Forall_impl; [exact Hall |]. cbn. intros i Hi.
  pose proof (Z.mod_pos_bound i 4294967296 ltac:(lia)).
  pose proof (Z.mod_le i 4294967296 ltac:(lia) ltac:(lia)). lia.
Qed.

(** What [parseOBJ] returns when it returns a mesh. *)
Lemma parseOBJ_returns (objContent : string) (mesh : Mesh) :
  parseOBJ parseFloat objContent = Ok mesh ->
  exists parsed : ParsedOBJ,
    parseOBJContent parseFloat objContent = Ok parsed /\
    parsed_vertices parsed <> [] /\ parsed_indices parsed <> [] /\
    vertices mesh = parsed_vertices parsed /\
    indices mesh = Uint32Array (parsed_indices parsed) /\
    triangleCount mesh = INR (length (indices mesh)) / 3 /\
    computeBounds (vertices mesh) = Some (bounds mesh).
Proof.
  unfold parseOBJ.
  destruct (parseOBJContent parseFloat objContent) as [parsed |];
    cbn [rbind]; [| discriminate].
  destruct (parsed_vertices parsed) as [| v0 vs] eqn:Ev; [discriminate |].
  destruct (parsed_indices parsed) as [| i0 ir] eqn:Ei; [discriminate |].
  cbn [length Nat.eqb]. rewrite <- Ev, <- Ei.
  destruct (computeBounds (parsed_vertices parsed)) as [b |] eqn:Eb;
    [| discriminate].
  intros [= <-]. exists parsed. cbn [vertices indices triangleCount bounds].
  rewrite Ev, Ei in *. repeat split; try congruence.
Qed.

(** C9: a mesh returned by [parseOBJ] has whole vertices and whole
    triangles, its triangle count is the length of its index array
    divided by three, and each of its indices is below its number of
    vertices. *)
Theorem parseOBJ_mesh_invariant (objContent : string) (mesh : Mesh) :
  parseOBJ parseFloat objContent = Ok mesh -> mesh_invariant mesh.
Proof.
  intros Hparse.
  destruct (parseOBJ_returns _ _ Hparse)
    as (parsed & Hcontent & _ & _ & Hv & Hi & Hcount & _).
  destruct (parseOBJContent_invariant _ _ Hcontent) as (nv & nt & Hlv & Hli & Hrange).
  assert (Hlen : length (indices mesh) = (3 * nt)%nat).
  { rewrite Hi. unfold Uint32Array. rewrite length_fmap. exact Hli. }
  exists nv, nt. rewrite Hv. split; [exact Hlv |]. split; [exact Hlen |].
  split; [exact Hcount |]. split.
  - rewrite Hcount, Hlen, mult_INR. simpl (INR 3). field.
  - rewrite Hi. apply Uint32Array_in_range. exact Hrange.
Qed.

(** The loader returns no mesh without vertices or without triangles. *)
Lemma parseOBJ_not_empty (objContent : string) (mesh : Mesh) :
  parseOBJ parseFloat objContent = Ok mesh ->
  vertices mesh <> [] /\ indices mesh <> [].
Proof.
  intros Hparse.
  destruct (parseOBJ_returns _ _ Hparse)
    as (parsed & _ & Hnv & Hni & Hv & Hi & _).
  rewrite Hv, Hi. split; [exact Hnv |].
  destruct (parsed_indices parsed); [congruence | discriminate].
Qed.

End LoaderFacts.

Section LoaderRuns.
Import Types ObjLoader MeshSpec.

Lemma parseOBJ_mesh_invariant_witness :
  exists mesh : Mesh,
    parseOBJ parseFloat_integers quad_obj = Ok mesh /\ mesh_invariant mesh.
Proof.
  destruct (parseOBJ parseFloat_integers quad_obj) as [mesh | e] eqn:Hparse.
  - exists mesh. split; [reflexivity |].
    exact (parseOBJ_mesh_invariant parseFloat_integers quad_obj mesh Hparse).
  - exfalso. vm_compute in Hparse. discriminate.
Defined.

(** The tests of the repository on indices: a quad is cut in two
    triangles; negative indices count from the last vertex; an index
    beyond the vertices, and the index 0, stop the loader. *)
Example parseOBJ_quad_indices :
  (fun r => match r with Ok mesh => Some (indices mesh) | Err _ => None end)
    (parseOBJ parseFloat_integers quad_obj)
  = Some [0; 1; 2; 0; 2; 3]%Z.
Proof. vm_compute. reflexivity. Qed.

Example parseOBJ_negative_indices :
  (fun r => match r with Ok mesh => Some (indices mesh) | Err _ => None end)
    (parseOBJ parseFloat_integers
       ("v 0 0 0" ++ line_feed ++ "v 1 0 0" ++ line_feed ++ "v 0 1 0"
        ++ line_feed ++ "f -3 -2 -1")%string)
  = Some [0; 1; 2]%Z.
Proof. vm_compute. reflexivity. Qed.

Example parseOBJ_index_out_of_range :
  parseOBJ parseFloat_integers
    ("v 0 0 0" ++ line_feed ++ "v 1 0 0" ++ line_feed ++ "v 0 1 0"
     ++ line_feed ++ "f 1 2 4")%string
  = Err (FaceVertexIndexOutOfRange 4 3 4).
Proof. vm_compute. reflexivity. Qed.

Example parseOBJ_index_zero :
  parseOBJ parseFloat_integers
    ("v 0 0 0" ++ line_feed ++ "v 1 0 0" ++ line_feed ++ "v 0 1 0"
     ++ line_feed ++ "f 0 1 2")%string
  = Err (FaceVertexIndexZero 4).
Proof. vm_compute. reflexivity. Qed.

Example parseOBJ_index_too_negative :
  parseOBJ parseFloat_integers
    ("v 0 0 0" ++ line_feed ++ "v 1 0 0" ++ line_feed ++ "v 0 1 0"
     ++ line_feed ++ "f -4 1 2")%string
  = Err (FaceVertexIndexOutOfRange (-4) 3 4).
Proof. vm_compute. reflexivity. Qed.

Example parseOBJ_no_faces :
  parseOBJ parseFloat_integers ("v 0 0 0" ++ line_feed ++ "v 1 0 0")%string
  = Err NoFacesFound.
Proof. vm_compute. reflexivity. Qed.

Example parseOBJ_empty_file :
  parseOBJ parseFloat_integers EmptyString = Err NoVerticesFound.
Proof. vm_compute. reflexivity. Qed.

(** The loader takes a face whose vertices are on a line. *)
Example parseOBJ_triangle_without_area :
  (fun r => match r with
            | Ok mesh => Some (vertices mesh, indices mesh)
            | Err _ => None
            end)
    (parseOBJ parseFloat_integers
       ("v 0 0 0" ++ line_feed ++ "v 1 0 0" ++ line_feed ++ "v 2 0 0"
        ++ line_feed ++ "f 1 2 3")%string)
  = Some ([0; 0; 0; 1; 0; 0; 2; 0; 0], [0; 1; 2]%Z).
Proof. vm_compute. reflexivity. Qed.

End LoaderRuns.

(** ** Validation *)

Section Validation.
Import Types Gpu Sdf DriverSpec Samples ObjLoader.

(** C1, as amended: the conversion checks neither its configuration nor
    its mesh.  On a device none of whose calls throws it allocates the
    output texture and returns a distance field of the resolution it was
    given, whatever the resolution and the mesh; it fails only with the
    exception of a call on the device.  A mesh without vertices or
    without triangles is turned down before, by the loader, which
    touches no device. *)
Theorem conversion_validates_nothing (backend : Backend) (mesh : Mesh)
    (config : PartialConfig) (dev : GPUDevice) :
  (forall c, throws backend c = false) ->
  (exists (dev' : GPUDevice) (df : DistanceField),
     computeDistanceField backend mesh config dev = (dev', Return df) /\
     is_Some (textures dev' !! texture df) /\
     df_resolution df = resolution (merge_config config))
  /\ forall (parseFloat : string -> option R) (objContent : string)
            (loaded : Mesh),
       parseOBJ parseFloat objContent = Ok loaded ->
       vertices loaded <> [] /\ indices loaded <> [].
Proof.
  intros Hquiet. split.
  - exists (final_device backend mesh (merge_config config) dev),
           (field_of mesh (merge_config config) dev).
    split; [apply computeDistanceField_quiet; exact Hquiet |].
    split; [| reflexivity].
    unfold final_device. cbn [textures texture field_of].
    destruct (run_pending_buffers backend
                (staged_device mesh (merge_config config) dev)) as (_ & _ & Hdom).
    apply elem_of_dom. rewrite Hdom. cbn [staged_device textures].
    rewrite dom_insert_L. apply elem_of_union_l, elem_of_singleton. reflexivity.
  - intros parseFloat objContent loaded Hparse.
    exact (parseOBJ_not_empty parseFloat objContent loaded Hparse).
Qed.

Lemma conversion_validates_nothing_witness :
  let config := mkPartialConfig (Some 0%Z) None in
  (forall c, throws quiet_backend c = false) /\
  (exists (dev' : GPUDevice) (df : DistanceField),
     computeDistanceField quiet_backend empty_mesh config idle_device
     = (dev', Return df) /\
     is_Some (textures dev' !! texture df) /\
     df_resolution df = resolution (merge_config config)) /\
  forall (parseFloat : string -> option R) (objContent : string)
         (loaded : Mesh),
    parseOBJ parseFloat objContent = Ok loaded ->
    vertices loaded <> [] /\ indices loaded <> [].
Proof.
  intros config.
  assert (Hquiet : forall c, throws quiet_backend c = false)
    by (intros c; reflexivity).
  split; [exact Hquiet |].
  exact (conversion_validates_nothing quiet_backend empty_mesh config
           idle_device Hquiet).
Defined.

(** C1, where it fails: with a resolution of 0, and with a mesh that has
    neither vertices nor triangles, the conversion does not fail: it
    allocates its texture and returns. *)
Lemma zero_resolution_and_empty_mesh_accepted :
  (exists (dev' : GPUDevice) (df : DistanceField),
     computeDistanceField quiet_backend unit_mesh
       (mkPartialConfig (Some 0%Z) None) idle_device = (dev', Return df) /\
     df_resolution df = 0%Z /\
     dom (textures dev') = {[ 0%nat ]})
  /\ (exists (dev' : GPUDevice) (df : DistanceField),
        computeDistanceField quiet_backend empty_mesh
          (mkPartialConfig None None) idle_device = (dev', Return df) /\
        vertices empty_mesh = [] /\ indices empty_mesh = [] /\
        dom (textures dev') = {[ 0%nat ]}).
Proof.
  assert (Hquiet : forall c, throws quiet_backend c = false)
    by (intros c; reflexivity).
  assert (Hdom : forall mesh cfg,
            dom (textures (final_device quiet_backend mesh cfg idle_device))
            = {[ 0%nat ]}).
  { intros mesh cfg. unfold final_device. cbn [textures].
    destruct (run_pending_buffers quiet_backend
                (staged_device mesh cfg idle_device)) as (_ & _ & ->).
    cbn [staged_device textures idle_device next_handle].
    rewrite dom_insert_L, dom_empty_L. apply (right_id_L ∅ (∪)). }
  split.
  - eexists _, _. split; [apply computeDistanceField_quiet; exact Hquiet |].
    split; [reflexivity | apply Hdom].
  - eexists _, _. split; [apply computeDistanceField_quiet; exact Hquiet |].
    split; [reflexivity |]. split; [reflexivity | apply Hdom].
Qed.

End Validation.

(** ** The samples are what the loader and the driver make *)

Section SampleUniforms.
Import Types Sdf DriverSpec Samples.

Ltac eval_max :=
  unfold max3, Rmax; repeat destruct (Rle_dec _ _); lra.

Ltac eval_uniforms :=
  unfold uniforms_of, volumeBounds_of, halfExtent_of, boundsCenter, boundsSize,
    merge_config, DEFAULT_CONFIG;
  cbn [bounds triangleCount resolution padding resolution_opt padding_opt
       default from_option x y z min max unit_mesh distant_mesh flat_mesh
       edge_mesh];
  unfold unit_uniforms, distant_uniforms, flat_uniforms, edge_uniforms,
    Datatypes.id;
  f_equal; try reflexivity; f_equal; eval_max.

Lemma unit_bounds : computeBounds unit_vertices = Some (bounds unit_mesh).
Proof.
  cbn [computeBounds bounds_loop mbind option_bind x y z unit_vertices
       unit_mesh bounds].
  do 3 f_equal; f_equal; unfold Rmin, Rmax; repeat destruct (Rle_dec _ _); lra.
Qed.

Lemma distant_bounds : computeBounds distant_vertices = Some (bounds distant_mesh).
Proof.
  cbn [computeBounds bounds_loop mbind option_bind x y z distant_vertices
       distant_mesh bounds].
  do 3 f_equal; f_equal; unfold Rmin, Rmax; repeat destruct (Rle_dec _ _); lra.
Qed.

(** Resolution 2 and no padding on the unit triangle. *)
Lemma unit_uniforms_from_driver :
  uniforms_of unit_mesh (merge_config (mkPartialConfig (Some 2%Z) (Some 0)))
  = unit_uniforms.
Proof. eval_uniforms. Qed.

(** Resolution 1 and the default padding on the two distant triangles. *)
Lemma distant_uniforms_from_driver :
  uniforms_of distant_mesh (merge_config (mkPartialConfig (Some 1%Z) None))
  = distant_uniforms.
Proof. eval_uniforms. Qed.

Lemma flat_bounds : computeBounds flat_vertices = Some (bounds flat_mesh).
Proof.
  cbn [computeBounds bounds_loop mbind option_bind x y z flat_vertices
       flat_mesh bounds].
  do 3 f_equal; f_equal; unfold Rmin, Rmax; repeat destruct (Rle_dec _ _); lra.
Qed.

Lemma edge_bounds : computeBounds edge_vertices = Some (bounds edge_mesh).
Proof.
  cbn [computeBounds bounds_loop mbind option_bind x y z edge_vertices
       edge_mesh bounds].
  do 3 f_equal; f_equal;
    repeat match goal with
      | |- context [Rmin ?a ?b] =>
          first [ rewrite (Rmin_left a b) by lra
                | rewrite (Rmin_right a b) by lra ]
      | |- context [Rmax ?a ?b] =>
          first [ rewrite (Rmax_left a b) by lra
                | rewrite (Rmax_right a b) by lra ]
      end;
    lra.
Qed.

(** Resolution 2 and the default padding on the triangle without area. *)
Lemma flat_uniforms_from_driver :
  uniforms_of flat_mesh (merge_config (mkPartialConfig (Some 2%Z) None))
  = flat_uniforms.
Proof. eval_uniforms. Qed.

(** Resolution 4 and no padding on the two triangles one above the
    other. *)
Lemma edge_uniforms_from_driver :
  uniforms_of edge_mesh (merge_config (mkPartialConfig (Some 4%Z) (Some 0)))
  = edge_uniforms.
Proof. eval_uniforms. Qed.

End SampleUniforms.

(** * Further properties *)

(** ** The distance kernel on every input *)

Section KernelMore.
Import Wgsl Shader Spec.









End KernelMore.

(** ** The sign *)

Section SignMore.
Import Wgsl Shader Spec GridSpec.



Lemma sign_values (a : R) : sign a = -1 \/ sign a = 0 \/ sign a = 1.
Proof.
  unfold sign. destruct (Rlt_dec 0 a); [tauto |].
  destruct (Rlt_dec a 0); tauto.
Qed.










End SignMore.

(** ** Reading the mesh, and what a texel can hold *)

Section GridMore.
Import Wgsl Shader Spec GridSpec Types Triangles MeshSpec Samples.

Lemma wrap32_small (z : Z) : (0 <= z < 4294967296)%Z -> wrap32 z = z.
Proof. intros Hz. unfold wrap32. apply Z.mod_small. exact Hz. Qed.

Lemma load_element {A : Type} (a : list A) (i : Z) :
  (0 <= i)%Z -> load a i = element a i.
Proof.
  intros Hi. unfold load, element.
  destruct (i <? 0)%Z eqn:E; [lia | reflexivity].
Qed.

Lemma element_in_range {A : Type} (a : list A) (i : Z) :
  (0 <= i < Z.of_nat (Datatypes.length a))%Z -> exists x, element a i = Some x.
Proof.
  intros Hi. unfold element. destruct (i <? 0)%Z eqn:E; [lia |].
  apply lookup_lt_is_Some. lia.
Qed.

(** Vertex [i] of an array of fewer than 2^32 floats, as the shader and
    as the host read it. *)
Lemma vertex_read (vs : list R) (vertexCount : nat) (i : Z) :
  Datatypes.length vs = (3 * vertexCount)%nat ->
  (Z.of_nat (Datatypes.length vs) <= 4294967296)%Z ->
  (0 <= i < Z.of_nat vertexCount)%Z ->
  exists a b c : R,
    get_vertex vs i = Some (Vec3f a b c) /\
    element vs (i * 3) = Some a /\ element vs (i * 3 + 1) = Some b /\
    element vs (i * 3 + 2) = Some c.
Proof.
  intros Hlen Hsmall Hi.
  destruct (element_in_range vs (i * 3) ltac:(lia)) as [a Ha].
  destruct (element_in_range vs (i * 3 + 1) ltac:(lia)) as [b Hb].
  destruct (element_in_range vs (i * 3 + 2) ltac:(lia)) as [c Hc].
  exists a, b, c. split; [| tauto].
  unfold get_vertex. cbv zeta.
  rewrite (wrap32_small (i * 3)) by lia.
  rewrite (wrap32_small (i * 3 + 1)) by lia.
  rewrite (wrap32_small (i * 3 + 2)) by lia.
  rewrite !load_element by lia. rewrite Ha, Hb, Hc. reflexivity.
Qed.

(** Triangle [t] of a mesh that keeps its invariant, as the shader and as
    the host read it. *)
Lemma triangle_read (mesh : Mesh) (t : Z) :
  mesh_invariant mesh ->
  (Z.of_nat (Datatypes.length (vertices mesh)) <= 4294967296)%Z ->
  (Z.of_nat (Datatypes.length (indices mesh)) <= 4294967296)%Z ->
  (0 <= t)%Z -> (3 * t + 2 < Z.of_nat (Datatypes.length (indices mesh)))%Z ->
  exists a b c : vec3f,
    get_triangle (vertices mesh) (indices mesh) t = Some (a, b, c) /\
    getTriangle mesh t
    = Some (mkTriangle (of_vec3f a) (of_vec3f b) (of_vec3f c)).
Proof.
  intros (nv & nt & Hlv & Hli & _ & _ & Hrange) Hvs His Ht Hin.
  destruct (element_in_range (indices mesh) (t * 3) ltac:(lia)) as [i0 H0].
  destruct (element_in_range (indices mesh) (t * 3 + 1) ltac:(lia)) as [i1 H1].
  destruct (element_in_range (indices mesh) (t * 3 + 2) ltac:(lia)) as [i2 H2].
  assert (Hidx : forall k i, (0 <= k)%Z -> element (indices mesh) k = Some i ->
                   (0 <= i < Z.of_nat nv)%Z).
  { intros k i Hk He. unfold element in He.
    destruct (k <? 0)%Z; [discriminate |].
    rewrite Forall_forall in Hrange. apply Hrange.
    apply list_elem_of_lookup. eauto. }
  destruct (vertex_read _ nv i0 Hlv Hvs (Hidx (t * 3)%Z i0 ltac:(lia) H0))
    as (x0 & y0 & z0 & Hv0 & Hx0 & Hy0 & Hz0).
  destruct (vertex_read _ nv i1 Hlv Hvs (Hidx (t * 3 + 1)%Z i1 ltac:(lia) H1))
    as (x1 & y1 & z1 & Hv1 & Hx1 & Hy1 & Hz1).
  destruct (vertex_read _ nv i2 Hlv Hvs (Hidx (t * 3 + 2)%Z i2 ltac:(lia) H2))
    as (x2 & y2 & z2 & Hv2 & Hx2 & Hy2 & Hz2).
  exists (Vec3f x0 y0 z0), (Vec3f x1 y1 z1), (Vec3f x2 y2 z2). split.
  - unfold get_triangle. cbv zeta.
    rewrite (wrap32_small (t * 3)) by lia.
    rewrite (wrap32_small (t * 3 + 1)) by lia.
    rewrite (wrap32_small (t * 3 + 2)) by lia.
    rewrite !load_element by lia. rewrite H0, H1, H2.
    cbn [mbind option_bind]. rewrite Hv0, Hv1, Hv2. reflexivity.
  - unfold getTriangle. rewrite H0, H1, H2.
    cbn [fmap option_fmap option_map mbind option_bind].
    rewrite Hx0, Hy0, Hz0, Hx1, Hy1, Hz1, Hx2, Hy2, Hz2. reflexivity.
Qed.

(** X8: on a mesh that keeps the mesh invariant and whose arrays have at
    most 2^32 elements, the shader can read every triangle, and reads the
    three vertices that [getTriangle] returns on the host. *)
Theorem shader_and_host_read_the_same_triangle (mesh : Mesh) (t : Z) :
  mesh_invariant mesh ->
  (Z.of_nat (Datatypes.length (vertices mesh)) <= 4294967296)%Z ->
  (Z.of_nat (Datatypes.length (indices mesh)) <= 4294967296)%Z ->
  (0 <= t)%Z -> (3 * t + 2 < Z.of_nat (Datatypes.length (indices mesh)))%Z ->
  exists a b c : vec3f,
    get_triangle (vertices mesh) (indices mesh) t = Some (a, b, c) /\
    getTriangle mesh t
    = Some (mkTriangle (of_vec3f a) (of_vec3f b) (of_vec3f c)).
Proof. apply triangle_read. Qed.

(** The mesh of the test of [getTriangle] in the repository: two
    triangles on four vertices. *)
Lemma shader_and_host_read_the_same_triangle_witness :
  let mesh :=
    mkMesh [0; 0; 0; 1; 0; 0; 0; 1; 0; 1; 1; 0] [0; 1; 2; 1; 3; 2]%Z 2
           (mkBoundingBox (mkVec3 0 0 0) (mkVec3 1 1 0)) in
  mesh_invariant mesh /\
  exists a b c : vec3f,
    get_triangle (vertices mesh) (indices mesh) 1 = Some (a, b, c) /\
    getTriangle mesh 1
    = Some (mkTriangle (of_vec3f a) (of_vec3f b) (of_vec3f c)).
Proof.
  intros mesh.
  assert (Hinv : mesh_invariant mesh).
  { exists 4%nat, 2%nat. cbn [vertices indices triangleCount mesh Datatypes.length].
    split; [reflexivity |]. split; [reflexivity |].
    split; [simpl; lra |]. split; [simpl; lra |].
    repeat constructor; lia. }
  split; [exact Hinv |].
  apply (shader_and_host_read_the_same_triangle mesh 1 Hinv);
    cbn [vertices indices mesh Datatypes.length]; lia.
Defined.

(** Out of range [getTriangle] has no triangle to give. *)
Lemma getTriangle_out_of_range (mesh : Mesh) (t : Z) :
  (t < 0 \/ Z.of_nat (Datatypes.length (indices mesh)) <= t * 3)%Z ->
  getTriangle mesh t = None.
Proof.
  intros Hout. unfold getTriangle.
  assert (Hnone : element (indices mesh) (t * 3) = None).
  { unfold element. destruct (t * 3 <? 0)%Z eqn:E; [reflexivity |].
    apply lookup_ge_None. lia. }
  rewrite Hnone. reflexivity.
Qed.

Lemma compute_sign_values (p t0 t1 t2 : vec3f) (s : R) :
  compute_sign p t0 t1 t2 = Some s -> s = -1 \/ s = 0 \/ s = 1.
Proof.
  unfold compute_sign. destruct (triangle_normal t0 t1 t2); [| discriminate].
  cbn [mbind option_bind]. intros [= <-]. apply sign_values.
Qed.

(** The running minimum of the loop of [main] stays between 0 and its
    initial value. *)
Lemma closest_step_bounds (vertices : list R) (indices : list Z) (p : vec3f)
    (acc : option (R * Z)) (i : Z) (m : R) (k : Z) :
  (forall m0 k0, acc = Some (m0, k0) -> 0 <= m0 <= 1e10) ->
  closest_step vertices indices p acc i = Some (m, k) -> 0 <= m <= 1e10.
Proof.
  intros Hacc. unfold closest_step.
  destruct acc as [[m0 k0] |]; [| discriminate]. cbn [mbind option_bind].
  destruct (get_triangle vertices indices i) as [[[t0 t1] t2] |];
    [| discriminate].
  cbn [mbind option_bind].
  destruct (point_triangle_distance_defined p t0 t1 t2) as (d & -> & Hd).
  cbn [mbind option_bind]. pose proof (Hacc m0 k0 eq_refl) as Hm0.
  destruct (Rlt_dec d m0); intros [= <- <-]; lra.
Qed.

Lemma closest_fold_bounds (vertices : list R) (indices : list Z) (p : vec3f)
    (l : list Z) (acc : option (R * Z)) (m : R) (k : Z) :
  (forall m0 k0, acc = Some (m0, k0) -> 0 <= m0 <= 1e10) ->
  fold_left (closest_step vertices indices p) l acc = Some (m, k) ->
  0 <= m <= 1e10.
Proof.
  revert acc. induction l as [| i l IH]; intros acc Hacc; cbn [fold_left].
  - apply Hacc.
  - apply IH. intros m0 k0. apply closest_step_bounds. exact Hacc.
Qed.

(** X9: whatever the mesh, a number that [main] writes to a texel has a
    magnitude of at most 1e10, the initial bound of the search. *)
Theorem stored_magnitude_at_most_initial_bound
    (u : Uniforms) (vertices : list R) (indices : list Z) (gid : Z * Z * Z)
    (output : texture_storage_3d) (v : R) :
  output !! gid = None ->
  main u vertices indices gid output !! gid = Some (Some v) ->
  Rabs v <= 1e10.
Proof.
  intros Hfree. rewrite main_guard.
  destruct (ScheduleSpec.in_grid u gid); [| rewrite Hfree; discriminate].
  rewrite lookup_insert_eq. unfold signed_distance.
  destruct (voxel_center u gid) as [p |]; [| discriminate].
  cbn [mbind option_bind].
  destruct (closest_loop vertices indices p (u32 (triangle_count u)))
    as [[m k] |] eqn:Hloop; [| discriminate].
  cbn [mbind option_bind].
  assert (Hm : 0 <= m <= 1e10).
  { apply (closest_fold_bounds vertices indices p _ _ m k) in Hloop;
      [exact Hloop |].
    intros m0 k0 [= <- <-]. lra. }
  destruct (get_triangle vertices indices k) as [[[t0 t1] t2] |];
    [| discriminate].
  cbn [mbind option_bind].
  destruct (compute_sign p t0 t1 t2) as [s |] eqn:Hs; [| discriminate].
  cbn [mbind option_bind]. intros [= <-].
  destruct (compute_sign_values _ _ _ _ _ Hs) as [-> | [-> | ->]];
    unfold Rabs; destruct (Rcase_abs _); lra.
Qed.

Lemma stored_magnitude_at_most_initial_bound_witness :
  (∅ : texture_storage_3d) !! (0, 0, 0)%Z = None /\
  main unit_uniforms unit_vertices unit_indices (0, 0, 0)%Z ∅ !! (0, 0, 0)%Z
  = Some (Some (-1 * (1/4))) /\
  Rabs (-1 * (1/4)) <= 1e10.
Proof.
  assert (Hres : u32 (resolution unit_uniforms) = 2%Z) by exact u32_2.
  assert (Hcount : u32 (triangle_count unit_uniforms) = 1%Z) by exact u32_1.
  assert (Hin : (0 <= 0 < u32 (resolution unit_uniforms))%Z)
    by (rewrite Hres; lia).
  assert (Hread : forall j, (0 <= j < u32 (triangle_count unit_uniforms))%Z ->
            is_Some (get_triangle unit_vertices unit_indices j))
    by (rewrite Hcount; exact unit_readable).
  assert (Hmain : main unit_uniforms unit_vertices unit_indices (0, 0, 0)%Z ∅
                    !! (0, 0, 0)%Z = Some (Some (-1 * (1/4)))).
  { rewrite main_in_range by assumption. rewrite lookup_insert_eq.
    rewrite (closest_loop_first_closest _ _ _ _ 0 (1/4) Hread
               unit_first_closest ltac:(lra)).
    cbn [mbind option_bind]. rewrite unit_triangle_sign. reflexivity. }
  assert (Hfree : (∅ : texture_storage_3d) !! (0, 0, 0)%Z = None)
    by apply lookup_empty.
  split; [exact Hfree |]. split; [exact Hmain |].
  exact (stored_magnitude_at_most_initial_bound _ _ _ _ _ _ Hfree Hmain).
Defined.

End GridMore.

(** ** The driver: the grid it fills, and what it leaves alone *)

Section DriverMore.
Import Wgsl Types Gpu Sdf BoundsSpec DriverSpec ScheduleSpec GridSpec Samples.





Lemma u32_IZR_clamped (n : Z) :
  (n <= 4294967295)%Z -> u32 (IZR n) = Z.max 0 n.
Proof.
  intros Hn. unfold u32.
  replace (Int_part (IZR n)) with n; [lia |].
  apply Int_part_spec. lra.
Qed.

(** X11: when the conversion returns, on a device whose queue was empty
    and that runs every invocation, the texels written in the output
    texture are those of the voxels (gx, gy, gz) with 0 <= gx, gy, gz <
    resolution, and no other: resolution^3 cells. *)
Theorem exactly_the_grid_is_written (backend : Backend) (mesh : Mesh)
    (config : PartialConfig) (dev dev' : GPUDevice) (df : DistanceField)
    (gx gy gz : Z) :
  computeDistanceField backend mesh config dev = (dev', Return df) ->
  pending dev = [] -> fair_schedule backend ->
  (resolution (merge_config config) <= 4294967295)%Z ->
  is_Some (texel dev' (texture df) (gx, gy, gz))
  <-> (0 <= gx < df_resolution df /\ 0 <= gy < df_resolution df
       /\ 0 <= gz < df_resolution df)%Z.
Proof.
  intros Hrun Hidle Hfair Hres.
  destruct (computeDistanceField_returns _ _ _ _ _ _ Hrun) as [-> ->].
  set (cfg := merge_config config) in *.
  unfold texel. cbn [texture df_resolution field_of].
  rewrite (output_texels backend mesh cfg dev Hidle). cbn [mbind option_bind].
  rewrite run_schedule_lookup.
  assert (Hu : u32 (Shader.resolution (uniforms_of mesh cfg))
               = Z.max 0 (resolution cfg)).
  { cbn [uniforms_of Shader.resolution]. apply u32_IZR_clamped. exact Hres. }
  assert (Hmem : (gx, gy, gz)
                 ∈ schedule backend (invocations (cmd_workgroups (command_of cfg dev)))
                 <-> (0 <= gx < 8 * ceil_div (resolution cfg) 8
                      /\ 0 <= gy < 8 * ceil_div (resolution cfg) 8
                      /\ 0 <= gz < 8 * ceil_div (resolution cfg) 8)%Z).
  { rewrite (Hfair _). cbn [command_of cmd_workgroups].
    apply elem_of_invocations. }
  pose proof (ceil_div_covers (resolution cfg)) as Hcover.
  unfold in_grid. rewrite Hu. split.
  - intros Hsome.
    destruct (bool_decide _) eqn:Ein; cbn [andb] in Hsome;
      [| rewrite lookup_empty in Hsome; destruct Hsome; discriminate].
    apply bool_decide_eq_true_1 in Ein. apply Hmem in Ein.
    destruct (Z.max 0 (resolution cfg) <=? gx)%Z eqn:Ex;
      [cbn in Hsome; rewrite lookup_empty in Hsome; destruct Hsome; discriminate |].
    destruct (Z.max 0 (resolution cfg) <=? gy)%Z eqn:Ey;
      [cbn in Hsome; rewrite lookup_empty in Hsome; destruct Hsome; discriminate |].
    destruct (Z.max 0 (resolution cfg) <=? gz)%Z eqn:Ez;
      [cbn in Hsome; rewrite lookup_empty in Hsome; destruct Hsome; discriminate |].
    lia.
  - intros (Hx & Hy & Hz).
    rewrite bool_decide_eq_true_2 by (apply Hmem; lia).
    destruct (Z.max 0 (resolution cfg) <=? gx)%Z eqn:Ex; [lia |].
    destruct (Z.max 0 (resolution cfg) <=? gy)%Z eqn:Ey; [lia |].
    destruct (Z.max 0 (resolution cfg) <=? gz)%Z eqn:Ez; [lia |].
    cbn. eauto.
Qed.

Lemma exactly_the_grid_is_written_witness :
  let config := mkPartialConfig (Some 2%Z) (Some 0) in
  let cfg := merge_config config in
  let dev' := final_device quiet_backend unit_mesh cfg idle_device in
  let df := field_of unit_mesh cfg idle_device in
  computeDistanceField quiet_backend unit_mesh config idle_device
  = (dev', Return df) /\
  pending idle_device = [] /\ fair_schedule quiet_backend /\
  (resolution cfg <= 4294967295)%Z /\
  (is_Some (texel dev' (texture df) (2, 0, 0)%Z)
   <-> (0 <= 2 < df_resolution df /\ 0 <= 0 < df_resolution df
        /\ 0 <= 0 < df_resolution df)%Z).
Proof.
  intros config cfg dev' df.
  assert (Hrun : computeDistanceField quiet_backend unit_mesh config idle_device
                 = (dev', Return df)).
  { apply computeDistanceField_quiet. intros c. reflexivity. }
  assert (Hres : (resolution cfg <= 4294967295)%Z) by (cbn; lia).
  split; [exact Hrun |]. split; [reflexivity |].
  split; [exact quiet_backend_fair |]. split; [exact Hres |].
  exact (exactly_the_grid_is_written quiet_backend unit_mesh config idle_device
           dev' df 2 0 0 Hrun eq_refl quiet_backend_fair Hres).
Defined.

(** A pass leaves every texture but its output as it was. *)
Lemma run_command_other_textures (b : Backend) (cmd : Command)
    (dev : GPUDevice) (h : nat) :
  h <> binding3 (cmd_bindings cmd) ->
  textures (run_command b cmd dev) !! h = textures dev !! h.
Proof.
  intros Hne. unfold run_command.
  destruct (buffers dev !! _) as [[u | ?] |]; try reflexivity.
  destruct (buffers dev !! _) as [[v | ?] |]; try reflexivity.
  destruct (buffers dev !! _) as [[? | i] |]; try reflexivity.
  destruct (textures dev !! binding3 _) as [[size texels] |]; try reflexivity.
  destruct (read_uniforms u); try reflexivity.
  cbn [textures]. apply lookup_insert_ne. congruence.
Qed.

(** X12: when the conversion returns, on a device whose queue was empty,
    the texture it returns is a new one, every other texture is as it
    was before the call, four handles have been given out and the queue
    is empty again. *)
Theorem conversion_touches_no_other_texture (backend : Backend) (mesh : Mesh)
    (config : PartialConfig) (dev dev' : GPUDevice) (df : DistanceField) :
  handles_fresh dev -> pending dev = [] ->
  computeDistanceField backend mesh config dev = (dev', Return df) ->
  textures dev !! texture df = None /\
  (forall h, h <> texture df -> textures dev' !! h = textures dev !! h) /\
  next_handle dev' = (next_handle dev + 4)%nat /\
  pending dev' = [].
Proof.
  intros Hfresh Hidle Hrun.
  destruct (computeDistanceField_returns _ _ _ _ _ _ Hrun) as [-> ->].
  cbn [texture field_of]. split; [apply Hfresh; lia |].
  unfold final_device. cbn [textures next_handle pending].
  set (cfg := merge_config config).
  assert (Hp : pending (staged_device mesh cfg dev) = [command_of cfg dev]).
  { unfold staged_device. cbn [pending]. rewrite Hidle. reflexivity. }
  unfold run_pending. rewrite Hp. cbn [fold_left]. split; [| split].
  - intros h Hne. rewrite run_command_other_textures by exact Hne.
    unfold staged_device. cbn [textures]. apply lookup_insert_ne. congruence.
  - destruct (run_command_buffers backend (command_of cfg dev)
                (staged_device mesh cfg dev)) as (_ & -> & _).
    unfold staged_device. cbn [next_handle]. lia.
  - reflexivity.
Qed.

Lemma conversion_touches_no_other_texture_witness :
  let config := mkPartialConfig (Some 2%Z) (Some 0) in
  let cfg := merge_config config in
  let dev' := final_device quiet_backend unit_mesh cfg idle_device in
  let df := field_of unit_mesh cfg idle_device in
  handles_fresh idle_device /\ pending idle_device = [] /\
  computeDistanceField quiet_backend unit_mesh config idle_device
  = (dev', Return df) /\
  textures idle_device !! texture df = None /\
  (forall h, h <> texture df -> textures dev' !! h = textures idle_device !! h) /\
  next_handle dev' = (next_handle idle_device + 4)%nat /\
  pending dev' = [].
Proof.
  intros config cfg dev' df.
  assert (Hrun : computeDistanceField quiet_backend unit_mesh config idle_device
                 = (dev', Return df)).
  { apply computeDistanceField_quiet. intros c. reflexivity. }
  split; [exact idle_device_fresh |]. split; [reflexivity |].
  split; [exact Hrun |].
  exact (conversion_touches_no_other_texture quiet_backend unit_mesh config
           idle_device dev' df idle_device_fresh eq_refl Hrun).
Defined.

End DriverMore.

(** ** The driver: what a failed conversion leaves behind *)

Section DriverFailure.
Import Types Gpu Sdf BoundsSpec DriverSpec Samples.

Ltac run_ok tac :=
  erewrite bind_Return;
  [ | first [ apply createTexture_ok | apply createBuffer_ok | apply call_ok
            | apply submit_ok | apply onSubmittedWorkDone_ok
            | apply destroy_ok ]; tac ];
  cbn [textures buffers next_handle pending].

Ltac run_throw tac :=
  erewrite bind_Throw;
  [ | first [ apply createTexture_throw | apply createBuffer_throw
            | apply call_throw | apply submit_throw
            | apply onSubmittedWorkDone_throw ]; tac ].

(** A map grows when fresh keys are added to it. *)
Ltac grows :=
  first
    [ reflexivity
    | apply map_subseteq_spec; intros ? ? ?;
      rewrite ?lookup_insert; repeat case_decide; subst; congruence ].

(** The call that throws ends the conversion: what the device is left
    with is read off there. *)
Ltac stopped :=
  intros Hstop; injection Hstop as <- <-;
  cbn [textures buffers next_handle pending];
  split; [assumption |];
  split; [grows |]; split; [grows |];
  split; [intros ?; first [reflexivity | discriminate] |];
  split;
  [ intros ?; first [congruence | apply lookup_insert_eq]
  | intros ? Hbuffer;
    first [ congruence | exfalso; eapply Hbuffer; reflexivity | reflexivity ] ].

Ltac next_call :=
  match goal with
  | |- context [bind (createTexture ?b _) _ _] =>
      destruct (throws b CreateTexture) eqn:?
  | |- context [bind (createBuffer ?b _ ?l) _ _] =>
      destruct (throws b (CreateBuffer l)) eqn:?
  | |- context [bind (call ?b ?c) _ _] =>
      destruct (throws b c) eqn:?
  | |- context [bind (submit ?b _) _ _] =>
      destruct (throws b Submit) eqn:?
  | |- context [bind (onSubmittedWorkDone ?b) _ _] =>
      destruct (throws b OnSubmittedWorkDone) eqn:?
  end;
  [ run_throw assumption; stopped | run_ok assumption ].

(** X13: a conversion that throws stops at a call the device refused
    and releases nothing.  Every buffer and texture alive before the
    call is still alive.  Unless the refused call is the creation of the
    output texture, which leaves the device as it was, that texture
    stays alive, and unless the refused call is the creation of a
    buffer, so do the vertex, index and uniform buffers. *)
Theorem failed_conversion_releases_nothing (backend : Backend) (mesh : Mesh)
    (config : PartialConfig) (dev dev' : GPUDevice) (c : GpuCall) :
  handles_fresh dev ->
  computeDistanceField backend mesh config dev = (dev', Throw c) ->
  let cfg := merge_config config in
  throws backend c = true /\
  buffers dev ⊆ buffers dev' /\
  textures dev ⊆ textures dev' /\
  (c = CreateTexture -> dev' = dev) /\
  (c <> CreateTexture ->
     textures dev' !! next_handle dev = Some (resolution cfg, ∅)) /\
  (c <> CreateTexture -> (forall label, c <> CreateBuffer label) ->
     buffers dev' = buffers (staged_device mesh cfg dev)).
Proof.
  intros Hfresh. cbv zeta.
  destruct (Hfresh (next_handle dev) ltac:(lia)) as [_ Ht0].
  destruct (Hfresh (S (next_handle dev)) ltac:(lia)) as [Hb1 _].
  destruct (Hfresh (S (S (next_handle dev))) ltac:(lia)) as [Hb2 _].
  destruct (Hfresh (S (S (S (next_handle dev)))) ltac:(lia)) as [Hb3 _].
  unfold computeDistanceField. cbv zeta.
  do 16 next_call.
  do 3 (run_ok idtac). discriminate.
Qed.

Lemma failed_conversion_releases_nothing_witness :
  let config := mkPartialConfig None None in
  let cfg := merge_config config in
  let dev' := mkDevice (textures (staged_device unit_mesh cfg idle_device))
                       (buffers (staged_device unit_mesh cfg idle_device))
                       4 [] in
  handles_fresh idle_device /\
  computeDistanceField no_pipeline_backend unit_mesh config idle_device
  = (dev', Throw CreateComputePipeline) /\
  throws no_pipeline_backend CreateComputePipeline = true /\
  buffers idle_device ⊆ buffers dev' /\
  textures idle_device ⊆ textures dev' /\
  (CreateComputePipeline = CreateTexture -> dev' = idle_device) /\
  (CreateComputePipeline <> CreateTexture ->
     textures dev' !! next_handle idle_device = Some (resolution cfg, ∅)) /\
  (CreateComputePipeline <> CreateTexture ->
   (forall label, CreateComputePipeline <> CreateBuffer label) ->
     buffers dev' = buffers (staged_device unit_mesh cfg idle_device)).
Proof.
  intros config cfg dev'.
  assert (Hrun : computeDistanceField no_pipeline_backend unit_mesh config
                   idle_device = (dev', Throw CreateComputePipeline))
    by reflexivity.
  split; [exact idle_device_fresh |]. split; [exact Hrun |].
  exact (failed_conversion_releases_nothing no_pipeline_backend unit_mesh config
           idle_device dev' CreateComputePipeline idle_device_fresh Hrun).
Defined.

End DriverFailure.

(** ** Bounding boxes *)

Section BoundsMore.
Import Types BoundsSpec BoxSpec.

Lemma bounds_loop_partial (n : nat) (rest : list R) (lo hi : Vec3) :
  (length rest <= n)%nat ->
  bounds_loop rest lo hi = None <-> (length rest mod 3 <> 0)%nat.
Proof.
  revert rest lo hi. induction n as [n IH] using lt_wf_ind.
  intros rest lo hi Hlen.
  destruct rest as [| x0 [| y0 [| z0 rest]]].
  - cbn. split; [discriminate | congruence].
  - cbn. split; [intros _; discriminate | reflexivity].
  - cbn. split; [intros _; discriminate | reflexivity].
  - cbn [bounds_loop]. cbn [length] in *.
    replace (S (S (S (length rest)))) with (length rest + 1 * 3)%nat by lia.
    rewrite Nat.Div0.mod_add.
    apply (IH (length rest)); lia.
Qed.

(** X14: the box has a component that is not a number exactly when the
    array holds at least one whole vertex and its length is not a
    multiple of three: the last turn of the loop then reads past the
    end.  An array of fewer than three numbers gives the zero box. *)
Theorem computeBounds_undefined_iff_partial_vertex (vertices : list R) :
  computeBounds vertices = None
  <-> (3 <= length vertices)%nat /\ (length vertices mod 3 <> 0)%nat.
Proof.
  destruct vertices as [| x0 [| y0 [| z0 rest]]].
  - cbn. split; [discriminate | lia].
  - cbn. split; [discriminate | lia].
  - cbn. split; [discriminate | lia].
  - cbn [computeBounds length].
    replace (S (S (S (length rest)))) with (length rest + 1 * 3)%nat by lia.
    rewrite Nat.Div0.mod_add.
    rewrite <- (bounds_loop_partial (length rest) rest (mkVec3 x0 y0 z0)
                  (mkVec3 x0 y0 z0)) by lia.
    destruct (bounds_loop rest _ _) as [[lo hi] |]; cbn.
    + split; [discriminate | intros [_ H]; discriminate].
    + split; [intros _; split; [lia | reflexivity] | reflexivity].
Qed.

Lemma bounds_loop_app (n : nat) (r1 r2 : list R) (lo hi : Vec3) :
  length r1 = (3 * n)%nat ->
  bounds_loop (r1 ++ r2) lo hi
  = '(lo', hi') ← bounds_loop r1 lo hi; bounds_loop r2 lo' hi'.
Proof.
  revert r1 lo hi. induction n as [| n IH]; intros r1 lo hi Hlen.
  - destruct r1; [| cbn in Hlen; lia]. cbn. reflexivity.
  - destruct r1 as [| x0 [| y0 [| z0 r1]]]; cbn [length] in Hlen; try lia.
    cbn [app bounds_loop]. apply IH. lia.
Qed.

Lemma bounds_loop_joined (n : nat) (r : list R) (lo hi lo2 hi2 l2 h2 : Vec3) :
  length r = (3 * n)%nat ->
  bounds_loop r lo2 hi2 = Some (l2, h2) ->
  bounds_loop r (lower lo lo2) (upper hi hi2)
  = Some (lower lo l2, upper hi h2).
Proof.
  revert r lo2 hi2. induction n as [| n IH]; intros r lo2 hi2 Hlen.
  - destruct r; [| cbn in Hlen; lia]. cbn. intros [= <- <-]. reflexivity.
  - destruct r as [| x0 [| y0 [| z0 r]]]; cbn [length] in Hlen; try lia.
    cbn [bounds_loop]. intros Hrun.
    rewrite <- (IH r _ _ ltac:(lia) Hrun).
    unfold lower, upper. cbn [x y z].
    rewrite !Rmin_assoc, !Rmax_assoc. reflexivity.
Qed.

(** X15: the box of two vertex arrays put end to end is the least box
    that holds the boxes of both: its corners are the component-wise
    minimum of the two minimum corners and the component-wise maximum of
    the two maximum corners. *)
Theorem computeBounds_of_concatenation (a b : list R) (na nb : nat) :
  length a = (3 * na)%nat -> (1 <= na)%nat ->
  length b = (3 * nb)%nat -> (1 <= nb)%nat ->
  exists ba bb : BoundingBox,
    computeBounds a = Some ba /\ computeBounds b = Some bb /\
    computeBounds (a ++ b) = Some (join ba bb).
Proof.
  intros Ha Hna Hb Hnb.
  destruct a as [| x0 [| y0 [| z0 ra]]]; cbn [length] in Ha; try lia.
  destruct b as [| x1 [| y1 [| z1 rb]]]; cbn [length] in Hb; try lia.
  destruct (bounds_loop_columns (na - 1) ra (mkVec3 x0 y0 z0) (mkVec3 x0 y0 z0)
              ltac:(lia)) as (la & ha & Hra & _).
  destruct (bounds_loop_columns (nb - 1) rb (mkVec3 x1 y1 z1) (mkVec3 x1 y1 z1)
              ltac:(lia)) as (lb & hb & Hrb & _).
  exists (mkBoundingBox la ha), (mkBoundingBox lb hb).
  cbn [app computeBounds]. rewrite Hra, Hrb. cbn [mbind option_bind].
  split; [reflexivity |]. split; [reflexivity |].
  rewrite (bounds_loop_app (na - 1)) by lia. rewrite Hra.
  cbn [mbind option_bind bounds_loop].
  change (bounds_loop rb (lower la (mkVec3 x1 y1 z1)) (upper ha (mkVec3 x1 y1 z1))
            ≫= (λ '(lo, hi), Some (mkBoundingBox lo hi))
          = Some (join (mkBoundingBox la ha) (mkBoundingBox lb hb))).
  rewrite (bounds_loop_joined (nb - 1) rb la ha _ _ lb hb ltac:(lia) Hrb).
  reflexivity.
Qed.

Lemma computeBounds_of_concatenation_witness :
  let a := [0; 0; 0; 1; 2; 3] in
  let b := [-1; 5; 1] in
  length a = (3 * 2)%nat /\ length b = (3 * 1)%nat /\
  exists ba bb : BoundingBox,
    computeBounds a = Some ba /\ computeBounds b = Some bb /\
    computeBounds (a ++ b) = Some (join ba bb).
Proof.
  intros a b. split; [reflexivity |]. split; [reflexivity |].
  apply (computeBounds_of_concatenation a b 2 1); cbn; lia.
Defined.



End BoundsMore.

(** ** The loader: faces, skipped lines, and the bounds of a loaded mesh *)

Section LoaderMore.
Import Types ObjLoader MeshSpec BoundsSpec BoxSpec FaceSpec Triangles.

Variable parseFloat : string -> option R.

Lemma parseFaceIndices_resolved (parts : list string) (vertexCount : Z)
    (lineNum : nat) (faceIndices result : list Z) :
  parseFaceIndices parts vertexCount lineNum faceIndices = Ok result
  <-> exists face, mapM (resolve vertexCount) parts = Some face
                   /\ result = faceIndices ++ face.
Proof.
  revert faceIndices. induction parts as [| part parts IH]; intros faceIndices.
  - cbn. split.
    + intros [= <-]. exists []. rewrite app_nil_r. auto.
    + intros (face & [= <-] & ->). rewrite app_nil_r. reflexivity.
  - assert (Hnext : forall zb,
      parseFaceIndices parts vertexCount lineNum (faceIndices ++ [zb]) = Ok result
      <-> exists face,
            (k ← mapM (resolve vertexCount) parts; mret (zb :: k)) = Some face
            /\ result = faceIndices ++ face).
    { intros zb. rewrite IH. split.
      - intros (face & Hface & ->). exists (zb :: face). rewrite Hface.
        split; [reflexivity | rewrite <- app_assoc; reflexivity].
      - intros (face & Hface & ->).
        destruct (mapM (resolve vertexCount) parts) as [k |];
          [| discriminate].
        cbn in Hface. injection Hface as <-. exists k.
        split; [reflexivity | rewrite <- app_assoc; reflexivity]. }
    assert (Hstop : forall e : OBJParseError,
      @Err (list Z) e = Ok result
      <-> exists face, @None (list Z) = Some face /\ result = faceIndices ++ face).
    { intros e. split; [discriminate | intros (? & ? & _); discriminate]. }
    cbn [parseFaceIndices mapM].
    destruct (parseInt (nth 0 (split "/" part) EmptyString)) as [index |]
      eqn:Eparse.
    2:{ replace (resolve vertexCount part) with (@None Z)
          by (unfold resolve; rewrite Eparse; reflexivity).
        apply Hstop. }
    replace (resolve vertexCount part)
      with (if ((0 <? index) && (index <=? vertexCount))%Z
            then Some (index - 1)%Z
            else if ((index <? 0) && (- vertexCount <=? index))%Z
                 then Some (vertexCount + index)%Z
                 else None)
      by (unfold resolve; rewrite Eparse; reflexivity).
    destruct (Z.ltb_spec 0 index); destruct (Z.leb_spec index vertexCount);
      destruct (Z.ltb_spec index 0);
      destruct (Z.leb_spec (- vertexCount) index);
      cbn [andb rbind]; try lia;
      try (destruct (Z.ltb_spec (index - 1) 0);
           destruct (Z.leb_spec vertexCount (index - 1)); try lia);
      try (destruct (Z.ltb_spec (vertexCount + index) 0);
           destruct (Z.leb_spec vertexCount (vertexCount + index)); try lia);
      cbn [orb mbind option_bind]; first [apply Hstop | apply Hnext].
Qed.

Lemma triangulate_fan (faceIndices indices : list Z) :
  triangulate faceIndices indices = indices ++ fan faceIndices.
Proof.
  unfold triangulate, fan. generalize (seq 1 (length faceIndices - 2)).
  intros steps. revert indices.
  induction steps as [| i steps IH]; intros indices; cbn [fold_left flat_map].
  - rewrite app_nil_r. reflexivity.
  - rewrite IH, <- app_assoc. reflexivity.
Qed.

Lemma parseFace_accepts (parts : list string) (indices indices' : list Z)
    (vertexCount : Z) (lineNum : nat) :
  parseFace parts indices vertexCount lineNum = Ok indices'
  <-> (4 <= length parts)%nat
      /\ exists face, mapM (resolve vertexCount) (tail parts) = Some face
                      /\ indices' = indices ++ fan face.
Proof.
  unfold parseFace. destruct (Nat.ltb_spec (length parts) 4).
  - split; [discriminate | lia].
  - destruct (parseFaceIndices _ _ _ _) as [faceIndices | e] eqn:Eface;
      cbn [rbind].
    + apply parseFaceIndices_resolved in Eface as (face & Hface & ->).
      cbn [app]. rewrite triangulate_fan, Hface. split.
      * intros [= <-]. eauto.
      * intros (_ & face' & [= <-] & ->). reflexivity.
    + split; [discriminate |]. intros (_ & face & Hface & _).
      assert (Hok : parseFaceIndices (tail parts) vertexCount lineNum []
                    = Ok ([] ++ face))
        by (apply parseFaceIndices_resolved; eauto).
      congruence.
Qed.

(** X17: a face line is accepted exactly when it names at least three
    vertices and every entry refers to a vertex read so far, counting
    from 1, or from the last vertex back when negative.  The index array
    then keeps what it held and gains the fan (f0, f1, f2), (f0, f2, f3),
    ... of the face: two triangles fewer than the face has vertices. *)
Theorem face_accepted_iff_entries_resolve (parts : list string)
    (indices indices' : list Z) (vertexCount : Z) (lineNum : nat) :
  parseFace parts indices vertexCount lineNum = Ok indices'
  <-> (4 <= length parts)%nat
      /\ exists face,
           Forall2 (fun part i => resolve vertexCount part = Some i)
                   (tail parts) face
           /\ indices' = indices ++ fan face
           /\ length indices'
              = (length indices + 3 * (length parts - 3))%nat.
Proof.
  rewrite parseFace_accepts. split.
  - intros (Hparts & face & Hface & ->). split; [exact Hparts |].
    exists face. split; [apply mapM_Some_1; exact Hface |].
    assert (Hlen : length face = (length parts - 1)%nat).
    { apply length_mapM in Hface. rewrite <- Hface.
      destruct parts; [cbn in Hparts; lia | cbn; lia]. }
    split; [reflexivity |].
    rewrite length_app. f_equal. unfold fan. rewrite Hlen.
    assert (Hsteps : length (seq 1 (length parts - 1 - 2))
                     = (length parts - 3)%nat) by (rewrite length_seq; lia).
    revert Hsteps. generalize (seq 1 (length parts - 1 - 2)). intros steps <-.
    clear. induction steps as [| i steps IH]; [reflexivity |].
    cbn [flat_map length app]. rewrite IH. lia.
  - intros (Hparts & face & Hface & -> & _). apply mapM_Some_2 in Hface. eauto.
Qed.











End LoaderMore.

Section LoaderMoreRuns.
Import Types ObjLoader MeshSpec FaceSpec.


End LoaderMoreRuns.

(** ** From the text of a mesh to the sampling volume *)

Section Pipeline.
Import Types ObjLoader MeshSpec BoundsSpec BoxSpec Triangles Gpu Sdf DriverSpec.

Variable parseFloat : string -> option R.

Lemma computeBounds_holds_vertices (vs : list R) (n : nat) (b : BoundingBox) :
  length vs = (3 * n)%nat -> (1 <= n)%nat -> computeBounds vs = Some b ->
  box_ordered b /\
  forall k a v, (a < 3)%nat -> coordinate vs a k = Some v ->
    component a (min b) <= v <= component a (max b).
Proof.
  intros Hlen Hn Hb.
  destruct (computeBounds_triples vs n Hlen Hn) as (b' & Hb' & Hall).
  rewrite Hb in Hb'. injection Hb' as <-. split.
  - assert (Hord : forall a, (a < 3)%nat ->
                     component a (min b) <= component a (max b)).
    { intros a Ha. destruct (Hall a Ha) as [[(k & Hk & Hfk) _] [_ Hup]].
      exact (Hup k _ Hk Hfk). }
    split; [exact (Hord 0%nat ltac:(lia)) |].
    split; [exact (Hord 1%nat ltac:(lia)) | exact (Hord 2%nat ltac:(lia))].
  - intros k a v Ha Hv. destruct (Hall a Ha) as [[_ Hlow] [_ Hup]].
    assert (Hk : (k < n)%nat).
    { unfold coordinate in Hv. apply lookup_lt_Some in Hv. lia. }
    split; [exact (Hlow k v Hk Hv) | exact (Hup k v Hk Hv)].
Qed.

(** Vertex [i] of an array of whole vertices, as the host reads it, lies
    in the box of the array. *)
Lemma vertex_inside (vs : list R) (n : nat) (b : BoundingBox) (i : Z) :
  length vs = (3 * n)%nat -> computeBounds vs = Some b ->
  (0 <= i < Z.of_nat n)%Z ->
  exists p : Vec3,
    element vs (i * 3) = Some (x p) /\ element vs (i * 3 + 1) = Some (y p) /\
    element vs (i * 3 + 2) = Some (z p) /\ inside p b.
Proof.
  intros Hlen Hb Hi.
  destruct (computeBounds_holds_vertices vs n b Hlen ltac:(lia) Hb)
    as [_ Hin].
  assert (Hread : forall a, (a < 3)%nat ->
            exists v, element vs (i * 3 + Z.of_nat a) = Some v
                      /\ coordinate vs a (Z.to_nat i) = Some v).
  { intros a Ha. unfold element, coordinate.
    destruct (i * 3 + Z.of_nat a <? 0)%Z eqn:E; [lia |].
    replace (Z.to_nat (i * 3 + Z.of_nat a)) with (3 * Z.to_nat i + a)%nat by lia.
    destruct (lookup_lt_is_Some_2 vs (3 * Z.to_nat i + a)%nat ltac:(lia))
      as [v Hv]. eauto. }
  destruct (Hread 0%nat ltac:(lia)) as (vx & Hex & Hcx).
  destruct (Hread 1%nat ltac:(lia)) as (vy & Hey & Hcy).
  destruct (Hread 2%nat ltac:(lia)) as (vz & Hez & Hcz).
  cbn [Z.of_nat Pos.of_succ_nat Pos.succ] in Hex, Hey, Hez.
  rewrite Z.add_0_r in Hex.
  exists (mkVec3 vx vy vz). cbn [x y z].
  split; [exact Hex |]. split; [exact Hey |]. split; [exact Hez |].
  pose proof (Hin _ 0%nat vx ltac:(lia) Hcx).
  pose proof (Hin _ 1%nat vy ltac:(lia) Hcy).
  pose proof (Hin _ 2%nat vz ltac:(lia) Hcz).
  unfold inside. cbn [x y z]. tauto.
Qed.

(** Triangle [t] of a loaded mesh, as the host reads it. *)
Lemma loaded_triangle (objContent : string) (mesh : Mesh) (t : Z) :
  parseOBJ parseFloat objContent = Ok mesh ->
  (0 <= t)%Z -> (3 * t + 2 < Z.of_nat (length (indices mesh)))%Z ->
  box_ordered (bounds mesh) /\
  exists tri : Triangle,
    getTriangle mesh t = Some tri /\
    inside (v0 tri) (bounds mesh) /\ inside (v1 tri) (bounds mesh) /\
    inside (v2 tri) (bounds mesh).
Proof.
  intros Hparse Ht Hin.
  destruct (parseOBJ_returns _ _ _ Hparse)
    as (parsed & Hcontent & Hnv & _ & Hv & Hi & _ & Hb).
  destruct (parseOBJContent_invariant _ _ _ Hcontent)
    as (nv & nt & Hlv & _ & Hrange).
  rewrite <- Hv in Hlv, Hnv.
  assert (Hn : (1 <= nv)%nat).
  { destruct (vertices mesh); [congruence | cbn in Hlv; lia]. }
  apply Uint32Array_in_range in Hrange. rewrite <- Hi in Hrange.
  split; [exact (proj1 (computeBounds_holds_vertices _ nv _ Hlv Hn Hb)) |].
  assert (Hidx : forall k, (0 <= k < Z.of_nat (length (indices mesh)))%Z ->
            exists i, element (indices mesh) k = Some i
                      /\ (0 <= i < Z.of_nat nv)%Z).
  { intros k Hk. unfold element. destruct (k <? 0)%Z eqn:E; [lia |].
    destruct (lookup_lt_is_Some_2 (indices mesh) (Z.to_nat k) ltac:(lia))
      as [i Hlook].
    exists i. split; [exact Hlook |].
    rewrite Forall_forall in Hrange. apply Hrange.
    apply list_elem_of_lookup. eauto. }
  destruct (Hidx (t * 3)%Z ltac:(lia)) as (i0 & H0 & Hi0).
  destruct (Hidx (t * 3 + 1)%Z ltac:(lia)) as (i1 & H1 & Hi1).
  destruct (Hidx (t * 3 + 2)%Z ltac:(lia)) as (i2 & H2 & Hi2).
  destruct (vertex_inside _ nv _ i0 Hlv Hb Hi0) as (p0 & Hx0 & Hy0 & Hz0 & Hp0).
  destruct (vertex_inside _ nv _ i1 Hlv Hb Hi1) as (p1 & Hx1 & Hy1 & Hz1 & Hp1).
  destruct (vertex_inside _ nv _ i2 Hlv Hb Hi2) as (p2 & Hx2 & Hy2 & Hz2 & Hp2).
  exists (mkTriangle p0 p1 p2). cbn [v0 v1 v2].
  split; [| tauto].
  unfold getTriangle. rewrite H0, H1, H2.
  cbn [fmap option_fmap option_map mbind option_bind].
  rewrite Hx0, Hy0, Hz0, Hx1, Hy1, Hz1, Hx2, Hy2, Hz2.
  cbn [mbind option_bind]. destruct p0, p1, p2. reflexivity.
Qed.

(** X19: the bounds of a loaded mesh are those of its vertices: no
    minimum exceeds its maximum, and every triangle of the mesh can be
    read with [getTriangle] and has its three corners in the box. *)
Theorem loaded_triangles_lie_in_bounds (objContent : string) (mesh : Mesh)
    (t : Z) :
  parseOBJ parseFloat objContent = Ok mesh ->
  (0 <= t)%Z -> (3 * t + 2 < Z.of_nat (length (indices mesh)))%Z ->
  box_ordered (bounds mesh) /\
  exists tri : Triangle,
    getTriangle mesh t = Some tri /\
    inside (v0 tri) (bounds mesh) /\ inside (v1 tri) (bounds mesh) /\
    inside (v2 tri) (bounds mesh).
Proof. apply loaded_triangle. Qed.



End Pipeline.

Section PipelineRuns.
Import Types ObjLoader MeshSpec BoundsSpec BoxSpec Triangles Gpu Sdf DriverSpec
       Samples.

Lemma quad_loads :
  exists mesh : Mesh,
    parseOBJ parseFloat_integers quad_obj = Ok mesh
    /\ indices mesh = [0; 1; 2; 0; 2; 3]%Z.
Proof.
  pose proof parseOBJ_quad_indices as Hq.
  destruct (parseOBJ parseFloat_integers quad_obj) as [mesh | e].
  - exists mesh. split; [reflexivity |]. injection Hq as ->. reflexivity.
  - discriminate.
Defined.

Lemma loaded_triangles_lie_in_bounds_witness :
  exists mesh : Mesh,
    parseOBJ parseFloat_integers quad_obj = Ok mesh /\
    (3 * 1 + 2 < Z.of_nat (length (indices mesh)))%Z /\
    box_ordered (bounds mesh) /\
    exists tri : Triangle,
      getTriangle mesh 1 = Some tri /\
      inside (v0 tri) (bounds mesh) /\ inside (v1 tri) (bounds mesh) /\
      inside (v2 tri) (bounds mesh).
Proof.
  destruct quad_loads as (mesh & Hparse & Hi). exists mesh.
  assert (Hin : (3 * 1 + 2 < Z.of_nat (length (indices mesh)))%Z)
    by (rewrite Hi; cbn; lia).
  split; [exact Hparse |]. split; [exact Hin |].
  exact (loaded_triangles_lie_in_bounds parseFloat_integers quad_obj mesh 1
           Hparse ltac:(lia) Hin).
Defined.


End PipelineRuns.
